(** * blind-peer-cli: the service supervisor of [bin.js]

    A shallow embedding of the command handler of [bin.js] (the function
    passed to paparam's [command]) and of its helpers [recordToStr],
    [streamToStr] and [coreToInfo], together with the event handlers it
    registers on the peer engine and on its swarm, the stream-health sampler,
    the graceful-exit hook and the auto-shutdown timer.

    The properties come in two parts: first the behaviours that the
    specification of the command states (configuration, key renderings,
    malformed payloads, the sampler, shutdown, startup, the console), then
    further properties read off the code: how the command fails, what a
    whole run registers, logs and sets, and how key texts round-trip.

    Conventions.
    - JavaScript values are the inductive [JS.value] (no functions, symbols
      or getters); property access on [undefined]/[null] raises a
      [TypeError], as the language does.
    - Strings are Rocq strings, one character per code unit (flag values,
      key renderings and log texts are ASCII).
    - Integers are exact ([Z]); [NaN] is a value of its own.  The rounding of
      IEEE doubles is not modelled: the jittered delay is an exact rational.
    - Effects (logger calls, calls on the engine, on the instrumentation
      exporter, on graceful-goodbye, timers) are recorded in order in a
      trace; the mutable variable [instrumentation] is a field of the
      supervisor state.  A logger call is recorded whatever the level the
      logger was created with.
    - The engine (blind-peer), the exporter (hyper-instrument), repl-swarm
      and graceful-goodbye are collaborators: a [World] says how their
      operations settle.  [b4a], [z32] and [hypercore-id-encoding] are
      modelled as the packages compute; [hypercore-crypto]'s hash,
      [tiny-byte-size] and the runtime's conversions are parameters
      ([Libs]). *)

From Stdlib Require Import ZArith NArith QArith Lqa List String Ascii Bool Lia.
From Stdlib.Strings Require Import Byte.
From Stdlib Require Import DecimalString DecimalN DecimalPos.
Import ListNotations.

Local Open Scope string_scope.
Local Open Scope Z_scope.

(* ===================================================================== *)
(** ** JavaScript values and exceptions *)
(* ===================================================================== *)

Module JS.

(** Numbers: an exact integer or [NaN]. *)
Inductive num : Type :=
| NaN
| Int (z : Z).

#[warnings="-register-all"]
Inductive value : Type :=
| VUndefined
| VNull
| VBool (b : bool)
| VNum (n : num)
| VStr (s : string)
| VBuf (b : list byte)
| VArr (l : list value)
| VObj (fields : list (string * value)).

(** Thrown values.  [TypeError] is what the runtime raises (its message is
    the runtime's); [Error msg] is [new Error(msg)]. *)
Inductive error : Type :=
| TypeError (what : string)
| Error (msg : string).

Inductive result (A : Type) : Type :=
| Ok (a : A)
| Throw (e : error).
Arguments Ok {A} a.
Arguments Throw {A} e.

Definition bind {A B} (r : result A) (k : A -> result B) : result B :=
  match r with
  | Ok a => k a
  | Throw e => Throw e
  end.

(** [ToBoolean]. *)
Definition truthy (v : value) : bool :=
  match v with
  | VUndefined | VNull => false
  | VBool b => b
  | VNum NaN => false
  | VNum (Int z) => negb (z =? 0)
  | VStr s => negb (String.length s =? 0)%nat
  | VBuf _ | VArr _ | VObj _ => true
  end.

(** [a || b]. *)
Definition or_else (a b : value) : value := if truthy a then a else b.

Fixpoint lookup (k : string) (fields : list (string * value)) : value :=
  match fields with
  | [] => VUndefined
  | (k', v) :: rest => if String.eqb k k' then v else lookup k rest
  end.

Definition of_len {A} (l : list A) : value := VNum (Int (Z.of_nat (List.length l))).

(** [v.k]: a [TypeError] on [undefined] and [null], the field of an object,
    [length] of strings, buffers and arrays, [undefined] otherwise. *)
Definition get (v : value) (k : string) : result value :=
  match v with
  | VUndefined => Throw (TypeError ("Cannot read properties of undefined (reading '" ++ k ++ "')"))
  | VNull => Throw (TypeError ("Cannot read properties of null (reading '" ++ k ++ "')"))
  | VObj fields => Ok (lookup k fields)
  | VStr s => Ok (if String.eqb k "length" then VNum (Int (Z.of_nat (String.length s))) else VUndefined)
  | VBuf b => Ok (if String.eqb k "length" || String.eqb k "byteLength" then of_len b else VUndefined)
  | VArr l => Ok (if String.eqb k "length" then of_len l else VUndefined)
  | VBool _ | VNum _ => Ok VUndefined
  end.

(** [v?.k]. *)
Definition get_opt (v : value) (k : string) : result value :=
  match v with
  | VUndefined | VNull => Ok VUndefined
  | _ => get v k
  end.

Definition decimal (z : Z) : string := NilZero.string_of_int (Z.to_int z).

(** [ToString], as a template literal applies it. *)
Fixpoint toStr (v : value) : string :=
  match v with
  | VUndefined => "undefined"
  | VNull => "null"
  | VBool true => "true"
  | VBool false => "false"
  | VNum NaN => "NaN"
  | VNum (Int z) => decimal z
  | VStr s => s
  | VBuf b => string_of_list_byte b
  | VArr l =>
      let elem x := match x with VUndefined | VNull => "" | _ => toStr x end in
      (fix join (l : list value) : string :=
         match l with
         | [] => ""
         | [x] => elem x
         | x :: rest => elem x ++ "," ++ join rest
         end) l
  | VObj _ => "[object Object]"
  end.

(** *** [parseInt] with no radix argument *)

Definition is_whitespace (c : ascii) : bool :=
  let n := nat_of_ascii c in
  ((n =? 9) || (n =? 10) || (n =? 11) || (n =? 12) || (n =? 13) || (n =? 32))%nat.

Fixpoint trim_start (s : string) : string :=
  match s with
  | String c rest => if is_whitespace c then trim_start rest else s
  | EmptyString => s
  end.

Definition digit_of (radix : Z) (c : ascii) : option Z :=
  let n := Z.of_nat (nat_of_ascii c) in
  let d :=
    if (48 <=? n) && (n <=? 57) then Some (n - 48)
    else if (97 <=? n) && (n <=? 122) then Some (n - 87)
    else if (65 <=? n) && (n <=? 90) then Some (n - 55)
    else None in
  match d with
  | Some d => if d <? radix then Some d else None
  | None => None
  end.

(** The value of the longest prefix of radix digits; [acc] is [None] until a
    digit has been read. *)
Fixpoint digits_prefix (radix : Z) (s : string) (acc : option Z) : option Z :=
  match s with
  | String c rest =>
      match digit_of radix c with
      | Some d =>
          digits_prefix radix rest
            (Some (radix * match acc with Some a => a | None => 0 end + d))
      | None => acc
      end
  | EmptyString => acc
  end.

Definition parseInt_string (s : string) : num :=
  let s := trim_start s in
  let '(sign, s) :=
    match s with
    | String "-"%char rest => (-1, rest)
    | String "+"%char rest => (1, rest)
    | _ => (1, s)
    end in
  let '(radix, s) :=
    match s with
    | String "0"%char (String "x"%char rest) => (16, rest)
    | String "0"%char (String "X"%char rest) => (16, rest)
    | _ => (10, s)
    end in
  match digits_prefix radix s None with
  | Some m => Int (sign * m)
  | None => NaN
  end.

Definition parseInt (v : value) : num := parseInt_string (toStr v).

(** [a * b] on numbers. *)
Definition mul (a b : num) : num :=
  match a, b with
  | Int x, Int y => Int (x * y)
  | _, _ => NaN
  end.

End JS.
Import JS.

Notation "x <- r ;; k" := (JS.bind r (fun x => k))
  (at level 100, r at next level, right associativity).

(* ===================================================================== *)
(** ** Key encodings of the dependencies

    [b4a.toString(buf, 'hex')], the [z32] package and
    [hypercore-id-encoding] ([idEnc]) are dependencies of [bin.js]; they are
    modelled here as the packages compute them, on byte lists. *)
(* ===================================================================== *)

Definition byte_of_N (n : N) : byte :=
  match Byte.of_N (N.land n 255) with
  | Some b => b
  | None => x00
  end.

Definition char_at (alphabet : string) (n : N) : ascii :=
  match String.get (N.to_nat n) alphabet with
  | Some c => c
  | None => "?"%char
  end.

Fixpoint index_of (c : ascii) (alphabet : string) : option N :=
  match alphabet with
  | EmptyString => None
  | String a rest =>
      if Ascii.eqb a c then Some 0%N
      else option_map N.succ (index_of c rest)
  end.

Module B4a.

Definition hex_digits : string := "0123456789abcdef".

Fixpoint hex (buf : list byte) : string :=
  match buf with
  | [] => ""
  | b :: rest =>
      String (char_at hex_digits (N.shiftr (Byte.to_N b) 4))
        (String (char_at hex_digits (N.land (Byte.to_N b) 15)) (hex rest))
  end.

(** [b4a.toString(buffer, 'hex')]: anything but a buffer makes [toBuffer]
    throw. *)
Definition toString_hex (v : value) : result string :=
  match v with
  | VBuf b => Ok (hex b)
  | _ =>
      _ <- get v "buffer" ;;
      Throw (TypeError "The first argument must be of type string or an instance of Buffer, ArrayBuffer, or Array or an Array-like Object")
  end.

Definition hex_value (c : ascii) : option N :=
  let n := N_of_ascii c in
  if ((48 <=? n) && (n <=? 57))%N then Some (n - 48)%N
  else if ((97 <=? n) && (n <=? 102))%N then Some (n - 87)%N
  else if ((65 <=? n) && (n <=? 70))%N then Some (n - 55)%N
  else None.

(** [b4a.from(s, 'hex')]: pairs of hex digits, stopping at the first pair
    that is not one. *)
Fixpoint from_hex (s : string) : list byte :=
  match s with
  | String hi (String lo rest) =>
      match hex_value hi, hex_value lo with
      | Some h, Some l => byte_of_N (16 * h + l) :: from_hex rest
      | _, _ => []
      end
  | _ => []
  end.

End B4a.

Module Z32.

Definition ALPHABET : string := "ybndrfg8ejkmcpqxot1uwisza345h769".

(** [buf[i]] inside a bit operation: an index past the end reads as 0. *)
Definition byte_at (buf : list byte) (i : nat) : N :=
  match nth_error buf i with
  | Some b => Byte.to_N b
  | None => 0%N
  end.

(** The body of [encode]'s loop at bit position [p]. *)
Definition encode_at (buf : list byte) (p : nat) : ascii :=
  let i := (p / 8)%nat in
  let j := (p mod 8)%nat in
  if (j <=? 3)%nat then
    char_at ALPHABET (N.land (N.shiftr (byte_at buf i) (N.of_nat (3 - j))) 31)
  else
    let of_ := (j - 3)%nat in
    let h := N.land (N.shiftl (byte_at buf i) (N.of_nat of_)) 31 in
    let l := N.shiftr (if (List.length buf <=? i)%nat then 0%N else byte_at buf (i + 1))
                      (N.of_nat (8 - of_)) in
    char_at ALPHABET (N.lor h l).

(** [for (let p = 0; p < max; p += 5)] with [max = buf.byteLength * 8]. *)
Definition encode (buf : list byte) : string :=
  let max := (List.length buf * 8)%nat in
  string_of_list_ascii
    (List.map (fun k => encode_at buf (5 * k)) (List.seq 0 ((max + 4) / 5))).

(** [quintet]: the index of a character in the alphabet, or an exception
    (whose message, in the package, also names the character and its
    position). *)
Fixpoint quintets (s : string) : result (list N) :=
  match s with
  | EmptyString => Ok []
  | String c rest =>
      match index_of c ALPHABET with
      | Some q => qs <- quintets rest ;; Ok (q :: qs)
      | None => Throw (Error "Invalid character in base32 input")
      end
  end.

Definition b1 (a b : N) : byte := byte_of_N (N.lor (N.shiftl a 3) (N.shiftr b 2)).
Definition b2 (b c d : N) : byte :=
  byte_of_N (N.lor (N.lor (N.shiftl (N.land b 3) 6) (N.shiftl c 1)) (N.shiftr d 4)).
Definition b3 (d e : N) : byte := byte_of_N (N.lor (N.shiftl (N.land d 15) 4) (N.shiftr e 1)).
Definition b4 (e f g : N) : byte :=
  byte_of_N (N.lor (N.lor (N.shiftl (N.land e 1) 7) (N.shiftl f 2)) (N.shiftr g 3)).
Definition b5 (g h : N) : byte := byte_of_N (N.lor (N.shiftl (N.land g 7) 5) h).

(** Eight quintets give five bytes; the remainder gives the bytes it fills
    (a quintet read past the end counts as 0). *)
Fixpoint decode_quintets (qs : list N) : list byte :=
  match qs with
  | a :: b :: c :: d :: e :: f :: g :: h :: rest =>
      b1 a b :: b2 b c d :: b3 d e :: b4 e f g :: b5 g h :: decode_quintets rest
  | [] => []
  | [a] => [b1 a 0]
  | [a; b] => [b1 a b]
  | [a; b; c] => [b1 a b; b2 b c 0]
  | [a; b; c; d] => [b1 a b; b2 b c d]
  | [a; b; c; d; e] => [b1 a b; b2 b c d; b3 d e]
  | [a; b; c; d; e; f] => [b1 a b; b2 b c d; b3 d e; b4 e f 0]
  | [a; b; c; d; e; f; g] => [b1 a b; b2 b c d; b3 d e; b4 e f g]
  end.

Definition decode (s : string) : result (list byte) :=
  qs <- quintets s ;; Ok (decode_quintets qs).

End Z32.

Module IdEnc.

(** [encode(key)]. *)
Definition encode (key : value) : result string :=
  match key with
  | VBuf b =>
      if (List.length b =? 32)%nat then Ok (Z32.encode b)
      else Throw (Error "Key must be 32-bytes long")
  | _ => Throw (Error "Key must be a Buffer")
  end.

Fixpoint until_slash (s : string) : string :=
  match s with
  | EmptyString => ""
  | String c rest => if Ascii.eqb c "/"%char then "" else String c (until_slash rest)
  end.

Definition strip_pear (s : string) : string :=
  if String.prefix "pear://" s
  then until_slash (String.substring 7 (String.length s - 7) s)
  else s.

(** [decode(id)]: a 32-byte buffer is itself; a string of 52 characters is
    z-base-32, of 64 characters hex; anything else is refused. *)
Definition decode (id : value) : result (list byte) :=
  let invalid := Throw (Error "Invalid Hypercore key") in
  match id with
  | VBuf b =>
      if (List.length b =? 32)%nat then Ok b
      else Throw (Error "ID must be 32-bytes long")
  | VStr s =>
      let s := strip_pear s in
      if (String.length s =? 52)%nat then Z32.decode s
      else if (String.length s =? 64)%nat then
        let buf := B4a.from_hex s in
        if (List.length buf =? 32)%nat then Ok buf else invalid
      else invalid
  | _ => invalid
  end.

(** [normalize(any) = encode(decode(any))]. *)
Definition normalize (any : value) : result string :=
  b <- decode any ;; encode (VBuf b).

End IdEnc.

Definition zero_key : list byte := List.repeat x00 32.
Definition key_0_31 : list byte :=
  List.map (fun n => byte_of_N (N.of_nat n)) (List.seq 0 32).

(* ===================================================================== *)
(** ** Effects: the trace and the supervisor state *)
(* ===================================================================== *)

(** pino's levels, as [bin.js] uses them. *)
Inductive level : Type := Debug | Info | Warn | Err.

(** What a logger call is given: a message, or an object ([logger.info(record)]). *)
Inductive logarg : Type :=
| Msg (s : string)
| Obj (v : value).

(** The arguments of [new Instrumentation({...})] that vary. *)
Record Instrumentation : Type := mkInstrumentation {
  scraperPublicKey : list byte;
  prometheusAlias : value;
  scraperSecret : list byte
}.

(** Asynchronous operations of the collaborators that [bin.js] awaits. *)
Inductive operation : Type :=
| BlindPeerReady
| BlindPeerListen
| BlindPeerClose
| InstrumentationReady
| InstrumentationClose.

Inductive event : Type :=
| Log (l : level) (a : logarg)
| NewBlindPeer (storage : value) (trustedPubKeys : list (list byte)) (maxBytes : num) (port : value)
| On (emitter : string) (name : string)
| GoodbyeRegistered
| ReplSwarm (seed : list byte) (instrumentation : option Instrumentation)
| Called (op : operation)
| Settled (op : operation) (ok : bool)
| SetInterval (ms : Z)
| NewInstrumentation (i : Instrumentation)
| RegisterMetrics
| RegisterLogger
| SetTimeout (ms : option Q)
| GoodbyeExit.

(** The supervisor state: what has happened so far, and the variable
    [let instrumentation = null] that the graceful-exit hook closes over. *)
Record state : Type := mkState {
  trace : list event;
  instrumentation : option Instrumentation
}.

Definition initial : state := mkState [] None.

Definition M (A : Type) : Type := state -> result A * state.

Definition ret {A} (a : A) : M A := fun st => (Ok a, st).

Definition mbind {A B} (m : M A) (k : A -> M B) : M B :=
  fun st =>
    match m st with
    | (Ok a, st') => k a st'
    | (Throw e, st') => (Throw e, st')
    end.

Notation "'let*' x ':=' m 'in' k" := (mbind m (fun x => k))
  (at level 10, x name, k at level 200).
Notation "m >> k" := (mbind m (fun _ => k))
  (at level 100, right associativity).

Definition lift {A} (r : result A) : M A := fun st => (r, st).

Definition throw {A} (e : error) : M A := lift (Throw e).

Definition emit (e : event) : M unit :=
  fun st => (Ok tt, mkState (trace st ++ [e]) (instrumentation st)).

Definition log (l : level) (s : string) : M unit := emit (Log l (Msg s)).

Definition read_instrumentation : M (option Instrumentation) :=
  fun st => (Ok (instrumentation st), st).

Definition assign_instrumentation (i : Instrumentation) : M unit :=
  fun st => (Ok tt, mkState (trace st) (Some i)).

(** [try { body } catch (e) { handler }]. *)
Definition try_catch {A} (body : M A) (handler : error -> M A) : M A :=
  fun st =>
    match body st with
    | (Ok a, st') => (Ok a, st')
    | (Throw e, st') => handler e st'
    end.

(** [if (c) { m }]. *)
Definition when (c : bool) (m : M unit) : M unit := if c then m else ret tt.

(** Logger calls made by other callbacks (event handlers, the sampler) that
    run while a promise is pending. *)
Definition logged (calls : list (level * logarg)) : M unit :=
  fun st =>
    (Ok tt, mkState (trace st ++ List.map (fun c => Log (fst c) (snd c)) calls)
                    (instrumentation st)).

(** [await op()]: the call, what other callbacks log while the promise is
    pending, and how the promise settles (a rejection is rethrown). *)
Definition await (op : operation) (meanwhile : list (level * logarg))
    (outcome : result unit) : M unit :=
  emit (Called op) >>
  logged meanwhile >>
  match outcome with
  | Ok _ => emit (Settled op true)
  | Throw e => emit (Settled op false) >> throw e
  end.

(** The outcome and the trace of a run from the initial state. *)
Definition run {A} (m : M A) : result A * list event :=
  let '(r, st) := m initial in (r, trace st).

Definition nl : string := String (ascii_of_nat 10) "".

(* ===================================================================== *)
(** ** What the supervisor is given *)
(* ===================================================================== *)

(** Functions of the runtime and of dependencies that are used as they are:
    [hypCrypto.discoveryKey], [byteSize] (tiny-byte-size), the [stack] of a
    caught exception, the language's string-to-number conversion and
    number-to-string conversion, and [JSON.stringify(x.toJSON(), null, 1)]. *)
Record Libs : Type := mkLibs {
  discoveryKey : value -> result value;
  byteSize : value -> string;
  stack : error -> string;
  StringToNumber : string -> option Q;
  number_text : option Q -> string;
  json_text : value -> result string
}.

(** The flags paparam hands to the command: [undefined] when absent. *)
Record Flags : Type := mkFlags {
  f_storage : value;
  f_port : value;
  f_trustedPeer : value;
  f_debug : value;
  f_maxStorage : value;
  f_autodiscoveryRpcKey : value;
  f_autodiscoverySeed : value;
  f_autodiscoveryServiceName : value;
  f_scraperPublicKey : value;
  f_scraperSecret : value;
  f_scraperAlias : value;
  f_logStreams : value;
  f_repl : value;
  f_autoShutdownMinutes : value
}.

Definition no_flags : Flags :=
  mkFlags VUndefined VUndefined VUndefined VUndefined VUndefined VUndefined VUndefined
          VUndefined VUndefined VUndefined VUndefined VUndefined VUndefined VUndefined.

(** What the collaborators answer during one run: whether [new BlindPeer]
    throws, how each awaited operation settles and what is logged by other
    callbacks meanwhile, the draw of [Math.random()], and the properties of
    the engine that the supervisor reads. *)
Record World : Type := mkWorld {
  construction : result unit;
  settles : operation -> result unit;
  meanwhile : operation -> list (level * logarg);
  random : Q;
  engine_trustedPubKeys : list value;
  bytesAllocated : value;
  engine_maxBytes : value;
  localAddress_host : value;
  localAddress_port : value;
  swarm_publicKey : value;
  publicKey : value;
  encryptionPublicKey : value
}.

Definition SERVICE_NAME : string := "blind-peer".
Definition DEFAULT_STORAGE_LIMIT_MB : value := VNum (Int 100000).

(** [ToNumber]. *)
Definition to_number (libs : Libs) (v : value) : option Q :=
  match v with
  | VUndefined => None
  | VNull => Some 0%Q
  | VBool b => Some (if b then 1%Q else 0%Q)
  | VNum NaN => None
  | VNum (Int z) => Some (inject_Z z)
  | VStr s => StringToNumber libs s
  | VBuf _ | VArr _ | VObj _ => StringToNumber libs (toStr v)
  end.

(* ===================================================================== *)
(** ** Rendering helpers of [bin.js] *)
(* ===================================================================== *)

Section Supervisor.

Context (libs : Libs).

(** [recordToStr(record)]. *)
Definition recordToStr (record : value) : result string :=
  key <- get record "key" ;;
  discKey <- discoveryKey libs key ;;
  d <- IdEnc.normalize discKey ;;
  priority <- get record "priority" ;;
  announce <- get record "announce" ;;
  Ok ("DB Record for discovery key " ++ d ++ " with priority: " ++ toStr priority
      ++ ". Announcing? " ++ toStr announce).

(** [streamToStr(stream)]. *)
Definition streamToStr (stream : value) : result string :=
  k <- get stream "remotePublicKey" ;;
  pubKey <- IdEnc.normalize k ;;
  Ok pubKey.

(** [coreToInfo(core, includePublicKey = false)]. *)
Definition coreToInfo (core : value) (includePublicKey : bool) : result string :=
  key <- get core "key" ;;
  discKey <- discoveryKey libs key ;;
  d <- IdEnc.normalize discKey ;;
  contiguousLength <- get core "contiguousLength" ;;
  len <- get core "length" ;;
  peers <- get core "peers" ;;
  npeers <- get peers "length" ;;
  let res := "Discovery key " ++ d ++ " (" ++ toStr contiguousLength ++ " / " ++ toStr len
             ++ ", " ++ toStr npeers ++ " peers)" in
  if includePublicKey then
    key' <- get core "key" ;;
    k <- IdEnc.normalize key' ;;
    Ok (res ++ ". Public key: " ++ k)
  else Ok res.

(* ===================================================================== *)
(** ** The event handlers registered on the engine and on its swarm *)
(* ===================================================================== *)

Definition on_flush_error (e : value) : M unit :=
  let* s := lift (get e "stack") in
  log Warn ("Error while flushing the db: " ++ toStr s).

Definition on_muxer_paired (stream : value) : M unit :=
  let* s := lift (streamToStr stream) in
  log Debug ("Paired muxer with peer " ++ s).

Definition on_muxer_error (e : value) : M unit :=
  let* s := lift (get e "stack") in
  log Info ("Error while running the muxer protocol: " ++ toStr s).

Definition on_add_cores_received (stream : value) : M unit :=
  let* s := lift (streamToStr stream) in
  log Debug ("add-cores request received from peer " ++ s).

Definition on_add_cores_done (stream : value) : M unit :=
  let* s := lift (streamToStr stream) in
  log Debug ("add-cores request handled from peer " ++ s).

Definition on_add_new_core (record unused stream : value) : M unit :=
  try_catch
    (let* announce := lift (get record "announce") in
     if truthy announce then
       let* s := lift (streamToStr stream) in
       let* r := lift (recordToStr record) in
       log Info ("add-core request received from peer " ++ s ++ " for record " ++ r)
     else
       let* s := lift (streamToStr stream) in
       let* r := lift (recordToStr record) in
       log Debug ("add-core request received from peer " ++ s ++ " for record " ++ r))
    (fun e =>
       log Info ("Invalid add-core request received: " ++ stack libs e) >>
       emit (Log Info (Obj record))).

Definition on_delete_blocked (stream payload : value) : M unit :=
  let* key := lift (get payload "key") in
  let* s := lift (streamToStr stream) in
  let* k := lift (IdEnc.normalize key) in
  log Info ("Blocked delete-core request from untrusted peer " ++ s ++ " for core " ++ k).

Definition on_delete_core (stream payload : value) : M unit :=
  let* key := lift (get payload "key") in
  let* existing := lift (get payload "existing") in
  let* s := lift (streamToStr stream) in
  let* k := lift (IdEnc.normalize key) in
  log Info ("Received delete-core request from trusted peer " ++ s ++ " for core " ++ k
            ++ ". Existing: " ++ toStr existing).

Definition on_delete_core_end (stream payload : value) : M unit :=
  let* key := lift (get payload "key") in
  let* announced := lift (get payload "announced") in
  let* s := lift (streamToStr stream) in
  let* k := lift (IdEnc.normalize key) in
  log Info ("Completed delete-core request from trusted peer " ++ s ++ " for core " ++ k
            ++ ". Was announced: " ++ toStr announced).

Definition on_downgrade_announce (payload : value) : M unit :=
  let* record := lift (get payload "record") in
  let* remotePublicKey := lift (get payload "remotePublicKey") in
  try_catch
    (let* k := lift (IdEnc.normalize remotePublicKey) in
     let* r := lift (recordToStr record) in
     log Info ("Downgraded announce for peer " ++ k
               ++ " because the peer is not trusted (Original: " ++ r ++ ")"))
    (fun e =>
       log Err ("Unexpected error while logging downgrade-announce: " ++ stack libs e)).

Definition on_add_cores_downgrade_announce (payload : value) : M unit :=
  let* remotePublicKey := lift (get payload "remotePublicKey") in
  try_catch
    (let* k := lift (IdEnc.normalize remotePublicKey) in
     log Info ("Downgraded announce for peer " ++ k ++ " because the peer is not trusted)"))
    (fun e =>
       log Err ("Unexpected error while logging add-cores-downgrade-announce: "
                ++ stack libs e)).

Definition on_announce_core (core : value) : M unit :=
  let* c := lift (coreToInfo core true) in
  log Info ("Started announcing core " ++ c).

Definition on_announced_initial_cores : M unit :=
  log Info "Announced all initial cores".

Definition on_core_downloaded (core : value) : M unit :=
  let* c := lift (coreToInfo core true) in
  log Info ("Announced core fully downloaded: " ++ c).

Definition on_core_append (core : value) : M unit :=
  let* c := lift (coreToInfo core true) in
  log Info ("Detected announced-core length update: " ++ c).

Definition on_core_client_mode_changed (core isClient : value) : M unit :=
  if truthy isClient then
    let* c := lift (coreToInfo core true) in
    log Info ("Announced-core enabled client mode: " ++ c)
  else
    let* c := lift (coreToInfo core true) in
    log Info ("Announced-core disabled client mode: " ++ c).

Definition on_gc_start (w : World) (payload : value) : M unit :=
  let* bytesToClear := lift (get payload "bytesToClear") in
  log Info ("Starting GC, trying to clear " ++ byteSize libs bytesToClear
            ++ " (bytes allocated: " ++ byteSize libs (bytesAllocated w)
            ++ " of " ++ byteSize libs (engine_maxBytes w) ++ ")").

Definition on_gc_done (w : World) (payload : value) : M unit :=
  let* bytesCleared := lift (get payload "bytesCleared") in
  log Info ("Completed GC, cleared " ++ byteSize libs bytesCleared
            ++ " bytes (bytes allocated: " ++ byteSize libs (bytesAllocated w)
            ++ " of " ++ byteSize libs (engine_maxBytes w) ++ ")").

Definition on_core_activity (core : value) : M unit :=
  let* c := lift (coreToInfo core false) in
  log Debug ("Core activity for " ++ c).

Definition on_invalid_request (core err req from : value) : M unit :=
  let* s1 := lift (get from "stream") in
  let* r1 := lift (get_opt s1 "rawStream") in
  let* remoteHost := lift (get_opt r1 "remoteHost") in
  let* s2 := lift (get from "stream") in
  let* r2 := lift (get_opt s2 "rawStream") in
  let* remotePort := lift (get_opt r2 "remotePort") in
  let address := toStr remoteHost ++ ":" ++ toStr remotePort in
  let* s3 := lift (get from "stream") in
  let* k := lift (get s3 "remotePublicKey") in
  let* remotePubKey := lift (IdEnc.normalize k) in
  let* ck := lift (get core "key") in
  let* key := lift (IdEnc.normalize ck) in
  let* st := lift (get err "stack") in
  log Warn ("Received invalid request for core " ++ key ++ " from peer " ++ remotePubKey
            ++ " at " ++ address ++ " (" ++ toStr st ++ ")").

(** [blindPeer.swarm.on('ban', ...)]. *)
Definition on_ban (peerInfo err : value) : M unit :=
  let* pk := lift (get peerInfo "publicKey") in
  let* h := lift (B4a.toString_hex pk) in
  let* st := lift (get err "stack") in
  log Warn ("Banned peer: " ++ h ++ "." ++ nl ++ toStr st).

(** [conn.on('close', ...)] and [conn.on('error', ...)], closed over [key]. *)
Definition on_conn_close (key : string) : M unit :=
  log Debug ("Closed connection to " ++ key).

Definition on_conn_error (key : string) (err : value) : M unit :=
  let* code := lift (get err "code") in
  match code with
  | VStr "ECONNRESET" =>
      let* st := lift (get err "stack") in
      log Debug ("Connection error with " ++ key ++ ": " ++ toStr st)
  | _ =>
      let* st := lift (get err "stack") in
      log Info ("Connection error with " ++ key ++ ": " ++ toStr st)
  end.

(** [blindPeer.swarm.on('connection', ...)], registered in debug mode.
    Methods are not values of the model: [conn.on(...)] is the read of
    [conn.on] followed by the registration. *)
Definition on_connection (conn peerInfo : value) : M unit :=
  let* pk := lift (get peerInfo "publicKey") in
  let* key := lift (IdEnc.normalize pk) in
  log Debug ("Opened connection to " ++ key) >>
  let* on1 := lift (get conn "on") in
  emit (On "conn" "close") >>
  emit (On "conn" "error").

(** An event of the engine or of its swarm, with the arguments it is
    emitted with. *)
Inductive emission : Type :=
| FlushError (e : value)
| MuxerPaired (stream : value)
| MuxerError (e : value)
| AddCoresReceived (stream : value)
| AddCoresDone (stream : value)
| AddNewCore (record unused stream : value)
| DeleteBlocked (stream payload : value)
| DeleteCore (stream payload : value)
| DeleteCoreEnd (stream payload : value)
| DowngradeAnnounce (payload : value)
| AddCoresDowngradeAnnounce (payload : value)
| AnnounceCore (core : value)
| AnnouncedInitialCores
| CoreDownloaded (core : value)
| CoreAppend (core : value)
| CoreClientModeChanged (core isClient : value)
| GcStart (payload : value)
| GcDone (payload : value)
| CoreActivity (core : value)
| InvalidRequest (core err req from : value)
| Ban (peerInfo err : value)
| Connection (conn peerInfo : value).

(** The listener that runs when the engine emits; [core-activity] and
    [connection] have a listener in debug mode only. *)
Definition handle (debug : bool) (w : World) (e : emission) : M unit :=
  match e with
  | FlushError e => on_flush_error e
  | MuxerPaired stream => on_muxer_paired stream
  | MuxerError e => on_muxer_error e
  | AddCoresReceived stream => on_add_cores_received stream
  | AddCoresDone stream => on_add_cores_done stream
  | AddNewCore record unused stream => on_add_new_core record unused stream
  | DeleteBlocked stream payload => on_delete_blocked stream payload
  | DeleteCore stream payload => on_delete_core stream payload
  | DeleteCoreEnd stream payload => on_delete_core_end stream payload
  | DowngradeAnnounce payload => on_downgrade_announce payload
  | AddCoresDowngradeAnnounce payload => on_add_cores_downgrade_announce payload
  | AnnounceCore core => on_announce_core core
  | AnnouncedInitialCores => on_announced_initial_cores
  | CoreDownloaded core => on_core_downloaded core
  | CoreAppend core => on_core_append core
  | CoreClientModeChanged core isClient => on_core_client_mode_changed core isClient
  | GcStart payload => on_gc_start w payload
  | GcDone payload => on_gc_done w payload
  | CoreActivity core => when debug (on_core_activity core)
  | InvalidRequest core err req from => on_invalid_request core err req from
  | Ban peerInfo err => on_ban peerInfo err
  | Connection conn peerInfo => when debug (on_connection conn peerInfo)
  end.

(* ===================================================================== *)
(** ** The stream-health sampler (the [setInterval] callback) *)
(* ===================================================================== *)

(** What iterating [blindPeer.swarm.dht.rawStreams] gives: the streams it
    yields and, possibly, the exception that ends the iteration. *)
Record enumeration : Type := mkEnumeration {
  yielded : list value;
  failure : option error
}.

Definition minus (a b : option Q) : option Q :=
  match a, b with
  | Some x, Some y => Some (x - y)%Q
  | _, _ => None
  end.

(** [n >= 100]. *)
Definition at_least_100 (n : option Q) : bool :=
  match n with
  | Some q => Qle_bool 100 q
  | None => false
  end.

(** [stream._wreqs.length - stream._wfree.length]. *)
Definition pending_writes (stream : value) : result (option Q) :=
  wreqs <- get stream "_wreqs" ;;
  a <- get wreqs "length" ;;
  wfree <- get stream "_wfree" ;;
  b <- get wfree "length" ;;
  Ok (minus (to_number libs a) (to_number libs b)).

(** The text of the per-stream warning. *)
Definition stream_warning (stream : value) (pendingWrites : option Q) : result string :=
  id <- get stream "id" ;;
  remoteId <- get stream "remoteId" ;;
  streamJson <- json_text libs stream ;;
  socket <- get stream "socket" ;;
  socketJson <- (if truthy socket then json_text libs socket else Ok "none") ;;
  handle <- get stream "_handle" ;;
  hexHandle <- B4a.toString_hex handle ;;
  socket' <- get stream "socket" ;;
  hexSocket <- (if truthy socket'
                then (h <- get socket' "_handle" ;; B4a.toString_hex h)
                else Ok "none") ;;
  Ok ("Stream " ++ toStr id ++ " (remote id: " ++ toStr remoteId ++ ") has "
      ++ number_text libs pendingWrites ++ " pending writes:" ++ nl
      ++ "Stream JSON: " ++ streamJson ++ nl
      ++ "Socket json: " ++ socketJson ++ nl
      ++ "hex streamhandle: " ++ hexHandle ++ nl
      ++ "hex socket handle: " ++ hexSocket).

(** The [for ... of] loop, threading [nrBigStreams]. *)
Fixpoint sample_loop (streams : list value) (nrBigStreams : Z) : M Z :=
  match streams with
  | [] => ret nrBigStreams
  | stream :: rest =>
      let* pendingWrites := lift (pending_writes stream) in
      if at_least_100 pendingWrites then
        let* msg := lift (stream_warning stream pendingWrites) in
        log Warn msg >>
        sample_loop rest (nrBigStreams + 1)
      else sample_loop rest nrBigStreams
  end.

Definition SAMPLING_INTERVAL_MS : Z := 30000.

(** One tick of the interval. *)
Definition log_streams_tick (rawStreams : enumeration) : M unit :=
  try_catch
    (let* nrBigStreams := sample_loop (yielded rawStreams) 0 in
     match failure rawStreams with
     | Some e => throw e
     | None =>
         when (0 <? nrBigStreams)
           (log Warn ("Total streams with many pending writes: " ++ decimal nrBigStreams))
     end)
    (fun e => log Warn ("logStreams errored unexpectedly: " ++ stack libs e)).

(* ===================================================================== *)
(** ** The graceful-exit hook and the auto-shutdown timer *)
(* ===================================================================== *)

(** The function passed to [goodbye(...)]. *)
Definition goodbye_callback (w : World) : M unit :=
  let* i := read_instrumentation in
  when (match i with Some _ => true | None => false end)
    (log Info "Closing instrumentation" >>
     await InstrumentationClose (meanwhile w InstrumentationClose)
           (settles w InstrumentationClose)) >>
  log Info "Shutting down blind peer" >>
  await BlindPeerClose (meanwhile w BlindPeerClose) (settles w BlindPeerClose) >>
  log Info "Shut down blind peer".

(** graceful-goodbye runs the registered function when the process receives
    a termination signal, and when [goodbye.exit()] is called. *)
Definition run_goodbye (w : World) : M unit :=
  fun st =>
    if existsb (fun e => match e with GoodbyeRegistered => true | _ => false end) (trace st)
    then goodbye_callback w st
    else (Ok tt, st).

Definition on_termination_signal (w : World) : M unit := run_goodbye w.



(* ===================================================================== *)
(** ** The command: [async function ({ flags })] *)
(* ===================================================================== *)

Fixpoint decode_all (ids : list value) : result (list (list byte)) :=
  match ids with
  | [] => Ok []
  | k :: rest =>
      b <- IdEnc.decode k ;;
      bs <- decode_all rest ;;
      Ok (b :: bs)
  end.

(** [(flags.trustedPeer || []).map((k) => idEnc.decode(k))]. *)
Definition trustedPubKeys (trustedPeer : value) : result (list (list byte)) :=
  match or_else trustedPeer (VArr []) with
  | VArr ids => decode_all ids
  | _ => Throw (TypeError "(flags.trustedPeer || []).map is not a function")
  end.

(** [flags.storage || 'blind-peer']. *)
Definition storage (flags : Flags) : value :=
  or_else (f_storage flags) (VStr "blind-peer").

(** [1_000_000 * parseInt(flags.maxStorage || DEFAULT_STORAGE_LIMIT_MB)]. *)
Definition maxBytes (flags : Flags) : num :=
  mul (Int 1000000) (parseInt (or_else (f_maxStorage flags) DEFAULT_STORAGE_LIMIT_MB)).

(** [flags.port ? parseInt(flags.port) : null]. *)
Definition port (flags : Flags) : value :=
  if truthy (f_port flags) then VNum (parseInt (f_port flags)) else VNull.

Fixpoint normalize_all (keys : list value) : result (list string) :=
  match keys with
  | [] => Ok []
  | k :: rest =>
      s <- IdEnc.normalize k ;;
      ss <- normalize_all rest ;;
      Ok (s :: ss)
  end.

(** [Array.prototype.join] on strings. *)
Fixpoint join (sep : string) (l : list string) : string :=
  match l with
  | [] => ""
  | [x] => x
  | x :: rest => x ++ sep ++ join sep rest
  end.

(** The [blindPeer.on(...)] registrations, in source order. *)
Definition register_listeners (debug : bool) : M unit :=
  emit (On "blindPeer" "flush-error") >>
  emit (On "blindPeer" "muxer-paired") >>
  emit (On "blindPeer" "muxer-error") >>
  emit (On "blindPeer" "add-cores-received") >>
  emit (On "blindPeer" "add-cores-done") >>
  emit (On "blindPeer" "add-new-core") >>
  emit (On "blindPeer" "delete-blocked") >>
  emit (On "blindPeer" "delete-core") >>
  emit (On "blindPeer" "delete-core-end") >>
  emit (On "blindPeer" "downgrade-announce") >>
  emit (On "blindPeer" "add-cores-downgrade-announce") >>
  emit (On "blindPeer" "announce-core") >>
  emit (On "blindPeer" "announced-initial-cores") >>
  emit (On "blindPeer" "core-downloaded") >>
  emit (On "blindPeer" "core-append") >>
  emit (On "blindPeer" "core-client-mode-changed") >>
  emit (On "blindPeer" "gc-start") >>
  emit (On "blindPeer" "gc-done") >>
  when debug (emit (On "blindPeer" "core-activity")) >>
  emit (On "blindPeer" "invalid-request").

(** [x > 99]. *)
Definition greater_than_99 (v : value) : bool :=
  match to_number libs v with
  | Some q => negb (Qle_bool q 99)
  | None => false
  end.

(** Lines 312-318: the alias under which the exporter registers. *)
Definition resolve_alias (scraperAlias : value) (w : World) : result value :=
  let prometheusAlias := scraperAlias in
  too_long <- (if truthy prometheusAlias
               then (len <- get prometheusAlias "length" ;; Ok (greater_than_99 len))
               else Ok false) ;;
  if too_long then Throw (Error "The Prometheus alias must have length less than 100")
  else if negb (truthy prometheusAlias) then
    k <- IdEnc.normalize (swarm_publicKey w) ;;
    Ok (VStr (String.substring 0 99 ("blind-peer-" ++ k)))
  else Ok prometheusAlias.

(** Lines 305-333: [if (flags.scraperPublicKey) { ... }]. *)
Definition setup_instrumentation (flags : Flags) (w : World) : M unit :=
  when (truthy (f_scraperPublicKey flags))
    (log Info "Setting up instrumentation" >>
     let* scraperPublicKey := lift (IdEnc.decode (f_scraperPublicKey flags)) in
     let* scraperSecret := lift (IdEnc.decode (f_scraperSecret flags)) in
     let* prometheusAlias := lift (resolve_alias (f_scraperAlias flags) w) in
     let i := mkInstrumentation scraperPublicKey prometheusAlias scraperSecret in
     emit (NewInstrumentation i) >>
     assign_instrumentation i >>
     emit RegisterMetrics >>
     emit RegisterLogger >>
     await InstrumentationReady (meanwhile w InstrumentationReady)
           (settles w InstrumentationReady)).

(** [flags.autoShutdownMinutes * (1 + Math.random() / 5)], in minutes. *)
Definition auto_shutdown_delay (autoShutdownMinutes : value) (w : World) : option Q :=
  match to_number libs autoShutdownMinutes with
  | Some m => Some (m * (1 + random w / 5))%Q
  | None => None
  end.

(** [delay * 60 * 1000]. *)
Definition to_milliseconds (delay : option Q) : option Q :=
  match delay with
  | Some d => Some (d * 60 * 1000)%Q
  | None => None
  end.

(** Lines 338-348. *)
Definition setup_auto_shutdown (flags : Flags) (w : World) : M unit :=
  when (truthy (f_autoShutdownMinutes flags))
    (let delay := auto_shutdown_delay (f_autoShutdownMinutes flags) w in
     log Warn ("Automatically shutting down the process in " ++ number_text libs delay
               ++ " minutes") >>
     emit (SetTimeout (to_milliseconds delay))).

(** Lines 221-226: the remote debug console. *)
Definition setup_repl (flags : Flags) : M unit :=
  when (truthy (f_repl flags))
    (let* seed := lift (IdEnc.decode (f_repl flags)) in
     log Warn "Setting up REPL swarm, enabling remote access to this process" >>
     let* i := read_instrumentation in
     emit (ReplSwarm seed i)).

(** Lines 68-219: configuration, engine construction, listeners, and the
    registration of the graceful-exit hook. *)
Definition prelude (flags : Flags) (w : World) : M unit :=
  let debug := truthy (f_debug flags) in
  log Info "Starting blind peer" >>
  let storage := storage flags in
  let port := port flags in
  let maxBytes := maxBytes flags in
  let* trustedPubKeys := lift (trustedPubKeys (f_trustedPeer flags)) in
  emit (NewBlindPeer storage trustedPubKeys maxBytes port) >>
  lift (construction w) >>
  register_listeners debug >>
  log Info ("Using storage '" ++ toStr storage ++ "'") >>
  when (0 <? List.length trustedPubKeys)%nat
    (let* keys := lift (normalize_all (engine_trustedPubKeys w)) in
     log Info ("Trusted public keys:" ++ nl ++ "  -" ++ join (nl ++ "  -") keys)) >>
  emit GoodbyeRegistered.

(** Lines 228-278: [ready()], the swarm listeners, the sampler, [listen()]. *)
Definition bring_up (flags : Flags) (w : World) : M unit :=
  let debug := truthy (f_debug flags) in
  let logStreams := f_logStreams flags in
  await BlindPeerReady (meanwhile w BlindPeerReady) (settles w BlindPeerReady) >>
  emit (On "swarm" "ban") >>
  when debug (emit (On "swarm" "connection")) >>
  when (truthy logStreams)
    (log Warn "Advanced debugging option log-streams enabled" >>
     emit (SetInterval SAMPLING_INTERVAL_MS)) >>
  await BlindPeerListen (meanwhile w BlindPeerListen) (settles w BlindPeerListen) >>
  log Info ("Blind peer listening, local address is " ++ toStr (localAddress_host w)
            ++ ":" ++ toStr (localAddress_port w)) >>
  log Info ("Bytes allocated: " ++ byteSize libs (bytesAllocated w) ++ " of "
            ++ byteSize libs (engine_maxBytes w)).

(** Lines 67-278: everything up to and including [listen()]. *)
Definition startup (flags : Flags) (w : World) : M unit :=
  prelude flags w >>
  setup_repl flags >>
  bring_up flags w.

(** Lines 280-303: [if (flags.autodiscoveryRpcKey) throw ...]. *)
Definition autodiscovery_guard (flags : Flags) : M unit :=
  when (truthy (f_autodiscoveryRpcKey flags))
    (throw (Error "autobase discovery temp not supported")).

(** Lines 280-348: what runs once the engine listens. *)
Definition after_listening (flags : Flags) (w : World) : M unit :=
  autodiscovery_guard flags >>
  setup_instrumentation flags w >>
  let* pk := lift (IdEnc.normalize (publicKey w)) in
  log Info ("Listening at " ++ pk) >>
  let* epk := lift (IdEnc.normalize (encryptionPublicKey w)) in
  log Info ("Encryption public key is " ++ epk) >>
  setup_auto_shutdown flags w.

(** The whole command, in source order. *)
Definition main (flags : Flags) (w : World) : M unit :=
  startup flags w >>
  after_listening flags w.

End Supervisor.

(* ===================================================================== *)
(** ** Inputs used in examples *)
(* ===================================================================== *)

(** Stand-ins for the runtime's functions, for evaluating the model. *)
Definition demo_libs : Libs :=
  mkLibs (fun _ => Ok (VBuf zero_key))
         (fun v => toStr v ++ "B")
         (fun e => match e with
                   | TypeError s => "TypeError: " ++ s
                   | Error s => "Error: " ++ s
                   end)
         (fun s => match parseInt_string s with
                   | Int z => Some (inject_Z z)
                   | NaN => None
                   end)
         (fun q => match q with
                   | Some q =>
                       if (Qden q =? 1)%positive then decimal (Qnum q)
                       else decimal (Qnum q) ++ "/" ++ decimal (Z.pos (Qden q))
                   | None => "NaN"
                   end)
         (fun _ => Ok "{}").

(** A world in which every operation succeeds and nothing else is logged. *)
Definition demo_world : World :=
  mkWorld (Ok tt) (fun _ => Ok tt) (fun _ => []) (1 # 2)
          [] (VNum (Int 0)) (VNum (Int 100000000000))
          (VStr "10.0.0.214") (VNum (Int 49741))
          (VBuf key_0_31) (VBuf key_0_31) (VBuf zero_key).


Definition with_autodiscovery (v : value) : Flags :=
  mkFlags VUndefined VUndefined VUndefined VUndefined VUndefined v VUndefined
          VUndefined VUndefined VUndefined VUndefined VUndefined VUndefined VUndefined.

(** Scraper public key, secret and alias, REPL seed, auto-shutdown minutes. *)
Definition with_scraper (pk secret alias repl minutes : value) : Flags :=
  mkFlags VUndefined VUndefined VUndefined VUndefined VUndefined VUndefined VUndefined
          VUndefined pk secret alias VUndefined repl minutes.

Definition stream_of (remotePublicKey : list byte) : value :=
  VObj [("remotePublicKey", VBuf remotePublicKey)].


Definition keyed (key : list byte) (more : list (string * value)) : value :=
  VObj (("key", VBuf key) :: more).

Definition error_of (stack : string) : value := VObj [("stack", VStr stack)].

(** A raw stream with [a] write requests of which [b] are free. *)
Definition raw_stream (id : Z) (a b : nat) : value :=
  VObj [("id", VNum (Int id)); ("remoteId", VNum (Int (id + 1)));
        ("_wreqs", VArr (List.repeat VNull a)); ("_wfree", VArr (List.repeat VNull b));
        ("socket", VNull); ("_handle", VBuf [x01; x02])].

(* ===================================================================== *)
(** ** Vocabulary of the properties

    Predicates on events and traces, and the event lists that the blocks of
    the command are shown to produce. *)
(* ===================================================================== *)

(** [emits P m]: from any state, [m] only appends events that satisfy [P]
    to the trace. *)
Definition emits {A} (P : event -> Prop) (m : M A) : Prop :=
  forall st, exists evs, trace (snd (m st)) = (trace st ++ evs)%list /\ Forall P evs.

(** [keeps m]: [m] does not assign the variable [instrumentation]. *)
Definition keeps {A} (m : M A) : Prop :=
  forall st, instrumentation (snd (m st)) = instrumentation st.

(** An event that neither constructs an instrumentation handle nor hands
    one to the console. *)
Definition no_instrumentation (e : event) : Prop :=
  match e with
  | NewInstrumentation _ => False
  | ReplSwarm _ (Some _) => False
  | _ => True
  end.

(** The state after appending [evs] to the trace. *)
Definition after (st : state) (evs : list event) : state :=
  mkState (trace st ++ evs) (instrumentation st).

(** A warn-level logger call. *)
Definition warn (msg : string) : event := Log Warn (Msg msg).

(** Whether the sampler counts a stream: its pending writes can be read and
    are at least 100. *)
Definition is_big (libs : Libs) (stream : value) : bool :=
  match pending_writes libs stream with
  | Ok n => at_least_100 n
  | Throw _ => false
  end.

(** The warning a counted stream gets. *)
Definition warning_for (libs : Libs) (stream : value) : list string :=
  match pending_writes libs stream with
  | Ok n =>
      if at_least_100 n then
        match stream_warning libs stream n with
        | Ok msg => [msg]
        | Throw _ => []
        end
      else []
  | Throw _ => []
  end.

(** A stream the sampler can read: its pending writes, and its description
    when it is counted. *)
Definition readable (libs : Libs) (stream : value) : Prop :=
  exists n, pending_writes libs stream = Ok n
            /\ (at_least_100 n = true -> exists msg, stream_warning libs stream n = Ok msg).

(** The rollup warning, when at least one stream is counted. *)
Definition rollup (count : Z) : list event :=
  if 0 <? count
  then [warn ("Total streams with many pending writes: " ++ decimal count)]
  else [].

(** Whether an awaited promise resolved. *)
Definition settled_ok (r : result unit) : bool :=
  match r with
  | Ok _ => true
  | Throw _ => false
  end.

(** The events of [await op()]. *)
Definition awaiting (w : World) (op : operation) : list event :=
  Called op
  :: List.map (fun c => Log (fst c) (snd c)) (meanwhile w op)
  ++ [Settled op (settled_ok (settles w op))].

(** The events of closing the engine. *)
Definition engine_shutdown (w : World) : list event :=
  Log Info (Msg "Shutting down blind peer")
  :: awaiting w BlindPeerClose
  ++ (if settled_ok (settles w BlindPeerClose)
      then [Log Info (Msg "Shut down blind peer")]
      else []).

(** What the graceful-exit hook does, given the value of [instrumentation]
    when it runs. *)
Definition shutdown_events (w : World) (i : option Instrumentation) : list event :=
  match i with
  | Some _ =>
      Log Info (Msg "Closing instrumentation")
      :: awaiting w InstrumentationClose
      ++ (if settled_ok (settles w InstrumentationClose) then engine_shutdown w else [])
  | None => engine_shutdown w
  end.

(** Every occurrence of [b] in [t] comes after an occurrence of [a]. *)
Definition precedes (a b : event) (t : list event) : Prop :=
  forall pre post, t = (pre ++ b :: post)%list -> In a pre.

(** An event of the instrumentation's [close()]. *)
Definition closes_instrumentation (e : event) : Prop :=
  match e with
  | Called InstrumentationClose | Settled InstrumentationClose _ => True
  | _ => False
  end.

(** The listeners the command registers on the engine. *)
Definition listeners (debug : bool) : list event :=
  [On "blindPeer" "flush-error"; On "blindPeer" "muxer-paired";
   On "blindPeer" "muxer-error"; On "blindPeer" "add-cores-received";
   On "blindPeer" "add-cores-done"; On "blindPeer" "add-new-core";
   On "blindPeer" "delete-blocked"; On "blindPeer" "delete-core";
   On "blindPeer" "delete-core-end"; On "blindPeer" "downgrade-announce";
   On "blindPeer" "add-cores-downgrade-announce"; On "blindPeer" "announce-core";
   On "blindPeer" "announced-initial-cores"; On "blindPeer" "core-downloaded";
   On "blindPeer" "core-append"; On "blindPeer" "core-client-mode-changed";
   On "blindPeer" "gc-start"; On "blindPeer" "gc-done"]
  ++ (if debug then [On "blindPeer" "core-activity"] else [])
  ++ [On "blindPeer" "invalid-request"].

(** An event of the prelude after the engine is constructed: a logger
    call, the registration of a listener, or of the graceful-exit hook. *)
Definition wiring (e : event) : Prop :=
  match e with
  | Log _ _ | On _ _ | GoodbyeRegistered => True
  | _ => False
  end.

(** The events of the remote debug console, when it is set up. *)
Definition repl_events (seed : list byte) (i : option Instrumentation) : list event :=
  [Log Warn (Msg "Setting up REPL swarm, enabling remote access to this process");
   ReplSwarm seed i].

(** The swarm listeners and the sampler, set up between [ready()] and
    [listen()]. *)
Definition swarm_wiring (flags : Flags) : list event :=
  On "swarm" "ban"
  :: (if truthy (f_debug flags) then [On "swarm" "connection"] else [])
  ++ (if truthy (f_logStreams flags)
      then [Log Warn (Msg "Advanced debugging option log-streams enabled");
            SetInterval SAMPLING_INTERVAL_MS]
      else []).

(** The two logger calls that follow [listen()]. *)
Definition listening_logs (libs : Libs) (w : World) : list event :=
  [Log Info (Msg ("Blind peer listening, local address is " ++ toStr (localAddress_host w)
                  ++ ":" ++ toStr (localAddress_port w)));
   Log Info (Msg ("Bytes allocated: " ++ byteSize libs (bytesAllocated w) ++ " of "
                  ++ byteSize libs (engine_maxBytes w)))].

(** The engine has been constructed, [ready()] has resolved and [listen()]
    has resolved, in this order. *)
Definition engine_listening (t : list event) : Prop :=
  exists storage keys budget port a b c d,
    t = (a ++ NewBlindPeer storage keys budget port :: b
           ++ Settled BlindPeerReady true :: c
           ++ Settled BlindPeerListen true :: d)%list.

(** The console events of a run: none without the flag. *)
Definition console (flags : Flags) (i : option Instrumentation) : list event :=
  if truthy (f_repl flags) then
    match IdEnc.decode (f_repl flags) with
    | Ok seed => repl_events seed i
    | Throw _ => []
    end
  else [].


(** A console event carries no instrumentation handle. *)
Definition null_console (e : event) : Prop :=
  match e with
  | ReplSwarm _ (Some _) => False
  | _ => True
  end.

(** An event that is no console event. *)
Definition not_console (e : event) : Prop :=
  match e with
  | ReplSwarm _ _ => False
  | _ => True
  end.

(** What can precede the console: logger calls, the construction of the
    engine, registrations; no call on the engine, no instrumentation. *)
Definition before_ready (e : event) : Prop :=
  match e with
  | Log _ _ | NewBlindPeer _ _ _ _ | On _ _ | GoodbyeRegistered => True
  | _ => False
  end.

(** A REPL seed together with scraper credentials. *)
Definition console_flags : Flags :=
  with_scraper (VStr (B4a.hex zero_key)) (VStr (B4a.hex key_0_31)) VUndefined
               (VStr (B4a.hex key_0_31)) VUndefined.

(** Flags of the configuration block: storage, port, trusted peers, debug
    mode and the stream sampler. *)
Definition with_config (storage port trustedPeer debug logStreams : value) : Flags :=
  mkFlags storage port trustedPeer debug VUndefined VUndefined VUndefined
          VUndefined VUndefined VUndefined VUndefined logStreams VUndefined VUndefined.

(** The first two events of a run whose trusted keys decode. *)
Definition engine_construction (flags : Flags) (keys : list (list byte)) : list event :=
  [Log Info (Msg "Starting blind peer");
   NewBlindPeer (storage flags) keys (maxBytes flags) (port flags)].

(** The logger call of line 203. *)
Definition storage_log (flags : Flags) : event :=
  Log Info (Msg ("Using storage '" ++ toStr (storage flags) ++ "'")).

(** The logger call of lines 204-208, given the renderings of the engine's
    trusted keys. *)
Definition trusted_keys_log (texts : list string) : event :=
  Log Info (Msg ("Trusted public keys:" ++ nl ++ "  -" ++ join (nl ++ "  -") texts)).

(** The events of a successful instrumentation setup. *)
Definition exporter_setup (w : World) (i : Instrumentation) : list event :=
  [Log Info (Msg "Setting up instrumentation"); NewInstrumentation i;
   RegisterMetrics; RegisterLogger]
  ++ awaiting w InstrumentationReady.

(** The two logger calls of lines 335-336, given the renderings of the
    engine's keys. *)
Definition listening_at (pk epk : string) : list event :=
  [Log Info (Msg ("Listening at " ++ pk));
   Log Info (Msg ("Encryption public key is " ++ epk))].

(** The events of lines 338-348. *)
Definition auto_shutdown_events (libs : Libs) (flags : Flags) (w : World) : list event :=
  if truthy (f_autoShutdownMinutes flags) then
    [Log Warn (Msg ("Automatically shutting down the process in "
                    ++ number_text libs (auto_shutdown_delay libs (f_autoShutdownMinutes flags) w)
                    ++ " minutes"));
     SetTimeout (to_milliseconds (auto_shutdown_delay libs (f_autoShutdownMinutes flags) w))]
  else [].

(** The logger call of lines 204-208 in a run that gets past it. *)
Definition trusted_keys_events (w : World) (keys : list (list byte)) : list event :=
  if (0 <? List.length keys)%nat then
    match normalize_all (engine_trustedPubKeys w) with
    | Ok texts => [trusted_keys_log texts]
    | Throw _ => []
    end
  else [].

(** The events of lines 305-333 in a run that gets past them. *)
Definition exporter_events (libs : Libs) (flags : Flags) (w : World) : list event :=
  if truthy (f_scraperPublicKey flags) then
    match IdEnc.decode (f_scraperPublicKey flags),
          IdEnc.decode (f_scraperSecret flags),
          resolve_alias libs (f_scraperAlias flags) w with
    | Ok pk, Ok secret, Ok alias => exporter_setup w (mkInstrumentation pk alias secret)
    | _, _, _ => [Log Info (Msg "Setting up instrumentation")]
    end
  else [].

(** The trace of a run in which the command returns, block by block in
    source order. *)
Definition successful_run (libs : Libs) (flags : Flags) (w : World)
    (keys : list (list byte)) (pk epk : string) : list event :=
  engine_construction flags keys
  ++ listeners (truthy (f_debug flags))
  ++ [storage_log flags] ++ trusted_keys_events w keys ++ [GoodbyeRegistered]
  ++ console flags None
  ++ awaiting w BlindPeerReady ++ swarm_wiring flags
  ++ awaiting w BlindPeerListen ++ listening_logs libs w
  ++ exporter_events libs flags w
  ++ listening_at pk epk ++ auto_shutdown_events libs flags w.

(** A stream on which the sampler's loop body throws [e]: reading its
    pending writes does, or it is counted and describing it does. *)
Definition unreadable (libs : Libs) (stream : value) (e : error) : Prop :=
  pending_writes libs stream = Throw e
  \/ exists n, pending_writes libs stream = Ok n
               /\ at_least_100 n = true
               /\ stream_warning libs stream n = Throw e.

(** What can have happened while [ready()] has not resolved: logger calls,
    the construction of the engine, listeners on the engine, the hook, the
    console, and the call of [ready()] itself. *)
Definition until_ready (e : event) : Prop :=
  match e with
  | Log _ _ | NewBlindPeer _ _ _ _ | GoodbyeRegistered | ReplSwarm _ _ => True
  | Called BlindPeerReady | Settled BlindPeerReady _ => True
  | On emitter _ => emitter = "blindPeer"
  | _ => False
  end.

(** What can have happened while [listen()] has not resolved: the above,
    the listeners on the swarm, the sampler's interval and the call of
    [listen()]; nothing on the exporter and no shutdown timer. *)
Definition until_listening (e : event) : Prop :=
  match e with
  | Log _ _ | NewBlindPeer _ _ _ _ | GoodbyeRegistered | ReplSwarm _ _ | On _ _ => True
  | Called BlindPeerReady | Settled BlindPeerReady _ => True
  | Called BlindPeerListen | Settled BlindPeerListen _ => True
  | SetInterval _ => True
  | _ => False
  end.

(** A core as the engine hands it to a listener: its key, its two lengths
    and its peers. *)
Definition core_of (key : list byte) (contiguousLength len : value) (peers : list value)
    : value :=
  keyed key [("contiguousLength", contiguousLength); ("length", len);
             ("peers", VArr peers)].

(** An event that neither registers a listener nor sets a timer. *)
Definition plain (e : event) : Prop :=
  match e with
  | On _ _ | SetInterval _ | SetTimeout _ => False
  | _ => True
  end.

(** The keys that an event hands to a collaborator (trusted keys to the
    engine, the seed to the console, the scraper's keys to the exporter)
    are 32 bytes long. *)
Definition keys_of_32_bytes (e : event) : Prop :=
  match e with
  | NewBlindPeer _ keys _ _ => Forall (fun k => List.length k = 32%nat) keys
  | ReplSwarm seed _ => List.length seed = 32%nat
  | NewInstrumentation i =>
      List.length (scraperPublicKey i) = 32%nat /\ List.length (scraperSecret i) = 32%nat
  | _ => True
  end.

(** An event on the instrumentation exporter: its construction, a
    registration on it, or one of its awaited operations. *)
Definition uses_exporter (e : event) : Prop :=
  match e with
  | NewInstrumentation _ | RegisterMetrics | RegisterLogger => True
  | Called InstrumentationReady | Settled InstrumentationReady _ => True
  | Called InstrumentationClose | Settled InstrumentationClose _ => True
  | _ => False
  end.

(** A call on the engine. *)
Definition calls_engine (e : event) : Prop :=
  match e with
  | Called BlindPeerReady | Called BlindPeerListen | Called BlindPeerClose => True
  | _ => False
  end.

(** [m] changes nothing when it throws. *)
Definition silent_on_failure {A} (m : M A) : Prop :=
  forall st e, fst (m st) = Throw e -> snd (m st) = st.

(** The logger calls of a trace, in order. *)
Definition logger_calls (t : list event) : list (level * logarg) :=
  List.flat_map (fun e => match e with Log l a => [(l, a)] | _ => [] end) t.

(** The registrations of listeners in a trace, in order. *)
Definition registrations (t : list event) : list (string * string) :=
  List.flat_map (fun e => match e with On emitter name => [(emitter, name)] | _ => [] end) t.

(** The timers of a trace: intervals and timeouts. *)
Definition intervals (t : list event) : list Z :=
  List.flat_map (fun e => match e with SetInterval ms => [ms] | _ => [] end) t.

Definition timeouts (t : list event) : list (option Q) :=
  List.flat_map (fun e => match e with SetTimeout ms => [ms] | _ => [] end) t.

(* ===================================================================== *)
(** ** Examples of [parseInt] and of the encodings *)
(* ===================================================================== *)

Example parseInt_50000 : parseInt (VStr "50000") = Int 50000.
Proof. reflexivity. Qed.

Example parseInt_prefix : parseInt (VStr "  12abc") = Int 12.
Proof. reflexivity. Qed.

Example parseInt_hex : parseInt (VStr "0x1F") = Int 31.
Proof. reflexivity. Qed.

Example parseInt_letters : parseInt (VStr "abc") = NaN.
Proof. reflexivity. Qed.

Example parseInt_true : parseInt (VBool true) = NaN.
Proof. reflexivity. Qed.

Example z32_zero_key :
  IdEnc.normalize (VBuf zero_key)
  = Ok "yyyyyyyyyyyyyyyyyyyyyyyyyyyyyyyyyyyyyyyyyyyyyyyyyyyy".
Proof. reflexivity. Qed.

Example hex_zero_key :
  B4a.toString_hex (VBuf zero_key)
  = Ok "0000000000000000000000000000000000000000000000000000000000000000".
Proof. reflexivity. Qed.

Example hex_key_0_31 :
  B4a.hex key_0_31 = "000102030405060708090a0b0c0d0e0f101112131415161718191a1b1c1d1e1f".
Proof. reflexivity. Qed.

Example z32_roundtrip_key_0_31 :
  IdEnc.decode (VStr (Z32.encode key_0_31)) = Ok key_0_31.
Proof. reflexivity. Qed.

Example hex_roundtrip_key_0_31 :
  IdEnc.decode (VStr (B4a.hex key_0_31)) = Ok key_0_31.
Proof. reflexivity. Qed.

Example decode_undefined : IdEnc.decode VUndefined = Throw (Error "Invalid Hypercore key").
Proof. reflexivity. Qed.

(* ===================================================================== *)
(** ** [parseInt] on decimal numerals *)
(* ===================================================================== *)




(* ===================================================================== *)
(** ** What a block of the command may do: rules for [emits] and [keeps] *)
(* ===================================================================== *)

Lemma emits_ret {A} P (a : A) : emits P (ret a).
Proof. intros st. exists []. cbn. rewrite app_nil_r. auto. Qed.

Lemma emits_lift {A} P (r : result A) : emits P (lift r).
Proof. intros st. exists []. cbn. rewrite app_nil_r. auto. Qed.

Lemma emits_throw {A} P e : emits P (@throw A e).
Proof. apply emits_lift. Qed.

Lemma emits_emit P e : P e -> emits P (emit e).
Proof. intros H st. exists [e]. cbn. auto. Qed.

Lemma emits_log P l s : P (Log l (Msg s)) -> emits P (log l s).
Proof. apply emits_emit. Qed.

Lemma emits_read P : emits P read_instrumentation.
Proof. intros st. exists []. cbn. rewrite app_nil_r. auto. Qed.

Lemma emits_assign P i : emits P (assign_instrumentation i).
Proof. intros st. exists []. cbn. rewrite app_nil_r. auto. Qed.

Lemma emits_bind {A B} P (m : M A) (k : A -> M B) :
  emits P m -> (forall a, emits P (k a)) -> emits P (mbind m k).
Proof.
  intros Hm Hk st. unfold mbind.
  destruct (Hm st) as [e1 [E1 F1]].
  destruct (m st) as [[a|e] st1]; cbn [snd] in *.
  - destruct (Hk a st1) as [e2 [E2 F2]].
    exists (e1 ++ e2)%list. rewrite E2, E1, app_assoc. split; [reflexivity|].
    apply Forall_app; auto.
  - exists e1. auto.
Qed.

Lemma emits_try_catch {A} P (body : M A) (handler : error -> M A) :
  emits P body -> (forall e, emits P (handler e)) -> emits P (try_catch body handler).
Proof.
  intros Hm Hk st. unfold try_catch.
  destruct (Hm st) as [e1 [E1 F1]].
  destruct (body st) as [[a|e] st1]; cbn [snd] in *.
  - exists e1. auto.
  - destruct (Hk e st1) as [e2 [E2 F2]].
    exists (e1 ++ e2)%list. rewrite E2, E1, app_assoc. split; [reflexivity|].
    apply Forall_app; auto.
Qed.

Lemma emits_when P c (m : M unit) : emits P m -> emits P (when c m).
Proof. intros H. destruct c; [exact H | apply emits_ret]. Qed.

Lemma emits_logged P calls :
  (forall l a, P (Log l a)) -> emits P (logged calls).
Proof.
  intros H st. eexists. cbn. split; [reflexivity|].
  apply Forall_forall. intros e He. apply in_map_iff in He.
  destruct He as [[l a] [<- _]]. apply H.
Qed.

Lemma emits_await P op calls outcome :
  (forall l a, P (Log l a)) -> P (Called op) -> (forall ok, P (Settled op ok)) ->
  emits P (await op calls outcome).
Proof.
  intros HL HC HS. unfold await.
  apply emits_bind; [apply emits_emit; exact HC | intros _].
  apply emits_bind; [apply emits_logged; exact HL | intros _].
  destruct outcome.
  - apply emits_emit, HS.
  - apply emits_bind; [apply emits_emit, HS | intros _; apply emits_throw].
Qed.

Lemma emits_weaken {A} (P Q : event -> Prop) (m : M A) :
  (forall e, P e -> Q e) -> emits P m -> emits Q m.
Proof.
  intros H Hm st. destruct (Hm st) as [evs [E F]].
  exists evs. split; [exact E|]. eapply Forall_impl; eauto.
Qed.

Lemma keeps_ret {A} (a : A) : keeps (ret a).
Proof. intros st. reflexivity. Qed.

Lemma keeps_lift {A} (r : result A) : keeps (lift r).
Proof. intros st. reflexivity. Qed.

Lemma keeps_emit e : keeps (emit e).
Proof. intros st. reflexivity. Qed.

Lemma keeps_read : keeps read_instrumentation.
Proof. intros st. reflexivity. Qed.

Lemma keeps_logged calls : keeps (logged calls).
Proof. intros st. reflexivity. Qed.

Lemma keeps_bind {A B} (m : M A) (k : A -> M B) :
  keeps m -> (forall a, keeps (k a)) -> keeps (mbind m k).
Proof.
  intros Hm Hk st. unfold mbind. specialize (Hm st).
  destruct (m st) as [[a|e] st1]; cbn [snd] in *.
  - rewrite Hk. exact Hm.
  - exact Hm.
Qed.

Lemma keeps_try_catch {A} (body : M A) (handler : error -> M A) :
  keeps body -> (forall e, keeps (handler e)) -> keeps (try_catch body handler).
Proof.
  intros Hm Hk st. unfold try_catch. specialize (Hm st).
  destruct (body st) as [[a|e] st1]; cbn [snd] in *.
  - exact Hm.
  - rewrite Hk. exact Hm.
Qed.

Lemma keeps_when c (m : M unit) : keeps m -> keeps (when c m).
Proof. intros H. destruct c; [exact H | apply keeps_ret]. Qed.

Lemma keeps_await op calls outcome : keeps (await op calls outcome).
Proof.
  unfold await.
  apply keeps_bind; [apply keeps_emit | intros _].
  apply keeps_bind; [apply keeps_logged | intros _].
  destruct outcome; [apply keeps_emit|].
  apply keeps_bind; [apply keeps_emit | intros _; apply keeps_lift].
Qed.

(** Chains the rules above through a block of the command. *)
Ltac effects :=
  repeat first
    [ progress intros
    | apply emits_bind | apply emits_try_catch | apply emits_when
    | apply emits_lift | apply emits_throw | apply emits_ret
    | apply emits_read | apply emits_assign
    | apply emits_await | apply emits_logged
    | apply emits_log | apply emits_emit
    | apply keeps_bind | apply keeps_try_catch | apply keeps_when
    | apply keeps_lift | apply keeps_ret | apply keeps_read
    | apply keeps_await | apply keeps_logged | apply keeps_emit
    | match goal with
      | |- emits _ (if ?c then _ else _) => destruct c
      | |- keeps (if ?c then _ else _) => destruct c
      | |- emits _ (match ?x with _ => _ end) => destruct x
      | |- keeps (match ?x with _ => _ end) => destruct x
      end
    | exact I ].

(** Whatever event and payload a listener is given, it only calls the
    logger or (the connection listener) registers listeners on the
    connection, and it does not assign [instrumentation]. *)
Theorem handle_only_logs_or_registers (libs : Libs) (debug : bool) (w : World)
    (e : emission) :
  emits (fun ev => match ev with Log _ _ | On _ _ => True | _ => False end)
        (handle libs debug w e)
  /\ keeps (handle libs debug w e).
Proof.
  split; destruct e; cbn [handle];
    unfold on_flush_error, on_muxer_paired, on_muxer_error, on_add_cores_received,
      on_add_cores_done, on_add_new_core, on_delete_blocked, on_delete_core,
      on_delete_core_end, on_downgrade_announce, on_add_cores_downgrade_announce,
      on_announce_core, on_announced_initial_cores, on_core_downloaded, on_core_append,
      on_core_client_mode_changed, on_gc_start, on_gc_done, on_core_activity,
      on_invalid_request, on_ban, on_connection, log;
    effects.
Qed.

Lemma after_nil st : after st [] = st.
Proof. destruct st. unfold after. cbn. rewrite app_nil_r. reflexivity. Qed.

Lemma after_app st a b : after (after st a) b = after st (a ++ b).
Proof. unfold after. cbn. rewrite app_assoc. reflexivity. Qed.

Lemma trace_after st evs : trace (after st evs) = (trace st ++ evs)%list.
Proof. reflexivity. Qed.

Lemma instrumentation_after st evs : instrumentation (after st evs) = instrumentation st.
Proof. reflexivity. Qed.

Lemma emit_after e st : emit e st = (Ok tt, after st [e]).
Proof. reflexivity. Qed.

Lemma log_after l s st : log l s st = (Ok tt, after st [Log l (Msg s)]).
Proof. reflexivity. Qed.

Lemma mbind_emit {B} e (k : unit -> M B) st :
  mbind (emit e) k st = k tt (after st [e]).
Proof. reflexivity. Qed.

Lemma mbind_log {B} l s (k : unit -> M B) st :
  mbind (log l s) k st = k tt (after st [Log l (Msg s)]).
Proof. reflexivity. Qed.

Lemma mbind_lift_ok {A B} (a : A) (k : A -> M B) st :
  mbind (lift (Ok a)) k st = k a st.
Proof. reflexivity. Qed.

Lemma mbind_lift_throw {A B} e (k : A -> M B) st :
  mbind (lift (Throw e)) k st = (Throw e, st).
Proof. reflexivity. Qed.

Lemma mbind_assoc {A B C} (m : M A) (k : A -> M B) (h : B -> M C) st :
  mbind (mbind m k) h st = mbind m (fun a => mbind (k a) h) st.
Proof. unfold mbind. destruct (m st) as [[a|e] st1]; reflexivity. Qed.

Lemma mbind_ret {A B} (a : A) (k : A -> M B) st : mbind (ret a) k st = k a st.
Proof. reflexivity. Qed.

Lemma mbind_unfold {A B} (m : M A) (k : A -> M B) st :
  mbind m k st
  = match m st with
    | (Ok a, st') => k a st'
    | (Throw e, st') => (Throw e, st')
    end.
Proof. reflexivity. Qed.

(** Runs a block of the command up to its next fallible step. *)
Ltac step :=
  repeat first
    [ rewrite mbind_assoc | rewrite mbind_emit | rewrite mbind_log
    | rewrite mbind_lift_ok | rewrite mbind_lift_throw | rewrite mbind_ret
    | rewrite emit_after | rewrite log_after
    | rewrite after_app; cbn [List.app]
    | progress cbn [when] ].

(* ===================================================================== *)
(** ** Configuration: the storage budget *)
(* ===================================================================== *)





(* ===================================================================== *)
(** ** Key renderings: lengths *)
(* ===================================================================== *)

Lemma length_string_of_list_ascii (l : list ascii) :
  String.length (string_of_list_ascii l) = List.length l.
Proof. induction l; cbn; congruence. Qed.

Lemma length_append (a b : string) :
  String.length (a ++ b) = (String.length a + String.length b)%nat.
Proof. induction a; cbn; congruence. Qed.

Lemma length_z32 (buf : list byte) :
  String.length (Z32.encode buf) = ((List.length buf * 8 + 4) / 5)%nat.
Proof.
  unfold Z32.encode.
  rewrite length_string_of_list_ascii, length_map, length_seq. reflexivity.
Qed.

Lemma length_hex (buf : list byte) :
  String.length (B4a.hex buf) = (2 * List.length buf)%nat.
Proof. induction buf; cbn [B4a.hex String.length List.length]; lia. Qed.

Lemma normalize_key (k : list byte) :
  List.length k = 32%nat -> IdEnc.normalize (VBuf k) = Ok (Z32.encode k).
Proof.
  intros H. unfold IdEnc.normalize, IdEnc.decode, IdEnc.encode.
  rewrite H. cbn [Nat.eqb JS.bind]. rewrite H. reflexivity.
Qed.

Lemma length_normalized (k : list byte) :
  List.length k = 32%nat -> String.length (Z32.encode k) = 52%nat.
Proof. intros H. rewrite length_z32, H. reflexivity. Qed.


Lemma substring_all (n : nat) (s : string) :
  (String.length s <= n)%nat -> String.substring 0 n s = s.
Proof.
  revert n. induction s as [|c s IH]; intros [|n] H; cbn in *; try reflexivity; try lia.
  rewrite IH by lia. reflexivity.
Qed.

Lemma length_substring_le (n : nat) (s : string) :
  (String.length (String.substring 0 n s) <= n)%nat.
Proof.
  revert n. induction s as [|c s IH]; intros [|n]; cbn; try lia.
  specialize (IH n). lia.
Qed.

(* ===================================================================== *)
(** ** Configuration: the scraper alias *)
(* ===================================================================== *)

Lemma greater_than_99_int libs (z : Z) :
  greater_than_99 libs (VNum (Int z)) = (99 <? z).
Proof.
  unfold greater_than_99, to_number, Qle_bool. cbn [Qnum Qden inject_Z].
  rewrite !Z.mul_1_r.
  destruct (Z.leb_spec z 99), (Z.ltb_spec 99 z); cbn; try reflexivity; lia.
Qed.

(** C7 (as amended): an alias of 100 characters or more is refused; a
    non-empty alias of fewer than 100 characters is used as it is; an absent
    alias, and the empty one, is replaced by [blind-peer-] followed by the
    rendering of the swarm's public key, cut to 99 characters: a function of
    that key alone, 63 characters long for a 32-byte key. *)
Theorem scraper_alias (libs : Libs) (w : World) :
  (forall s, (100 <= String.length s)%nat ->
     resolve_alias libs (VStr s) w
     = Throw (Error "The Prometheus alias must have length less than 100"))
  /\ (forall s, (0 < String.length s < 100)%nat ->
        resolve_alias libs (VStr s) w = Ok (VStr s))
  /\ (forall absent, absent = VUndefined \/ absent = VStr "" ->
        (forall k, swarm_publicKey w = VBuf k -> List.length k = 32%nat ->
           resolve_alias libs absent w = Ok (VStr ("blind-peer-" ++ Z32.encode k))
           /\ String.length ("blind-peer-" ++ Z32.encode k) = 63%nat)
        /\ (forall a, resolve_alias libs absent w = Ok a ->
              exists t, a = VStr t /\ (String.length t <= 99)%nat)
        /\ (forall w', swarm_publicKey w' = swarm_publicKey w ->
              resolve_alias libs absent w' = resolve_alias libs absent w)).
Proof.
  split; [|split].
  - intros s H. unfold resolve_alias.
    assert (Ht : truthy (VStr s) = true)
      by (cbn; destruct (Nat.eqb_spec (String.length s) 0); [lia|reflexivity]).
    rewrite Ht. cbn [get JS.bind String.eqb Ascii.eqb Bool.eqb].
    rewrite greater_than_99_int.
    destruct (Z.ltb_spec 99 (Z.of_nat (String.length s))); [reflexivity|lia].
  - intros s H. unfold resolve_alias.
    assert (Ht : truthy (VStr s) = true)
      by (cbn; destruct (Nat.eqb_spec (String.length s) 0); [lia|reflexivity]).
    rewrite Ht. cbn [get JS.bind String.eqb Ascii.eqb Bool.eqb negb].
    rewrite greater_than_99_int.
    destruct (Z.ltb_spec 99 (Z.of_nat (String.length s))); [lia|reflexivity].
  - intros absent Habsent.
    assert (E : forall w0, resolve_alias libs absent w0
                = (k <- IdEnc.normalize (swarm_publicKey w0) ;;
                   Ok (VStr (String.substring 0 99 ("blind-peer-" ++ k)))))
      by (intros w0; destruct Habsent as [-> | ->]; reflexivity).
    split; [|split].
    + intros k Hk Hlen. rewrite E, Hk, (normalize_key k Hlen). cbn [JS.bind].
      assert (L : String.length ("blind-peer-" ++ Z32.encode k) = 63%nat)
        by (rewrite length_append, (length_normalized k Hlen); reflexivity).
      rewrite substring_all by (rewrite L; lia). auto.
    + intros a Ha. rewrite E in Ha.
      destruct (IdEnc.normalize (swarm_publicKey w)) as [t|e]; cbn [JS.bind] in Ha;
        [|discriminate Ha].
      exists (String.substring 0 99 ("blind-peer-" ++ t)).
      split; [congruence | apply length_substring_le].
    + intros w' Hw'. rewrite !E, Hw'. reflexivity.
Qed.

(** C7: an alias of 5 characters is kept; one of 100 is refused; without an
    alias the demo key gives a default of 63 characters. *)
Lemma scraper_alias_witness :
  resolve_alias demo_libs (VStr "node7") demo_world = Ok (VStr "node7")
  /\ resolve_alias demo_libs
       (VStr "0123456789012345678901234567890123456789012345678901234567890123456789012345678901234567890123456789")
       demo_world
     = Throw (Error "The Prometheus alias must have length less than 100")
  /\ resolve_alias demo_libs VUndefined demo_world
     = Ok (VStr ("blind-peer-" ++ Z32.encode key_0_31)).
Proof.
  split; [|split].
  - apply (proj1 (proj2 (scraper_alias demo_libs demo_world))). cbn. lia.
  - apply (proj1 (scraper_alias demo_libs demo_world)). cbn. lia.
  - apply (proj1 (proj2 (proj2 (scraper_alias demo_libs demo_world)) VUndefined
                    (or_introl eq_refl))); reflexivity.
Defined.

(** C7 (as stated) fails: the empty alias has fewer than 100 characters, and
    it is not the alias that is registered. *)
Lemma empty_alias_is_replaced :
  resolve_alias demo_libs (VStr "") demo_world
  = Ok (VStr "blind-peer-yyyoryarywdyqnyjbefoadeqbhebnrounoktcfaadrpbs8y7daxo")
  /\ resolve_alias demo_libs (VStr "") demo_world <> Ok (VStr "").
Proof. split; [reflexivity | discriminate]. Qed.

(* ===================================================================== *)
(** ** The event handlers: how keys are rendered *)
(* ===================================================================== *)

Lemma streamToStr_key (k : list byte) :
  List.length k = 32%nat -> streamToStr (stream_of k) = Ok (Z32.encode k).
Proof.
  intros H. unfold streamToStr, stream_of.
  cbn [get lookup String.eqb Ascii.eqb Bool.eqb JS.bind].
  rewrite (normalize_key k H). reflexivity.
Qed.





(* ===================================================================== *)
(** ** The event handlers: malformed payloads *)
(* ===================================================================== *)

(** C2 (as amended): three handlers guard their rendering with try/catch.
    [add-new-core] never throws, whatever its arguments: it logs the request
    at info or debug level, or else logs the failure and then the record,
    both at info level.  [downgrade-announce] and
    [add-cores-downgrade-announce], given a payload that is neither
    [undefined] nor [null], never throw: they log the downgrade at info
    level, or else the failure at error level. *)
Theorem guarded_handlers_report_failures (libs : Libs) (st : state) :
  (forall record unused stream,
     exists entries,
       on_add_new_core libs record unused stream st = (Ok tt, after st entries)
       /\ ((exists l s, entries = [Log l (Msg s)] /\ (l = Info \/ l = Debug))
           \/ (exists e,
                 entries = [Log Info (Msg ("Invalid add-core request received: "
                                           ++ stack libs e));
                            Log Info (Obj record)])))
  /\ (forall payload, payload <> VUndefined -> payload <> VNull ->
        exists entry,
          on_downgrade_announce libs payload st = (Ok tt, after st [entry])
          /\ ((exists s, entry = Log Info (Msg s))
              \/ (exists e,
                    entry = Log Err (Msg ("Unexpected error while logging downgrade-announce: "
                                          ++ stack libs e)))))
  /\ (forall payload, payload <> VUndefined -> payload <> VNull ->
        exists entry,
          on_add_cores_downgrade_announce libs payload st = (Ok tt, after st [entry])
          /\ ((exists s, entry = Log Info (Msg s))
              \/ (exists e,
                    entry = Log Err (Msg ("Unexpected error while logging add-cores-downgrade-announce: "
                                          ++ stack libs e))))).
Proof.
  split; [|split].
  - intros record unused stream. unfold on_add_new_core, try_catch.
    destruct (get record "announce") as [announce|e] eqn:Ea.
    + rewrite mbind_lift_ok.
      destruct (truthy announce);
        (destruct (streamToStr stream) as [s|e];
         [ rewrite mbind_lift_ok;
           destruct (recordToStr libs record) as [r|e];
           [ rewrite mbind_lift_ok; eexists; split; [reflexivity|];
             left; eauto
           | rewrite mbind_lift_throw ]
         | rewrite mbind_lift_throw ]);
        try (eexists; split;
             [ unfold after, mbind, log, emit; cbn [trace instrumentation];
               rewrite <- app_assoc; reflexivity
             | right; eexists; reflexivity ]).
    + rewrite mbind_lift_throw.
      eexists; split;
        [ unfold after, mbind, log, emit; cbn [trace instrumentation];
          rewrite <- app_assoc; reflexivity
        | right; eexists; reflexivity ].
  - intros payload H1 H2. unfold on_downgrade_announce, try_catch.
    destruct (get payload "record") as [record|e] eqn:Er;
      [|destruct payload; cbn in Er; congruence].
    rewrite mbind_lift_ok.
    destruct (get payload "remotePublicKey") as [remotePublicKey|e] eqn:Ek;
      [|destruct payload; cbn in Ek; congruence].
    rewrite mbind_lift_ok.
    destruct (IdEnc.normalize remotePublicKey) as [k|e].
    + rewrite mbind_lift_ok.
      destruct (recordToStr libs record) as [r|e].
      * rewrite mbind_lift_ok. eexists; split; [reflexivity|left; eauto].
      * rewrite mbind_lift_throw. eexists; split; [reflexivity|right; eauto].
    + rewrite mbind_lift_throw. eexists; split; [reflexivity|right; eauto].
  - intros payload H1 H2. unfold on_add_cores_downgrade_announce, try_catch.
    destruct (get payload "remotePublicKey") as [remotePublicKey|e] eqn:Ek;
      [|destruct payload; cbn in Ek; congruence].
    rewrite mbind_lift_ok.
    destruct (IdEnc.normalize remotePublicKey) as [k|e].
    + rewrite mbind_lift_ok. eexists; split; [reflexivity|left; eauto].
    + rewrite mbind_lift_throw. eexists; split; [reflexivity|right; eauto].
Qed.

(** C2: a downgrade event whose payload lacks both fields is reported at
    error level, and the handler returns. *)
Lemma guarded_handlers_witness :
  exists entry,
    on_downgrade_announce demo_libs (VObj []) initial = (Ok tt, after initial [entry])
    /\ ((exists s, entry = Log Info (Msg s))
        \/ (exists e,
              entry = Log Err (Msg ("Unexpected error while logging downgrade-announce: "
                                    ++ stack demo_libs e)))).
Proof.
  refine (proj1 (proj2 (guarded_handlers_report_failures demo_libs initial))
            (VObj []) _ _); discriminate.
Defined.

(** C2 (as stated) fails: an [add-new-core] event without a record is
    reported, but at info level; no error-level record is produced. *)
Lemma add_new_core_failure_is_logged_at_info :
  run (handle demo_libs false demo_world (AddNewCore VUndefined VUndefined VUndefined))
  = (Ok tt,
     [Log Info (Msg "Invalid add-core request received: TypeError: Cannot read properties of undefined (reading 'announce')");
      Log Info (Obj VUndefined)]).
Proof. reflexivity. Qed.

(** The handlers without try/catch throw on such payloads: a [delete-blocked]
    event whose request has no key, and an [invalid-request] event whose
    sender has no stream (the address is read with [?.], the public key is
    not). *)
Example delete_blocked_without_key_throws :
  run (handle demo_libs false demo_world (DeleteBlocked (stream_of zero_key) (VObj [])))
  = (Throw (Error "Invalid Hypercore key"), []).
Proof. reflexivity. Qed.

Example delete_blocked_without_stream_throws :
  run (handle demo_libs false demo_world (DeleteBlocked VNull (keyed zero_key [])))
  = (Throw (TypeError "Cannot read properties of null (reading 'remotePublicKey')"), []).
Proof. reflexivity. Qed.

Example invalid_request_without_stream_throws :
  run (handle demo_libs false demo_world
         (InvalidRequest (keyed zero_key []) (error_of "Error: bad request") VUndefined (VObj [])))
  = (Throw (TypeError "Cannot read properties of undefined (reading 'remotePublicKey')"), []).
Proof. reflexivity. Qed.

(* ===================================================================== *)
(** ** The stream-health sampler *)
(* ===================================================================== *)

Lemma sample_loop_warns libs streams :
  forall acc st, exists r msgs,
    sample_loop libs streams acc st = (r, after st (List.map warn msgs)).
Proof.
  induction streams as [|s rest IH]; intros acc st.
  - exists (Ok acc), []. cbn. rewrite after_nil. reflexivity.
  - cbn [sample_loop].
    destruct (pending_writes libs s) as [n|e].
    + rewrite mbind_lift_ok. destruct (at_least_100 n).
      * destruct (stream_warning libs s n) as [msg|e].
        -- rewrite mbind_lift_ok, mbind_log.
           destruct (IH (acc + 1) (after st [warn msg])) as [r [msgs E]].
           exists r, (msg :: msgs). unfold warn, after in *. cbn [trace instrumentation] in *.
           rewrite E. cbn [List.map]. rewrite <- app_assoc. reflexivity.
        -- rewrite mbind_lift_throw. exists (Throw e), []. cbn. rewrite after_nil. reflexivity.
      * apply IH.
    + rewrite mbind_lift_throw. exists (Throw e), []. cbn. rewrite after_nil. reflexivity.
Qed.

Lemma sample_loop_counts libs streams :
  Forall (readable libs) streams ->
  forall acc st,
    sample_loop libs streams acc st
    = (Ok (acc + Z.of_nat (List.length (List.filter (is_big libs) streams))),
       after st (List.map warn (List.flat_map (warning_for libs) streams))).
Proof.
  induction 1 as [|s rest [n [En Hw]] _ IH]; intros acc st.
  - cbn. rewrite after_nil, Z.add_0_r. reflexivity.
  - cbn [sample_loop List.filter List.flat_map].
    assert (Hb : is_big libs s = at_least_100 n)
      by (unfold is_big; rewrite En; reflexivity).
    assert (Hf : warning_for libs s
                 = if at_least_100 n
                   then match stream_warning libs s n with
                        | Ok msg => [msg]
                        | Throw _ => []
                        end
                   else [])
      by (unfold warning_for; rewrite En; reflexivity).
    rewrite Hb, Hf, En, mbind_lift_ok. destruct (at_least_100 n).
    + destruct (Hw eq_refl) as [msg Em]. rewrite Em, mbind_lift_ok, mbind_log.
      fold (after st [Log Warn (Msg msg)]). rewrite IH, after_app.
      cbn [List.length List.map List.app]. unfold warn at 2.
      f_equal. f_equal. lia.
    + apply IH.
Qed.

Lemma at_least_100_int (n : Z) : at_least_100 (Some (inject_Z n)) = (100 <=? n).
Proof.
  unfold at_least_100, Qle_bool. cbn [Qnum Qden inject_Z]. rewrite !Z.mul_1_r. reflexivity.
Qed.

(** C6 (as amended): a tick never throws and only makes warn-level logger
    calls; when every stream can be read and the enumeration ends normally,
    it warns once for each stream whose pending writes are at least 100 (not
    only those above 100), in order, and then reports their number if there
    is at least one; an exception that ends the enumeration is reported by a
    last warning.  The interval is 30,000 ms. *)
Theorem stream_sampler (libs : Libs) (st : state) :
  SAMPLING_INTERVAL_MS = 30000
  /\ (forall rawStreams, exists msgs,
        log_streams_tick libs rawStreams st = (Ok tt, after st (List.map warn msgs)))
  /\ (forall streams, Forall (readable libs) streams ->
        log_streams_tick libs (mkEnumeration streams None) st
        = (Ok tt,
           after st (List.map warn (List.flat_map (warning_for libs) streams)
                     ++ rollup (Z.of_nat (List.length (List.filter (is_big libs) streams))))))
  /\ (forall streams e, Forall (readable libs) streams ->
        log_streams_tick libs (mkEnumeration streams (Some e)) st
        = (Ok tt,
           after st (List.map warn (List.flat_map (warning_for libs) streams)
                     ++ [warn ("logStreams errored unexpectedly: " ++ stack libs e)])))
  /\ (forall id a b,
        pending_writes libs (raw_stream id a b)
        = Ok (Some (inject_Z (Z.of_nat a) - inject_Z (Z.of_nat b))%Q)
        /\ is_big libs (raw_stream id a b) = (100 <=? Z.of_nat a - Z.of_nat b)).
Proof.
  split; [reflexivity|].
  split; [|split; [|split]].
  - intros [streams ending]. unfold log_streams_tick, try_catch, mbind.
    cbn [yielded failure].
    destruct (sample_loop_warns libs streams 0 st) as [r [msgs E]]. rewrite E.
    destruct r as [count|e].
    + destruct ending as [e|].
      * exists (msgs ++ [("logStreams errored unexpectedly: " ++ stack libs e)%string])%list.
        cbn. unfold after. cbn. rewrite map_app, app_assoc. reflexivity.
      * destruct (0 <? count).
        -- exists (msgs ++ [("Total streams with many pending writes: " ++ decimal count)%string])%list.
           cbn. unfold after. cbn. rewrite map_app, app_assoc. reflexivity.
        -- exists msgs. reflexivity.
    + exists (msgs ++ [("logStreams errored unexpectedly: " ++ stack libs e)%string])%list.
      cbn. unfold after. cbn. rewrite map_app, app_assoc. reflexivity.
  - intros streams H. unfold log_streams_tick, try_catch, mbind. cbn [yielded failure].
    rewrite (sample_loop_counts libs streams H). rewrite Z.add_0_l. unfold rollup.
    destruct (0 <? _).
    + cbn. unfold after. cbn. rewrite app_assoc. reflexivity.
    + cbn. rewrite app_nil_r. reflexivity.
  - intros streams e H. unfold log_streams_tick, try_catch, mbind. cbn [yielded failure].
    rewrite (sample_loop_counts libs streams H).
    cbn. unfold after. cbn. rewrite app_assoc. reflexivity.
  - intros id a b.
    assert (E : pending_writes libs (raw_stream id a b)
                = Ok (Some (inject_Z (Z.of_nat a) - inject_Z (Z.of_nat b))%Q)).
    { unfold pending_writes, raw_stream.
      cbn [get lookup String.eqb Ascii.eqb Bool.eqb JS.bind].
      unfold of_len. rewrite !repeat_length. reflexivity. }
    split; [exact E|].
    unfold is_big. rewrite E. unfold at_least_100, Qle_bool.
    cbn [Qnum Qden inject_Z Qminus Qplus Qopp]. f_equal. lia.
Qed.

(** C6: exactly 100 pending writes count, 99 do not. *)
Lemma stream_sampler_witness :
  is_big demo_libs (raw_stream 7 100 0) = true
  /\ is_big demo_libs (raw_stream 7 99 0) = false.
Proof.
  split.
  - exact (proj2 (proj2 (proj2 (proj2 (proj2 (stream_sampler demo_libs initial)))) 7 100%nat 0%nat)).
  - exact (proj2 (proj2 (proj2 (proj2 (proj2 (stream_sampler demo_libs initial)))) 7 99%nat 0%nat)).
Defined.

(** C6 (as stated) fails: a stream with exactly 100 pending writes does not
    exceed 100 and is warned about; and when no stream is counted, no rollup
    is logged. *)
Lemma sampler_threshold_is_inclusive :
  run (log_streams_tick demo_libs (mkEnumeration [raw_stream 7 100 0] None))
  = (Ok tt,
     [Log Warn (Msg ("Stream 7 (remote id: 8) has 100 pending writes:" ++ nl
                     ++ "Stream JSON: {}" ++ nl
                     ++ "Socket json: none" ++ nl
                     ++ "hex streamhandle: 0102" ++ nl
                     ++ "hex socket handle: none"));
      Log Warn (Msg "Total streams with many pending writes: 1")])
  /\ run (log_streams_tick demo_libs (mkEnumeration [raw_stream 7 99 0] None)) = (Ok tt, []).
Proof. split; reflexivity. Qed.

(* ===================================================================== *)
(** ** Shutdown *)
(* ===================================================================== *)

Lemma goodbye_callback_events (w : World) (st : state) :
  snd (goodbye_callback w st) = after st (shutdown_events w (instrumentation st)).
Proof.
  unfold goodbye_callback, shutdown_events, engine_shutdown, awaiting, await, logged,
    read_instrumentation, when, after, mbind, log, emit, throw, lift, ret.
  destruct st as [t i]; cbn [trace instrumentation].
  destruct i as [i|];
    destruct (settles w InstrumentationClose) as [[]|e1];
    destruct (settles w BlindPeerClose) as [[]|e2];
    cbn [fst snd trace instrumentation settled_ok];
    f_equal; repeat (rewrite <- app_assoc; cbn [List.app]); reflexivity.
Qed.

Lemma precedes_absent a b t : ~ In b t -> precedes a b t.
Proof.
  intros H pre post E. exfalso. apply H. rewrite E. apply in_elt.
Qed.

Lemma precedes_here a b t : a <> b -> precedes a b (a :: t).
Proof.
  intros H [|x pre] post E; cbn in E; injection E as E1 E2.
  - congruence.
  - left. congruence.
Qed.

Lemma precedes_cons a b x t : x <> b -> precedes a b t -> precedes a b (x :: t).
Proof.
  intros H Ht [|y pre] post E; cbn in E; injection E as E1 E2.
  - congruence.
  - right. apply (Ht pre post E2).
Qed.

Lemma precedes_app a b l t : ~ In b l -> precedes a b t -> precedes a b (l ++ t).
Proof.
  induction l as [|x l IH]; intros H Ht; [exact Ht|].
  cbn. apply precedes_cons.
  - intros ->. apply H. left. reflexivity.
  - apply IH; [|exact Ht]. intros Hin. apply H. right. exact Hin.
Qed.

Lemma not_in_logged e calls :
  (forall l a, e <> Log l a) ->
  ~ In e (List.map (fun c : level * logarg => Log (fst c) (snd c)) calls).
Proof.
  intros H Hin. apply in_map_iff in Hin. destruct Hin as [c [E _]].
  apply (H (fst c) (snd c)). symmetry. exact E.
Qed.

(** C1: whenever the graceful-exit hook runs, in whatever state and whatever
    other callbacks log meanwhile: if [instrumentation] holds a handle, its
    [close()] is called, and the engine's [close()] is called only after
    that call has settled successfully (and is called when it has); if it
    holds none, the engine's [close()] is called and no [close()] of an
    instrumentation is. *)
Theorem shutdown_order (w : World) (st : state) :
  exists evs,
    snd (goodbye_callback w st) = after st evs
    /\ (forall i, instrumentation st = Some i ->
          In (Called InstrumentationClose) evs
          /\ precedes (Called InstrumentationClose) (Settled InstrumentationClose true) evs
          /\ precedes (Settled InstrumentationClose true) (Called BlindPeerClose) evs
          /\ (settles w InstrumentationClose = Ok tt -> In (Called BlindPeerClose) evs))
    /\ (instrumentation st = None ->
          In (Called BlindPeerClose) evs
          /\ Forall (fun e => ~ closes_instrumentation e) evs).
Proof.
  exists (shutdown_events w (instrumentation st)).
  split; [apply goodbye_callback_events|].
  split.
  - intros i ->. unfold shutdown_events, engine_shutdown, awaiting. cbn [List.app].
    repeat match goal with |- _ /\ _ => split end.
    + right. left. reflexivity.
    + apply precedes_cons; [discriminate|]. apply precedes_here. discriminate.
    + apply precedes_cons; [discriminate|]. apply precedes_cons; [discriminate|].
      rewrite <- app_assoc.
      apply precedes_app; [apply not_in_logged; discriminate|].
      destruct (settles w InstrumentationClose) as [[]|e]; cbn [settled_ok List.app].
      * apply precedes_here. discriminate.
      * apply precedes_absent. intros [H|[]]. discriminate H.
    + intros ->. cbn [settled_ok]. right. right. apply in_or_app. right.
      right. left. reflexivity.
  - intros ->. unfold shutdown_events, engine_shutdown, awaiting. cbn [List.app]. split.
    + right. left. reflexivity.
    + constructor; [intros []|]. constructor; [intros []|].
      rewrite <- app_assoc. apply Forall_app. split.
      * apply Forall_forall. intros e He. apply in_map_iff in He.
        destruct He as [c [<- _]]. intros [].
      * destruct (settles w BlindPeerClose); repeat constructor; intros [].
Qed.

Example shutdown_with_instrumentation :
  trace (snd (goodbye_callback demo_world
                (mkState [] (Some (mkInstrumentation zero_key (VStr "node7") zero_key)))))
  = [Log Info (Msg "Closing instrumentation");
     Called InstrumentationClose; Settled InstrumentationClose true;
     Log Info (Msg "Shutting down blind peer");
     Called BlindPeerClose; Settled BlindPeerClose true;
     Log Info (Msg "Shut down blind peer")].
Proof. reflexivity. Qed.

(* ===================================================================== *)
(** ** The auto-shutdown timer *)
(* ===================================================================== *)

Lemma registered_runs_callback (w : World) (st : state) :
  In GoodbyeRegistered (trace st) -> run_goodbye w st = goodbye_callback w st.
Proof.
  intros H. unfold run_goodbye.
  assert (E : existsb (fun e => match e with GoodbyeRegistered => true | _ => false end)
                      (trace st) = true)
    by (apply existsb_exists; exists GoodbyeRegistered; auto).
  rewrite E. reflexivity.
Qed.

Lemma register_listeners_events (debug : bool) (st : state) :
  register_listeners debug st = (Ok tt, after st (listeners debug)).
Proof.
  destruct st as [t i], debug;
    cbv [register_listeners mbind emit when ret after trace instrumentation];
    rewrite <- !app_assoc; reflexivity.
Qed.

Lemma mbind_register_listeners {B} (debug : bool) (k : unit -> M B) (st : state) :
  mbind (register_listeners debug) k st = k tt (after st (listeners debug)).
Proof. unfold mbind at 1. rewrite register_listeners_events. reflexivity. Qed.

Lemma wiring_listeners (debug : bool) : Forall wiring (listeners debug).
Proof. destruct debug; repeat constructor. Qed.

(** The prelude throws, or it constructs the engine with the resolved
    configuration and ends by registering the graceful-exit hook. *)
Lemma prelude_cases (flags : Flags) (w : World) (st : state) :
  (exists e st', prelude flags w st = (Throw e, st'))
  \/ (exists keys evs,
        trustedPubKeys (f_trustedPeer flags) = Ok keys
        /\ construction w = Ok tt
        /\ prelude flags w st
           = (Ok tt,
              after st (Log Info (Msg "Starting blind peer")
                        :: NewBlindPeer (storage flags) keys (maxBytes flags) (port flags)
                        :: evs))
        /\ In GoodbyeRegistered evs
        /\ Forall wiring evs).
Proof.
  unfold prelude. step.
  destruct (trustedPubKeys (f_trustedPeer flags)) as [keys|e]; step; [|left; eauto].
  destruct (construction w) as [[]|e]; step; [|left; eauto].
  rewrite mbind_register_listeners. step.
  destruct (0 <? List.length keys)%nat; step;
    [ destruct (normalize_all (engine_trustedPubKeys w)) as [texts|e]; step;
      [|left; eauto]
    | ];
    right; exists keys; eexists;
    (split; [reflexivity|]); (split; [reflexivity|]); (split; [reflexivity|]);
    (split;
     [ repeat first [left; reflexivity | apply in_or_app; right | right]
     | repeat first [apply wiring_listeners | apply Forall_app; split
                    | constructor | exact I] ]).
Qed.

(** When the prelude returns, the hook is registered. *)
Lemma prelude_registers_hook (flags : Flags) (w : World) (st : state) :
  fst (prelude flags w st) = Ok tt ->
  In GoodbyeRegistered (trace (snd (prelude flags w st))).
Proof.
  destruct (prelude_cases flags w st) as [[e [st' ->]] | [keys [evs [_ [_ [-> [H _]]]]]]].
  - discriminate.
  - intros _. cbn [snd]. rewrite trace_after. apply in_or_app. right. right. right. exact H.
Qed.

Lemma emits_grows {A} P (m : M A) st e :
  emits P m -> In e (trace st) -> In e (trace (snd (m st))).
Proof.
  intros H Hin. destruct (H st) as [evs [-> _]]. apply in_or_app. left. exact Hin.
Qed.

Lemma emits_anything_setup_repl flags : emits (fun _ => True) (setup_repl flags).
Proof. unfold setup_repl. effects. Qed.

Lemma emits_anything_bring_up libs flags w : emits (fun _ => True) (bring_up libs flags w).
Proof. unfold bring_up. effects. Qed.

Lemma emits_anything_after_listening libs flags w :
  emits (fun _ => True) (after_listening libs flags w).
Proof.
  unfold after_listening, autodiscovery_guard, setup_instrumentation, setup_auto_shutdown.
  effects.
Qed.

(** When the command returns, the hook is registered. *)
Lemma main_registers_hook libs flags w :
  fst (main libs flags w initial) = Ok tt ->
  In GoodbyeRegistered (trace (snd (main libs flags w initial))).
Proof.
  unfold main, startup. rewrite !mbind_assoc. rewrite (mbind_unfold (prelude flags w)).
  pose proof (prelude_registers_hook flags w initial) as Hp.
  destruct (prelude flags w initial) as [[[]|e] st1]; cbn [fst snd] in *; [|discriminate].
  intros _. specialize (Hp eq_refl).
  match goal with
  | |- In _ (trace (snd (?m ?st))) => apply (emits_grows (fun _ => True) m st); [|exact Hp]
  end.
  apply emits_bind; [|intros _; apply emits_anything_after_listening].
  apply emits_bind; [apply emits_anything_setup_repl | intros _].
  apply emits_anything_bring_up.
Qed.




(* ===================================================================== *)
(** ** Startup: what has happened when the engine listens *)
(* ===================================================================== *)

Lemma await_run (w : World) (op : operation) (st : state) :
  await op (meanwhile w op) (settles w op) st
  = (settles w op, after st (awaiting w op)).
Proof.
  unfold await, awaiting, logged. rewrite mbind_emit.
  destruct (settles w op) as [[]|e]; cbn [settled_ok];
    unfold mbind, emit, throw, lift, after; cbn [trace instrumentation fst snd];
    f_equal; f_equal; rewrite <- !app_assoc; reflexivity.
Qed.

Lemma mbind_await {B} (w : World) (op : operation) (k : unit -> M B) (st : state) :
  mbind (await op (meanwhile w op) (settles w op)) k st
  = match settles w op with
    | Ok _ => k tt (after st (awaiting w op))
    | Throw e => (Throw e, after st (awaiting w op))
    end.
Proof.
  unfold mbind at 1. rewrite await_run. destruct (settles w op) as [[]|e]; reflexivity.
Qed.

Lemma setup_repl_run (flags : Flags) (st : state) :
  setup_repl flags st
  = if truthy (f_repl flags) then
      match IdEnc.decode (f_repl flags) with
      | Ok seed => (Ok tt, after st (repl_events seed (instrumentation st)))
      | Throw e => (Throw e, st)
      end
    else (Ok tt, st).
Proof.
  unfold setup_repl, repl_events. destruct (truthy (f_repl flags)); [|reflexivity].
  cbn [when]. destruct (IdEnc.decode (f_repl flags)) as [seed|e]; step; [|reflexivity].
  unfold mbind, read_instrumentation.
  rewrite emit_after, after_app. reflexivity.
Qed.

Lemma bring_up_run (libs : Libs) (flags : Flags) (w : World) (st : state) :
  bring_up libs flags w st
  = match settles w BlindPeerReady with
    | Throw e => (Throw e, after st (awaiting w BlindPeerReady))
    | Ok _ =>
        match settles w BlindPeerListen with
        | Throw e =>
            (Throw e, after st (awaiting w BlindPeerReady ++ swarm_wiring flags
                                ++ awaiting w BlindPeerListen))
        | Ok _ =>
            (Ok tt, after st (awaiting w BlindPeerReady ++ swarm_wiring flags
                              ++ awaiting w BlindPeerListen ++ listening_logs libs w))
        end
    end.
Proof.
  unfold bring_up, swarm_wiring, listening_logs. rewrite mbind_await.
  destruct (settles w BlindPeerReady) as [[]|e]; [|reflexivity].
  step.
  destruct (truthy (f_debug flags)), (truthy (f_logStreams flags)); step;
    rewrite mbind_await;
    (destruct (settles w BlindPeerListen) as [[]|e]; step;
     rewrite ?after_app; cbn [List.app]; rewrite <- ?app_assoc; reflexivity).
Qed.

(** Startup throws, or it ends with the engine listening; then the trace is
    the prelude's, the console's (handed [null] for [instrumentation]) and
    the bring-up's, and [instrumentation] is still [null]. *)
Lemma startup_cases (libs : Libs) (flags : Flags) (w : World) :
  (exists e st', startup libs flags w initial = (Throw e, st'))
  \/ (exists keys evs,
        trustedPubKeys (f_trustedPeer flags) = Ok keys
        /\ In GoodbyeRegistered evs
        /\ Forall wiring evs
        /\ (truthy (f_repl flags) = true -> exists seed, IdEnc.decode (f_repl flags) = Ok seed)
        /\ settles w BlindPeerReady = Ok tt
        /\ settles w BlindPeerListen = Ok tt
        /\ startup libs flags w initial
           = (Ok tt,
              mkState
                (Log Info (Msg "Starting blind peer")
                 :: NewBlindPeer (storage flags) keys (maxBytes flags) (port flags)
                 :: evs
                 ++ console flags None
                 ++ awaiting w BlindPeerReady ++ swarm_wiring flags
                 ++ awaiting w BlindPeerListen ++ listening_logs libs w)
                None)).
Proof.
  unfold startup. rewrite (mbind_unfold (prelude flags w)).
  destruct (prelude_cases flags w initial)
    as [[e [st' ->]] | [keys [evs [Hk [_ [-> [Hin Hall]]]]]]]; [left; eauto|].
  rewrite (mbind_unfold (setup_repl flags)), setup_repl_run.
  unfold console.
  destruct (truthy (f_repl flags)); cbv beta iota.
  - destruct (IdEnc.decode (f_repl flags)) as [seed|e]; cbv beta iota; [|left; eauto].
    rewrite bring_up_run.
    destruct (settles w BlindPeerReady) as [[]|e]; [|left; eauto].
    destruct (settles w BlindPeerListen) as [[]|e]; [|left; eauto].
    right. exists keys, evs.
    repeat match goal with |- _ /\ _ => split end; auto;
      first [ intros _; eauto; fail
            | rewrite after_app; unfold after, initial;
              cbn [trace instrumentation List.app]; rewrite <- ?app_assoc; reflexivity ].
  - rewrite bring_up_run.
    destruct (settles w BlindPeerReady) as [[]|e]; [|left; eauto].
    destruct (settles w BlindPeerListen) as [[]|e]; [|left; eauto].
    right. exists keys, evs.
    repeat match goal with |- _ /\ _ => split end; auto;
      first [ discriminate
            | unfold after, initial;
              cbn [trace instrumentation List.app]; rewrite <- ?app_assoc; reflexivity ].
Qed.

Lemma awaiting_settled (w : World) (op : operation) :
  settles w op = Ok tt ->
  awaiting w op
  = (Called op :: List.map (fun c => Log (fst c) (snd c)) (meanwhile w op)
     ++ [Settled op true])%list.
Proof. intros H. unfold awaiting. rewrite H. reflexivity. Qed.

(** Proves that every event of an explicit trace satisfies a predicate that
    holds by computation. *)
Ltac all_events :=
  repeat first
    [ assumption
    | apply Forall_nil
    | apply Forall_cons; [try exact I|]
    | apply Forall_app; split
    | apply Forall_forall;
      let e := fresh "e" in
      let He := fresh "He" in
      intros e He; apply in_map_iff in He; destruct He as [? [<- _]]; exact I
    | match goal with
      | |- Forall _ (if ?c then _ else _) => destruct c
      | |- Forall _ (match ?x with _ => _ end) => destruct x
      end ].

(** When startup returns, the engine listens, no instrumentation exists,
    and the console, if any, was started before [ready()] was called. *)
Lemma startup_ok (libs : Libs) (flags : Flags) (w : World) (st' : state) :
  startup libs flags w initial = (Ok tt, st') ->
  engine_listening (trace st')
  /\ instrumentation st' = None
  /\ Forall no_instrumentation (trace st')
  /\ In GoodbyeRegistered (trace st').
Proof.
  intros H.
  destruct (startup_cases libs flags w)
    as [[e [st1 E]] | [keys [evs [Hk [Hin [Hall [Hseed [Hr [Hl E]]]]]]]]];
    rewrite E in H; [discriminate|].
  injection H as <-. cbv beta iota delta [trace instrumentation].
  repeat match goal with |- _ /\ _ => split end.
  - rewrite Hr, Hl. cbn [settled_ok].
    exists (storage flags), keys, (maxBytes flags), (port flags),
      [Log Info (Msg "Starting blind peer")],
      (evs ++ console flags None
           ++ Called BlindPeerReady
           :: List.map (fun c => Log (fst c) (snd c)) (meanwhile w BlindPeerReady))%list,
      (swarm_wiring flags
         ++ Called BlindPeerListen
         :: List.map (fun c => Log (fst c) (snd c)) (meanwhile w BlindPeerListen))%list,
      (listening_logs libs w).
    unfold swarm_wiring.
    cbn [List.app]; repeat (rewrite <- app_assoc; cbn [List.app]); reflexivity.
  - reflexivity.
  - assert (Hall' : Forall no_instrumentation evs)
      by (eapply Forall_impl; [|exact Hall]; intros [] Hw; try exact I; destruct Hw).
    unfold console, repl_events, listening_logs. all_events.
  - right. right. apply in_or_app. left. exact Hin.
Qed.

Lemma quiet_run {A} (P : event -> Prop) (m : M A) (st : state) :
  emits P m -> keeps m ->
  Forall P (trace st) -> instrumentation st = None ->
  Forall P (trace (snd (m st))) /\ instrumentation (snd (m st)) = None.
Proof.
  intros He Hk Ht Hi. destruct (He st) as [evs [-> F]]. split.
  - apply Forall_app. auto.
  - rewrite Hk. exact Hi.
Qed.

Lemma prelude_quiet (flags : Flags) (w : World) :
  emits no_instrumentation (prelude flags w) /\ keeps (prelude flags w).
Proof. split; unfold prelude, register_listeners; effects. Qed.

Lemma bring_up_quiet (libs : Libs) (flags : Flags) (w : World) :
  emits no_instrumentation (bring_up libs flags w) /\ keeps (bring_up libs flags w).
Proof. split; unfold bring_up; effects. Qed.

(** Startup, however it ends, leaves [instrumentation] at [null] and emits
    no event with an instrumentation handle. *)
Lemma startup_keeps_null (libs : Libs) (flags : Flags) (w : World) :
  Forall no_instrumentation (trace (snd (startup libs flags w initial)))
  /\ instrumentation (snd (startup libs flags w initial)) = None.
Proof.
  unfold startup. rewrite (mbind_unfold (prelude flags w)).
  destruct (prelude_quiet flags w) as [Hpe Hpk].
  destruct (quiet_run no_instrumentation (prelude flags w) initial Hpe Hpk)
    as [F1 I1]; [constructor | reflexivity |].
  destruct (prelude flags w initial) as [[[]|e] st1]; cbn [snd] in *; [|auto].
  rewrite (mbind_unfold (setup_repl flags)), setup_repl_run.
  destruct (bring_up_quiet libs flags w) as [Hbe Hbk].
  destruct (truthy (f_repl flags)); cbv beta iota.
  - destruct (IdEnc.decode (f_repl flags)) as [seed|e]; cbv beta iota; [|auto].
    apply (quiet_run no_instrumentation); auto.
    rewrite trace_after, I1. apply Forall_app. split; [exact F1|].
    repeat constructor.
  - apply (quiet_run no_instrumentation); auto.
Qed.

(* ===================================================================== *)
(** ** After [listen()]: the autodiscovery guard and the instrumentation *)
(* ===================================================================== *)

Lemma guard_throws (flags : Flags) (st : state) :
  truthy (f_autodiscoveryRpcKey flags) = true ->
  autodiscovery_guard flags st
  = (Throw (Error "autobase discovery temp not supported"), st).
Proof. intros H. unfold autodiscovery_guard. rewrite H. reflexivity. Qed.

Lemma guard_passes (flags : Flags) (st : state) :
  truthy (f_autodiscoveryRpcKey flags) = false ->
  autodiscovery_guard flags st = (Ok tt, st).
Proof. intros H. unfold autodiscovery_guard. rewrite H. reflexivity. Qed.

Lemma main_after_startup (libs : Libs) (flags : Flags) (w : World) :
  main libs flags w initial
  = match startup libs flags w initial with
    | (Ok _, st') => after_listening libs flags w st'
    | (Throw e, st') => (Throw e, st')
    end.
Proof. reflexivity. Qed.

(** C4 (as amended): with a truthy autodiscovery flag the command always
    ends in an exception; the guard is the first thing that runs once the
    engine listens, and it throws [Error('autobase discovery temp not
    supported')] without doing anything else; so when startup succeeds the
    command fails with that error after the engine has been constructed,
    [ready()] and [listen()] have resolved, and before any instrumentation
    is set up. *)
Theorem autodiscovery_rejected_after_listening (libs : Libs) (flags : Flags) (w : World) :
  truthy (f_autodiscoveryRpcKey flags) = true ->
  (exists e, fst (run (main libs flags w)) = Throw e)
  /\ (forall st,
        after_listening libs flags w st
        = (Throw (Error "autobase discovery temp not supported"), st))
  /\ (forall st',
        startup libs flags w initial = (Ok tt, st') ->
        run (main libs flags w)
        = (Throw (Error "autobase discovery temp not supported"), trace st')
        /\ engine_listening (trace st')
        /\ Forall no_instrumentation (trace st')).
Proof.
  intros H.
  assert (Ha : forall st,
             after_listening libs flags w st
             = (Throw (Error "autobase discovery temp not supported"), st)).
  { intros st. unfold after_listening. rewrite mbind_unfold, (guard_throws flags st H).
    reflexivity. }
  split; [|split].
  - unfold run. rewrite main_after_startup.
    destruct (startup libs flags w initial) as [[[]|e] st'].
    + rewrite Ha. cbn [fst]. eauto.
    + cbn [fst]. eauto.
  - exact Ha.
  - intros st' Hs. unfold run. rewrite main_after_startup, Hs, Ha.
    destruct (startup_ok libs flags w st' Hs) as [Hl [_ [Hn _]]]. auto.
Qed.

(** C4: [--autodiscovery-rpc-key abc] in a world where everything succeeds. *)
Lemma autodiscovery_rejected_witness :
  (exists e, fst (run (main demo_libs (with_autodiscovery (VStr "abc")) demo_world)) = Throw e)
  /\ after_listening demo_libs (with_autodiscovery (VStr "abc")) demo_world initial
     = (Throw (Error "autobase discovery temp not supported"), initial).
Proof.
  split.
  - exact (proj1 (autodiscovery_rejected_after_listening demo_libs
                    (with_autodiscovery (VStr "abc")) demo_world eq_refl)).
  - exact (proj1 (proj2 (autodiscovery_rejected_after_listening demo_libs
                           (with_autodiscovery (VStr "abc")) demo_world eq_refl)) initial).
Defined.

(** C4 (as stated) fails: when the error is thrown the engine has been
    constructed, and [ready()] and [listen()] have resolved. *)
Lemma autodiscovery_rejected_late :
  fst (run (main demo_libs (with_autodiscovery (VStr "abc")) demo_world))
  = Throw (Error "autobase discovery temp not supported")
  /\ nth_error (snd (run (main demo_libs (with_autodiscovery (VStr "abc")) demo_world))) 1
     = Some (NewBlindPeer (VStr "blind-peer") [] (Int 100000000000) VNull)
  /\ nth_error (snd (run (main demo_libs (with_autodiscovery (VStr "abc")) demo_world))) 24
     = Some (Settled BlindPeerReady true)
  /\ nth_error (snd (run (main demo_libs (with_autodiscovery (VStr "abc")) demo_world))) 27
     = Some (Settled BlindPeerListen true).
Proof. vm_compute. repeat split. Qed.




Example scraper_secret_missing_run :
  run (main demo_libs
         (with_scraper (VStr (B4a.hex zero_key)) VUndefined VUndefined VUndefined VUndefined)
         demo_world)
  = (Throw (Error "Invalid Hypercore key"),
     ([Log Info (Msg "Starting blind peer");
       NewBlindPeer (VStr "blind-peer") [] (Int 100000000000) VNull]
      ++ listeners false
      ++ [Log Info (Msg "Using storage 'blind-peer'"); GoodbyeRegistered;
          Called BlindPeerReady; Settled BlindPeerReady true;
          On "swarm" "ban";
          Called BlindPeerListen; Settled BlindPeerListen true;
          Log Info (Msg "Blind peer listening, local address is 10.0.0.214:49741");
          Log Info (Msg "Bytes allocated: 0B of 100000000000B");
          Log Info (Msg "Setting up instrumentation")])%list).
Proof. reflexivity. Qed.

(* ===================================================================== *)
(** ** The remote debug console *)
(* ===================================================================== *)

Lemma after_listening_not_console (libs : Libs) (flags : Flags) (w : World) :
  emits not_console (after_listening libs flags w).
Proof.
  unfold after_listening, autodiscovery_guard, setup_instrumentation, setup_auto_shutdown.
  effects.
Qed.

Lemma bring_up_starts_with_ready (libs : Libs) (flags : Flags) (w : World) (st : state) :
  exists rest,
    trace (snd (bring_up libs flags w st)) = (trace st ++ Called BlindPeerReady :: rest)%list.
Proof.
  rewrite bring_up_run. unfold awaiting at 1 2 4.
  destruct (settles w BlindPeerReady) as [[]|e];
    [destruct (settles w BlindPeerListen) as [[]|e]|];
    cbn [snd]; rewrite trace_after; cbn [List.app]; eexists; reflexivity.
Qed.

(** C10: in every run, whatever the flags and the world, a console that is
    started is handed [null] for [instrumentation].  With a REPL seed that
    decodes, once the prelude has returned the console is started next: the
    trace is the prelude's (logger calls, the engine's construction,
    registrations), then the console's two events with [null], then the call
    of [ready()] and the rest, where any instrumentation is constructed. *)
Theorem console_gets_null_instrumentation (libs : Libs) (flags : Flags) (w : World) :
  Forall null_console (snd (run (main libs flags w)))
  /\ (forall seed st1,
        truthy (f_repl flags) = true ->
        IdEnc.decode (f_repl flags) = Ok seed ->
        prelude flags w initial = (Ok tt, st1) ->
        Forall before_ready (trace st1)
        /\ exists rest,
             snd (run (main libs flags w))
             = (trace st1 ++ repl_events seed None ++ Called BlindPeerReady :: rest)%list).
Proof.
  split.
  - unfold run. rewrite main_after_startup.
    pose proof (startup_keeps_null libs flags w) as [Hn _].
    assert (Hweak : forall e, no_instrumentation e -> null_console e)
      by (intros [l a|s k n p|em nm| |seed [i|]|op|op ok|ms|i| | |ms| ] H;
          try exact I; destruct H).
    assert (Hweak' : forall e, not_console e -> null_console e)
      by (intros [] H; try exact I; destruct H).
    destruct (startup libs flags w initial) as [[[]|e] st'];
      cbn [snd] in Hn.
    + destruct (after_listening_not_console libs flags w st') as [evs [E F]].
      destruct (after_listening libs flags w st') as [r st'']. cbn [snd] in *.
      rewrite E. apply Forall_app. split.
      * apply (Forall_impl _ Hweak), Hn.
      * apply (Forall_impl _ Hweak'), F.
    + cbn [snd]. apply (Forall_impl _ Hweak), Hn.
  - intros seed st1 Ht Hseed Hp.
    assert (Hi : instrumentation st1 = None).
    { pose proof (proj2 (prelude_quiet flags w) initial) as Hk.
      rewrite Hp in Hk. exact Hk. }
    split.
    + destruct (prelude_cases flags w initial)
        as [[e [st' E]] | [keys [evs [_ [_ [E [_ Hall]]]]]]];
        rewrite E in Hp; [discriminate|].
      injection Hp as <-. rewrite trace_after.
      constructor; [exact I|]. constructor; [exact I|].
      eapply Forall_impl; [|exact Hall]. intros [] Hw; try exact I; destruct Hw.
    + unfold run, main, startup.
      rewrite !mbind_assoc. rewrite (mbind_unfold (prelude flags w)), Hp. cbv beta iota.
      rewrite !mbind_assoc.
      rewrite (mbind_unfold (setup_repl flags)), setup_repl_run, Ht, Hseed, Hi.
      cbv beta iota.
      rewrite (mbind_unfold (bring_up libs flags w)).
      destruct (bring_up_starts_with_ready libs flags w
                  (after st1 (repl_events seed None))) as [rest E].
      destruct (bring_up libs flags w (after st1 (repl_events seed None)))
        as [[[]|e] st2]; cbn [snd] in E.
      * destruct (after_listening_not_console libs flags w st2) as [evs [E2 _]].
        destruct (after_listening libs flags w st2) as [r st3]. cbn [snd] in *.
        rewrite E2, E, trace_after. exists (rest ++ evs)%list.
        rewrite <- !app_assoc. reflexivity.
      * cbn [snd]. rewrite E, trace_after. exists rest.
        rewrite <- !app_assoc. reflexivity.
Qed.

(** C10: with a REPL seed and scraper credentials, the console is handed
    [null] although an instrumentation handle is constructed later and is
    what [instrumentation] holds when the command returns. *)
Lemma console_gets_null_instrumentation_witness :
  Forall null_console (snd (run (main demo_libs console_flags demo_world)))
  /\ nth_error (snd (run (main demo_libs console_flags demo_world))) 24
     = Some (ReplSwarm key_0_31 None)
  /\ nth_error (snd (run (main demo_libs console_flags demo_world))) 25
     = Some (Called BlindPeerReady)
  /\ instrumentation (snd (main demo_libs console_flags demo_world initial))
     = Some (mkInstrumentation zero_key
               (VStr "blind-peer-yyyoryarywdyqnyjbefoadeqbhebnrounoktcfaadrpbs8y7daxo")
               key_0_31).
Proof.
  split; [exact (proj1 (console_gets_null_instrumentation demo_libs console_flags demo_world))|].
  vm_compute. repeat split.
Defined.

(* ===================================================================== *)
(** ** Further properties of the command *)
(* ===================================================================== *)

(** C1: a state in which an instrumentation handle exists, in a world where
    both [close()] calls resolve. *)
Lemma shutdown_order_witness :
  exists evs,
    snd (goodbye_callback demo_world
           (mkState [] (Some (mkInstrumentation zero_key (VStr "node7") zero_key))))
    = after (mkState [] (Some (mkInstrumentation zero_key (VStr "node7") zero_key))) evs
    /\ precedes (Settled InstrumentationClose true) (Called BlindPeerClose) evs
    /\ In (Called BlindPeerClose) evs.
Proof.
  destruct (shutdown_order demo_world
              (mkState [] (Some (mkInstrumentation zero_key (VStr "node7") zero_key))))
    as [evs [E [H _]]].
  destruct (H _ eq_refl) as [_ [_ [H3 H4]]].
  exists evs. split; [exact E|]. split; [exact H3|]. apply H4. reflexivity.
Defined.

Lemma precedes_after_prefix (a b : event) (l1 l2 : list event) :
  ~ In b l1 -> In a l1 -> precedes a b (l1 ++ l2).
Proof.
  intros Hb Ha pre post E.
  assert (H : exists pre', pre = (l1 ++ pre')%list).
  { clear Ha. revert pre E. induction l1 as [|x l1 IH]; intros pre E.
    - exists pre. reflexivity.
    - destruct pre as [|y pre]; cbn in E; injection E as E1 E2.
      + exfalso. apply Hb. left. exact E1.
      + subst y. destruct (IH (fun H => Hb (or_intror H)) pre E2) as [pre' ->].
        exists pre'. reflexivity. }
  destruct H as [pre' ->]. apply in_or_app. left. exact Ha.
Qed.

Lemma prelude_before_ready (flags : Flags) (w : World) :
  emits before_ready (prelude flags w).
Proof. unfold prelude, register_listeners. effects. Qed.

Lemma before_ready_no_call (t : list event) :
  Forall before_ready t -> ~ In (Called BlindPeerReady) t.
Proof.
  intros H Hin. rewrite Forall_forall in H. exact (H _ Hin).
Qed.

(** In every run, the graceful-exit hook is registered before [ready()] is
    called: whenever the trace holds the call, the registration precedes
    it. *)
Theorem hook_registered_before_ready (libs : Libs) (flags : Flags) (w : World) :
  precedes GoodbyeRegistered (Called BlindPeerReady) (snd (run (main libs flags w))).
Proof.
  unfold run, main, startup. rewrite !mbind_assoc.
  rewrite (mbind_unfold (prelude flags w)).
  destruct (prelude_before_ready flags w initial) as [evs [E F]].
  pose proof (prelude_registers_hook flags w initial) as Hreg.
  destruct (prelude flags w initial) as [[[]|e] st1]; cbn [fst snd] in *.
  - match goal with
    | |- precedes _ _ (snd (let '(r, st) := ?m ?s in _)) =>
        assert (Hm : emits (fun _ => True) m);
        [| destruct (Hm s) as [evs' [E' _]]; destruct (m s) as [r st2] ]
    end.
    + apply emits_bind; [|intros _; apply emits_anything_after_listening].
      apply emits_bind; [apply emits_anything_setup_repl | intros _].
      apply emits_anything_bring_up.
    + cbn [snd] in *. rewrite E'. apply precedes_after_prefix.
      * apply before_ready_no_call. rewrite E. exact F.
      * apply Hreg. reflexivity.
  - apply precedes_absent. apply before_ready_no_call. rewrite E. exact F.
Qed.

(** The run without flags: the hook is registered (event 22) before
    [ready()] is called (event 23). *)
Lemma hook_registered_before_ready_witness :
  In GoodbyeRegistered (firstn 23 (snd (run (main demo_libs no_flags demo_world)))).
Proof.
  apply (hook_registered_before_ready demo_libs no_flags demo_world
           (firstn 23 (snd (run (main demo_libs no_flags demo_world))))
           (skipn 24 (snd (run (main demo_libs no_flags demo_world))))).
  vm_compute. reflexivity.
Defined.

(** However startup (everything up to and including [listen()]) ends, no
    instrumentation handle has been constructed, none was handed to the
    console, and [instrumentation] is still [null]. *)
Theorem startup_without_instrumentation (libs : Libs) (flags : Flags) (w : World) :
  Forall no_instrumentation (trace (snd (startup libs flags w initial)))
  /\ instrumentation (snd (startup libs flags w initial)) = None.
Proof. exact (startup_keeps_null libs flags w). Qed.

(* ===================================================================== *)
(** ** The blocks of the command, as runs *)
(* ===================================================================== *)

(** The prelude, case by case: what it has done when it throws, and when
    it returns. *)
Lemma prelude_run (flags : Flags) (w : World) (st : state) :
  prelude flags w st
  = match trustedPubKeys (f_trustedPeer flags) with
    | Throw e => (Throw e, after st [Log Info (Msg "Starting blind peer")])
    | Ok keys =>
        match construction w with
        | Throw e => (Throw e, after st (engine_construction flags keys))
        | Ok _ =>
            if (0 <? List.length keys)%nat then
              match normalize_all (engine_trustedPubKeys w) with
              | Throw e =>
                  (Throw e,
                   after st (engine_construction flags keys
                             ++ listeners (truthy (f_debug flags)) ++ [storage_log flags]))
              | Ok texts =>
                  (Ok tt,
                   after st (engine_construction flags keys
                             ++ listeners (truthy (f_debug flags))
                             ++ [storage_log flags; trusted_keys_log texts;
                                 GoodbyeRegistered]))
              end
            else
              (Ok tt,
               after st (engine_construction flags keys
                         ++ listeners (truthy (f_debug flags))
                         ++ [storage_log flags; GoodbyeRegistered]))
        end
    end.
Proof.
  unfold prelude, engine_construction, storage_log, trusted_keys_log. step.
  destruct (trustedPubKeys (f_trustedPeer flags)) as [keys|e]; step; [|reflexivity].
  destruct (construction w) as [[]|e]; step; [|reflexivity].
  rewrite mbind_register_listeners. step.
  destruct (0 <? List.length keys)%nat; step.
  - destruct (normalize_all (engine_trustedPubKeys w)) as [texts|e]; step;
      cbn [List.app]; rewrite <- ?app_assoc; reflexivity.
  - cbn [List.app]; rewrite <- ?app_assoc; reflexivity.
Qed.

(** The instrumentation setup, case by case. *)
Lemma setup_instrumentation_run (libs : Libs) (flags : Flags) (w : World) (st : state) :
  setup_instrumentation libs flags w st
  = if truthy (f_scraperPublicKey flags) then
      match IdEnc.decode (f_scraperPublicKey flags) with
      | Throw e => (Throw e, after st [Log Info (Msg "Setting up instrumentation")])
      | Ok pk =>
          match IdEnc.decode (f_scraperSecret flags) with
          | Throw e => (Throw e, after st [Log Info (Msg "Setting up instrumentation")])
          | Ok secret =>
              match resolve_alias libs (f_scraperAlias flags) w with
              | Throw e => (Throw e, after st [Log Info (Msg "Setting up instrumentation")])
              | Ok alias =>
                  (settles w InstrumentationReady,
                   mkState (trace st ++ exporter_setup w (mkInstrumentation pk alias secret))
                           (Some (mkInstrumentation pk alias secret)))
              end
          end
      end
    else (Ok tt, st).
Proof.
  unfold setup_instrumentation, exporter_setup.
  destruct (truthy (f_scraperPublicKey flags)); [|reflexivity].
  step.
  destruct (IdEnc.decode (f_scraperPublicKey flags)) as [pk|e]; step; [|reflexivity].
  destruct (IdEnc.decode (f_scraperSecret flags)) as [secret|e]; step; [|reflexivity].
  destruct (resolve_alias libs (f_scraperAlias flags) w) as [alias|e]; step; [|reflexivity].
  unfold mbind at 1. unfold assign_instrumentation. cbn [trace after].
  step. rewrite await_run. unfold after. cbn [trace instrumentation].
  rewrite <- !app_assoc. reflexivity.
Qed.

Lemma setup_auto_shutdown_run (libs : Libs) (flags : Flags) (w : World) (st : state) :
  setup_auto_shutdown libs flags w st = (Ok tt, after st (auto_shutdown_events libs flags w)).
Proof.
  unfold setup_auto_shutdown, auto_shutdown_events.
  destruct (truthy (f_autoShutdownMinutes flags)); step.
  - reflexivity.
  - unfold ret. rewrite after_nil. reflexivity.
Qed.

(** What runs once the engine listens, case by case. *)
Lemma after_listening_run (libs : Libs) (flags : Flags) (w : World) (st : state) :
  after_listening libs flags w st
  = if truthy (f_autodiscoveryRpcKey flags) then
      (Throw (Error "autobase discovery temp not supported"), st)
    else
      match setup_instrumentation libs flags w st with
      | (Throw e, st1) => (Throw e, st1)
      | (Ok _, st1) =>
          match IdEnc.normalize (publicKey w) with
          | Throw e => (Throw e, st1)
          | Ok pk =>
              match IdEnc.normalize (encryptionPublicKey w) with
              | Throw e => (Throw e, after st1 [Log Info (Msg ("Listening at " ++ pk))])
              | Ok epk =>
                  (Ok tt, after st1 (listening_at pk epk ++ auto_shutdown_events libs flags w))
              end
          end
      end.
Proof.
  unfold after_listening. rewrite mbind_unfold.
  destruct (truthy (f_autodiscoveryRpcKey flags)) eqn:Ha.
  - rewrite guard_throws by exact Ha. reflexivity.
  - rewrite guard_passes by exact Ha. cbv beta iota.
    rewrite mbind_unfold.
    destruct (setup_instrumentation libs flags w st) as [[[]|e] st1]; [|reflexivity].
    destruct (IdEnc.normalize (publicKey w)) as [pk|e]; step; [|reflexivity].
    destruct (IdEnc.normalize (encryptionPublicKey w)) as [epk|e]; step; [|reflexivity].
    rewrite setup_auto_shutdown_run, after_app. reflexivity.
Qed.

(* ===================================================================== *)
(** ** Failures before the engine is ready *)
(* ===================================================================== *)

Lemma decode_all_fails (ids : list value) (k : value) (e' : error) :
  In k ids -> IdEnc.decode k = Throw e' ->
  exists k0 e, In k0 ids /\ IdEnc.decode k0 = Throw e /\ decode_all ids = Throw e.
Proof.
  induction ids as [|x rest IH]; intros Hin Hk; [destruct Hin|].
  cbn [decode_all]. destruct (IdEnc.decode x) as [b|e] eqn:Ex.
  - destruct Hin as [<-|Hin]; [congruence|].
    destruct (IH Hin Hk) as [k0 [e [H1 [H2 H3]]]].
    exists k0, e. rewrite H3. cbn. auto.
  - exists x, e. cbn. auto.
Qed.

Lemma main_prelude_throws (libs : Libs) (flags : Flags) (w : World) e st' :
  prelude flags w initial = (Throw e, st') ->
  main libs flags w initial = (Throw e, st').
Proof.
  intros H. unfold main, startup. rewrite !mbind_assoc, mbind_unfold, H. reflexivity.
Qed.

(** A trusted-peer value that is no key stops the command before the engine
    is constructed: the command throws the decoding error of such a value,
    having made one logger call and nothing else. *)
Theorem invalid_trusted_peer_stops_before_engine (libs : Libs) (flags : Flags) (w : World)
    (ids : list value) (k : value) (e' : error) :
  f_trustedPeer flags = VArr ids ->
  In k ids ->
  IdEnc.decode k = Throw e' ->
  exists k0 e,
    In k0 ids
    /\ IdEnc.decode k0 = Throw e
    /\ run (main libs flags w) = (Throw e, [Log Info (Msg "Starting blind peer")]).
Proof.
  intros Hf Hin Hk.
  destruct (decode_all_fails ids k e' Hin Hk) as [k0 [e [H1 [H2 H3]]]].
  exists k0, e. split; [exact H1|]. split; [exact H2|].
  unfold run. rewrite (main_prelude_throws libs flags w e
                         (after initial [Log Info (Msg "Starting blind peer")])).
  - reflexivity.
  - rewrite prelude_run. unfold trustedPubKeys. rewrite Hf. cbn [or_else truthy].
    rewrite H3. reflexivity.
Qed.

(** [--trusted-peer abc]. *)
Lemma invalid_trusted_peer_witness :
  exists k0 e,
    In k0 [VStr "abc"]
    /\ IdEnc.decode k0 = Throw e
    /\ run (main demo_libs
              (with_config VUndefined VUndefined (VArr [VStr "abc"]) VUndefined VUndefined)
              demo_world)
       = (Throw e, [Log Info (Msg "Starting blind peer")]).
Proof.
  apply (invalid_trusted_peer_stops_before_engine demo_libs
           (with_config VUndefined VUndefined (VArr [VStr "abc"]) VUndefined VUndefined)
           demo_world [VStr "abc"] (VStr "abc") (Error "Invalid Hypercore key")).
  - reflexivity.
  - left. reflexivity.
  - reflexivity.
Defined.

(** When [new BlindPeer] throws, the command throws that exception having
    registered nothing: no listener and no graceful-exit hook, so that a
    termination signal then runs nothing of the command. *)
Theorem engine_constructor_failure (libs : Libs) (flags : Flags) (w : World)
    (keys : list (list byte)) (e : error) :
  trustedPubKeys (f_trustedPeer flags) = Ok keys ->
  construction w = Throw e ->
  main libs flags w initial = (Throw e, after initial (engine_construction flags keys))
  /\ on_termination_signal w (snd (main libs flags w initial))
     = (Ok tt, snd (main libs flags w initial)).
Proof.
  intros Hk Hc.
  assert (E : main libs flags w initial
              = (Throw e, after initial (engine_construction flags keys))).
  { apply main_prelude_throws. rewrite prelude_run, Hk, Hc. reflexivity. }
  split; [exact E|]. rewrite E. reflexivity.
Qed.

(** A constructor that throws because the storage is locked. *)
Lemma engine_constructor_failure_witness :
  main demo_libs no_flags
    (mkWorld (Throw (Error "storage is locked")) (fun _ => Ok tt) (fun _ => []) (1 # 2)
             [] VUndefined VUndefined VUndefined VUndefined VUndefined VUndefined VUndefined)
    initial
  = (Throw (Error "storage is locked"),
     after initial [Log Info (Msg "Starting blind peer");
                    NewBlindPeer (VStr "blind-peer") [] (Int 100000000000) VNull]).
Proof.
  apply (engine_constructor_failure demo_libs no_flags
           (mkWorld (Throw (Error "storage is locked")) (fun _ => Ok tt) (fun _ => []) (1 # 2)
              [] VUndefined VUndefined VUndefined VUndefined VUndefined VUndefined VUndefined)
           [] (Error "storage is locked")); reflexivity.
Defined.

Lemma main_run (libs : Libs) (flags : Flags) (w : World) :
  main libs flags w initial
  = match prelude flags w initial with
    | (Throw e, st1) => (Throw e, st1)
    | (Ok _, st1) =>
        match setup_repl flags st1 with
        | (Throw e, st2) => (Throw e, st2)
        | (Ok _, st2) =>
            match bring_up libs flags w st2 with
            | (Throw e, st3) => (Throw e, st3)
            | (Ok _, st3) => after_listening libs flags w st3
            end
        end
    end.
Proof.
  unfold main, startup, mbind.
  destruct (prelude flags w initial) as [[[]|e] st1]; [|reflexivity].
  destruct (setup_repl flags st1) as [[[]|e] st2]; [|reflexivity].
  destruct (bring_up libs flags w st2) as [[[]|e] st3]; reflexivity.
Qed.

Lemma emits_after {A} (P : event -> Prop) (m : M A) (st : state) :
  emits P m -> Forall P (trace st) -> Forall P (trace (snd (m st))).
Proof.
  intros He Ht. destruct (He st) as [evs [-> F]]. apply Forall_app. auto.
Qed.

(** A REPL seed that is no key stops the command before [ready()] is
    called: the command throws, having made no call on the engine and
    started no console; when the prelude has returned, it throws the
    decoding error, with the engine constructed and the hook registered. *)
Theorem invalid_repl_seed_stops_before_ready (libs : Libs) (flags : Flags) (w : World)
    (e : error) :
  truthy (f_repl flags) = true ->
  IdEnc.decode (f_repl flags) = Throw e ->
  (exists e', fst (main libs flags w initial) = Throw e')
  /\ Forall before_ready (trace (snd (main libs flags w initial)))
  /\ (forall st1,
        prelude flags w initial = (Ok tt, st1) ->
        main libs flags w initial = (Throw e, st1)
        /\ In GoodbyeRegistered (trace st1)
        /\ exists keys rest, trace st1 = (engine_construction flags keys ++ rest)%list).
Proof.
  intros Ht Hd. rewrite main_run.
  pose proof (emits_after before_ready (prelude flags w) initial
                (prelude_before_ready flags w) (Forall_nil _)) as F.
  destruct (prelude_cases flags w initial)
    as [[e1 [st1 E1]] | [keys [evs [_ [_ [E1 [Hin _]]]]]]]; rewrite E1 in *; cbn [snd] in F.
  - split; [eexists; reflexivity|]. split; [exact F|]. intros st1' E. discriminate.
  - rewrite setup_repl_run, Ht, Hd.
    split; [eexists; reflexivity|]. split; [exact F|].
    intros st1' E. injection E as <-.
    split; [reflexivity|]. split.
    + rewrite trace_after. cbn. auto.
    + exists keys, evs. reflexivity.
Qed.

(** [--repl abc]. *)
Lemma invalid_repl_seed_witness :
  (exists e',
     fst (main demo_libs (with_scraper VUndefined VUndefined VUndefined (VStr "abc") VUndefined)
               demo_world initial) = Throw e')
  /\ Forall before_ready
       (trace (snd (main demo_libs
                      (with_scraper VUndefined VUndefined VUndefined (VStr "abc") VUndefined)
                      demo_world initial))).
Proof.
  destruct (invalid_repl_seed_stops_before_ready demo_libs
              (with_scraper VUndefined VUndefined VUndefined (VStr "abc") VUndefined)
              demo_world (Error "Invalid Hypercore key")) as [H1 [H2 _]];
    [reflexivity | reflexivity | split; assumption].
Defined.

(* ===================================================================== *)
(** ** Failures of [ready()] and of [listen()] *)
(* ===================================================================== *)

Lemma prelude_until_ready (flags : Flags) (w : World) :
  emits until_ready (prelude flags w) /\ emits until_listening (prelude flags w).
Proof. split; unfold prelude, register_listeners; effects; reflexivity. Qed.

Lemma setup_repl_until_ready (flags : Flags) :
  emits until_ready (setup_repl flags) /\ emits until_listening (setup_repl flags).
Proof. split; unfold setup_repl; effects. Qed.

Lemma awaiting_events (P : event -> Prop) (w : World) (op : operation) :
  (forall l a, P (Log l a)) -> P (Called op) -> (forall ok, P (Settled op ok)) ->
  Forall P (awaiting w op).
Proof.
  intros Hl Hc Hs. unfold awaiting. constructor; [exact Hc|].
  apply Forall_app. split.
  - apply Forall_forall. intros x Hx. apply in_map_iff in Hx. destruct Hx as [c [<- _]].
    apply Hl.
  - constructor; [apply Hs | constructor].
Qed.


Lemma main_stops_early (P : event -> Prop) (libs : Libs) (flags : Flags) (w : World) :
  emits P (prelude flags w) -> emits P (setup_repl flags) ->
  (forall st2 r st3,
     bring_up libs flags w st2 = (r, st3) ->
     Forall P (trace st2) ->
     (exists e, r = Throw e) /\ Forall P (trace st3)) ->
  (exists e', fst (main libs flags w initial) = Throw e')
  /\ Forall P (trace (snd (main libs flags w initial))).
Proof.
  intros Hp Hr Hb. rewrite main_run.
  pose proof (emits_after P (prelude flags w) initial Hp (Forall_nil _)) as F1.
  destruct (prelude flags w initial) as [[[]|e1] st1]; cbn [snd] in F1;
    [|split; [eexists; reflexivity | exact F1]].
  pose proof (emits_after P (setup_repl flags) st1 Hr F1) as F2.
  destruct (setup_repl flags st1) as [[[]|e2] st2]; cbn [snd] in F2;
    [|split; [eexists; reflexivity | exact F2]].
  destruct (bring_up libs flags w st2) as [r st3] eqn:E3.
  destruct (Hb st2 r st3 E3 F2) as [[e ->] F3].
  split; [eexists; reflexivity | exact F3].
Qed.

(** When [ready()] rejects, the command fails without calling [listen()]:
    no listener is registered on the swarm, no timer is set and nothing is
    done on the exporter; when the prelude and the console setup have
    returned, the command throws the rejection right after the await. *)
Theorem ready_rejection_stops_startup (libs : Libs) (flags : Flags) (w : World) (e : error) :
  settles w BlindPeerReady = Throw e ->
  (exists e', fst (main libs flags w initial) = Throw e')
  /\ Forall until_ready (trace (snd (main libs flags w initial)))
  /\ (forall st1 st2,
        prelude flags w initial = (Ok tt, st1) ->
        setup_repl flags st1 = (Ok tt, st2) ->
        main libs flags w initial = (Throw e, after st2 (awaiting w BlindPeerReady))).
Proof.
  intros Hs.
  destruct (main_stops_early until_ready libs flags w) as [H1 H2].
  - apply prelude_until_ready.
  - apply setup_repl_until_ready.
  - intros st2 r st3 E F. rewrite bring_up_run, Hs in E.
    apply pair_equal_spec in E. destruct E as [<- <-].
    split; [eauto|]. rewrite trace_after. apply Forall_app. split; [exact F|].
    apply awaiting_events; intros; exact I.
  - split; [exact H1|]. split; [exact H2|].
    intros st1 st2 E1 E2. rewrite main_run, E1, E2, bring_up_run, Hs. reflexivity.
Qed.

(** When [listen()] rejects, the command fails without touching the
    exporter and without setting the shutdown timer; when it got as far as
    [listen()], it throws the rejection right after the await. *)
Theorem listen_rejection_stops_startup (libs : Libs) (flags : Flags) (w : World) (e : error) :
  settles w BlindPeerListen = Throw e ->
  (exists e', fst (main libs flags w initial) = Throw e')
  /\ Forall until_listening (trace (snd (main libs flags w initial)))
  /\ (forall st1 st2,
        prelude flags w initial = (Ok tt, st1) ->
        setup_repl flags st1 = (Ok tt, st2) ->
        settles w BlindPeerReady = Ok tt ->
        main libs flags w initial
        = (Throw e, after st2 (awaiting w BlindPeerReady ++ swarm_wiring flags
                               ++ awaiting w BlindPeerListen))).
Proof.
  intros Hs.
  destruct (main_stops_early until_listening libs flags w) as [H1 H2].
  - apply prelude_until_ready.
  - apply setup_repl_until_ready.
  - intros st2 r st3 E F. rewrite bring_up_run, Hs in E.
    destruct (settles w BlindPeerReady) as [[]|e1] eqn:Hr;
      apply pair_equal_spec in E; destruct E as [<- <-];
      (split; [eauto|]); rewrite trace_after; apply Forall_app; (split; [exact F|]).
    + apply Forall_app. split; [apply awaiting_events; intros; exact I|].
      apply Forall_app. split; [|apply awaiting_events; intros; exact I].
      unfold swarm_wiring. all_events.
    + apply awaiting_events; intros; exact I.
  - split; [exact H1|]. split; [exact H2|].
    intros st1 st2 E1 E2 Hr. rewrite main_run, E1, E2, bring_up_run, Hr, Hs. reflexivity.
Qed.

(** A world in which [ready()] rejects and every other operation
    resolves. *)
Lemma ready_rejection_witness :
  exists e',
    fst (main demo_libs no_flags
           (mkWorld (Ok tt)
              (fun op => match op with
                         | BlindPeerReady => Throw (Error "no network")
                         | _ => Ok tt
                         end)
              (fun _ => []) (1 # 2) [] VUndefined VUndefined VUndefined VUndefined
              VUndefined VUndefined VUndefined)
           initial) = Throw e'.
Proof.
  apply (ready_rejection_stops_startup demo_libs no_flags
           (mkWorld (Ok tt)
              (fun op => match op with
                         | BlindPeerReady => Throw (Error "no network")
                         | _ => Ok tt
                         end)
              (fun _ => []) (1 # 2) [] VUndefined VUndefined VUndefined VUndefined
              VUndefined VUndefined VUndefined)
           (Error "no network")).
  reflexivity.
Defined.

(** The same with a [listen()] that rejects. *)
Lemma listen_rejection_witness :
  exists e',
    fst (main demo_libs no_flags
           (mkWorld (Ok tt)
              (fun op => match op with
                         | BlindPeerListen => Throw (Error "port in use")
                         | _ => Ok tt
                         end)
              (fun _ => []) (1 # 2) [] VUndefined VUndefined VUndefined VUndefined
              VUndefined VUndefined VUndefined)
           initial) = Throw e'.
Proof.
  apply (listen_rejection_stops_startup demo_libs no_flags
           (mkWorld (Ok tt)
              (fun op => match op with
                         | BlindPeerListen => Throw (Error "port in use")
                         | _ => Ok tt
                         end)
              (fun _ => []) (1 # 2) [] VUndefined VUndefined VUndefined VUndefined
              VUndefined VUndefined VUndefined)
           (Error "port in use")).
  reflexivity.
Defined.

(* ===================================================================== *)
(** ** The exporter over a whole run *)
(* ===================================================================== *)

Lemma main_emits (P : event -> Prop) (libs : Libs) (flags : Flags) (w : World) :
  emits P (prelude flags w) -> emits P (setup_repl flags) ->
  emits P (bring_up libs flags w) -> emits P (after_listening libs flags w) ->
  Forall P (trace (snd (main libs flags w initial))).
Proof.
  intros H1 H2 H3 H4. apply emits_after; [|constructor].
  unfold main, startup.
  apply emits_bind; [|intros _; exact H4].
  apply emits_bind; [exact H1|intros _].
  apply emits_bind; [exact H2|intros _; exact H3].
Qed.

Ltac absurd_event := let H := fresh "H" in intros H; exact H.

Lemma not_in_trace (P : event -> Prop) (e : event) (t : list event) :
  Forall P t -> ~ P e -> ~ In e t.
Proof. intros F Hn Hin. apply Hn. eapply Forall_forall; eauto. Qed.

(** Without a scraper public key the exporter is never touched: no run
    constructs it, registers on it or awaits it, [instrumentation] is
    [null] when the command ends, and when the command has returned a
    termination signal closes the engine and nothing else. *)
Theorem no_scraper_key_no_exporter (libs : Libs) (flags : Flags) (w : World) :
  truthy (f_scraperPublicKey flags) = false ->
  Forall (fun ev => ~ uses_exporter ev) (trace (snd (main libs flags w initial)))
  /\ instrumentation (snd (main libs flags w initial)) = None
  /\ (fst (main libs flags w initial) = Ok tt ->
      snd (on_termination_signal w (snd (main libs flags w initial)))
      = after (snd (main libs flags w initial)) (engine_shutdown w)).
Proof.
  intros Hs.
  assert (Hnone : instrumentation (snd (main libs flags w initial)) = None).
  { rewrite main_after_startup.
    destruct (startup_keeps_null libs flags w) as [_ Hn].
    destruct (startup libs flags w initial) as [[[]|e] st']; cbn [snd] in *; [|exact Hn].
    rewrite after_listening_run, setup_instrumentation_run, Hs.
    destruct (truthy (f_autodiscoveryRpcKey flags)); [exact Hn|].
    destruct (IdEnc.normalize (publicKey w)); [|exact Hn].
    destruct (IdEnc.normalize (encryptionPublicKey w)); exact Hn. }
  split; [|split; [exact Hnone|]].
  - apply main_emits.
    + unfold prelude, register_listeners. effects; absurd_event.
    + unfold setup_repl. effects; absurd_event.
    + unfold bring_up. effects; absurd_event.
    + unfold after_listening, autodiscovery_guard, setup_instrumentation, setup_auto_shutdown.
      rewrite Hs. cbn [when]. effects; absurd_event.
  - intros Hok. unfold on_termination_signal.
    rewrite registered_runs_callback by (apply main_registers_hook; exact Hok).
    rewrite goodbye_callback_events, Hnone. reflexivity.
Qed.

(** The run without flags. *)
Lemma no_scraper_key_witness :
  Forall (fun ev => ~ uses_exporter ev) (trace (snd (main demo_libs no_flags demo_world initial)))
  /\ instrumentation (snd (main demo_libs no_flags demo_world initial)) = None.
Proof.
  destruct (no_scraper_key_no_exporter demo_libs no_flags demo_world) as [H1 [H2 _]];
    [reflexivity | split; assumption].
Defined.

Lemma not_constructed (i : Instrumentation) (t : list event) :
  Forall no_instrumentation t -> ~ In (NewInstrumentation i) t.
Proof. intros F. apply (not_in_trace no_instrumentation); [exact F | intros H; exact H]. Qed.

Lemma no_instrumentation_awaiting (w : World) (op : operation) :
  Forall no_instrumentation (awaiting w op).
Proof. apply awaiting_events; intros; exact I. Qed.

Lemma no_instrumentation_closing (libs : Libs) (flags : Flags) (w : World) (pk epk : string) :
  Forall no_instrumentation (listening_at pk epk ++ auto_shutdown_events libs flags w).
Proof. unfold listening_at, auto_shutdown_events. all_events. Qed.

Lemma only_exporter_setup (i i0 : Instrumentation) (w : World) (pre extra : list event) :
  In (NewInstrumentation i) ((pre ++ exporter_setup w i0) ++ extra) ->
  Forall no_instrumentation pre -> Forall no_instrumentation extra ->
  i = i0.
Proof.
  intros Hin Fp Fe.
  apply in_app_or in Hin. destruct Hin as [Hin|Hin];
    [|exfalso; exact (not_constructed i _ Fe Hin)].
  apply in_app_or in Hin. destruct Hin as [Hin|Hin];
    [exfalso; exact (not_constructed i _ Fp Hin)|].
  unfold exporter_setup in Hin. apply in_app_or in Hin. destruct Hin as [Hin|Hin].
  - cbn in Hin. destruct Hin as [H0|[H0|[H0|[H0|[]]]]]; try discriminate.
    injection H0 as <-. reflexivity.
  - exfalso. exact (not_constructed i _ (no_instrumentation_awaiting w _) Hin).
Qed.

(** The exporter that a run constructs is the one named by the flags, it is
    the value of [instrumentation] when the command ends, however it ends
    (also when the exporter's [ready()] rejects), and a termination signal
    then starts by closing it. *)
Theorem constructed_exporter_is_closed_on_exit (libs : Libs) (flags : Flags) (w : World)
    (i : Instrumentation) :
  In (NewInstrumentation i) (trace (snd (main libs flags w initial))) ->
  IdEnc.decode (f_scraperPublicKey flags) = Ok (scraperPublicKey i)
  /\ IdEnc.decode (f_scraperSecret flags) = Ok (scraperSecret i)
  /\ resolve_alias libs (f_scraperAlias flags) w = Ok (prometheusAlias i)
  /\ instrumentation (snd (main libs flags w initial)) = Some i
  /\ exists rest,
       snd (on_termination_signal w (snd (main libs flags w initial)))
       = after (snd (main libs flags w initial))
           (Log Info (Msg "Closing instrumentation") :: Called InstrumentationClose :: rest).
Proof.
  intros Hin.
  assert (Hend : forall st,
            In GoodbyeRegistered (trace st) -> instrumentation st = Some i ->
            exists rest,
              snd (on_termination_signal w st)
              = after st (Log Info (Msg "Closing instrumentation")
                          :: Called InstrumentationClose :: rest)).
  { intros st Hreg Hi. unfold on_termination_signal.
    rewrite registered_runs_callback by exact Hreg.
    rewrite goodbye_callback_events, Hi. cbn [shutdown_events]. unfold awaiting.
    eexists. reflexivity. }
  rewrite main_after_startup in *.
  destruct (startup_keeps_null libs flags w) as [F _].
  pose proof (startup_ok libs flags w) as Hok.
  destruct (startup libs flags w initial) as [[[]|e] st']; cbn [snd] in F;
    [|exfalso; exact (not_constructed i _ F Hin)].
  destruct (Hok st' eq_refl) as [_ [_ [_ Hreg]]]. clear Hok.
  rewrite after_listening_run, setup_instrumentation_run in *.
  destruct (truthy (f_autodiscoveryRpcKey flags));
    [exfalso; exact (not_constructed i _ F Hin)|].
  assert (Hlog : forall l s, ~ In (NewInstrumentation i) (trace (after st' [Log l (Msg s)]))).
  { intros l s. apply not_constructed. rewrite trace_after. apply Forall_app.
    split; [exact F | repeat constructor]. }
  assert (Hclose : forall pk epk,
            ~ In (NewInstrumentation i)
                (trace (after st' (listening_at pk epk ++ auto_shutdown_events libs flags w)))).
  { intros pk epk. apply not_constructed. rewrite trace_after. apply Forall_app.
    split; [exact F | apply no_instrumentation_closing]. }
  destruct (truthy (f_scraperPublicKey flags)).
  - destruct (IdEnc.decode (f_scraperPublicKey flags)) as [pk|e];
      [|exfalso; exact (Hlog _ _ Hin)].
    destruct (IdEnc.decode (f_scraperSecret flags)) as [secret|e];
      [|exfalso; exact (Hlog _ _ Hin)].
    destruct (resolve_alias libs (f_scraperAlias flags) w) as [alias|e];
      [|exfalso; exact (Hlog _ _ Hin)].
    set (i0 := mkInstrumentation pk alias secret) in *.
    assert (Hi : i = i0).
    { destruct (settles w InstrumentationReady) as [[]|e];
        [destruct (IdEnc.normalize (publicKey w));
         [destruct (IdEnc.normalize (encryptionPublicKey w))|]|];
        cbn [snd trace after] in Hin;
        first [ apply (only_exporter_setup i i0 w _ _ Hin);
                first [ exact F | apply no_instrumentation_closing | repeat constructor ]
              | rewrite <- (app_nil_r (trace st' ++ exporter_setup w i0)) in Hin;
                apply (only_exporter_setup i i0 w _ _ Hin);
                first [ exact F | constructor ] ]. }
    subst i. cbn [scraperPublicKey scraperSecret prometheusAlias i0].
    repeat (split; [reflexivity|]).
    destruct (settles w InstrumentationReady) as [[]|e];
      [destruct (IdEnc.normalize (publicKey w));
       [destruct (IdEnc.normalize (encryptionPublicKey w))|]|];
      cbn [snd trace after instrumentation];
      (split; [reflexivity|]); apply Hend;
      cbn [trace after instrumentation]; try reflexivity;
      repeat (apply in_or_app; left); exact Hreg.
  - exfalso.
    destruct (IdEnc.normalize (publicKey w));
      [destruct (IdEnc.normalize (encryptionPublicKey w))|]; cbn [snd] in Hin.
    + exact (Hclose _ _ Hin).
    + exact (Hlog _ _ Hin).
    + exact (not_constructed i _ F Hin).
Qed.

(** Scraper credentials and an exporter whose [ready()] rejects: the handle
    is still assigned. *)
Lemma constructed_exporter_witness :
  instrumentation
    (snd (main demo_libs console_flags
            (mkWorld (Ok tt)
               (fun op => match op with
                          | InstrumentationReady => Throw (Error "scraper unreachable")
                          | _ => Ok tt
                          end)
               (fun _ => []) (1 # 2) [] (VNum (Int 0)) (VNum (Int 100000000000))
               (VStr "10.0.0.214") (VNum (Int 49741))
               (VBuf key_0_31) (VBuf key_0_31) (VBuf zero_key))
            initial))
  = Some (mkInstrumentation zero_key
            (VStr "blind-peer-yyyoryarywdyqnyjbefoadeqbhebnrounoktcfaadrpbs8y7daxo")
            key_0_31).
Proof.
  apply (constructed_exporter_is_closed_on_exit demo_libs console_flags
           (mkWorld (Ok tt)
              (fun op => match op with
                         | InstrumentationReady => Throw (Error "scraper unreachable")
                         | _ => Ok tt
                         end)
              (fun _ => []) (1 # 2) [] (VNum (Int 0)) (VNum (Int 100000000000))
              (VStr "10.0.0.214") (VNum (Int 49741))
              (VBuf key_0_31) (VBuf key_0_31) (VBuf zero_key))
           (mkInstrumentation zero_key
              (VStr "blind-peer-yyyoryarywdyqnyjbefoadeqbhebnrounoktcfaadrpbs8y7daxo")
              key_0_31)).
  vm_compute. repeat first [left; reflexivity | right].
Defined.

(* ===================================================================== *)
(** ** The run in which the command returns *)
(* ===================================================================== *)

(** When the command returns, its trace is the sequence of its blocks in
    source order. *)
Lemma main_success_trace (libs : Libs) (flags : Flags) (w : World) :
  fst (main libs flags w initial) = Ok tt ->
  exists keys pk epk,
    trustedPubKeys (f_trustedPeer flags) = Ok keys
    /\ IdEnc.normalize (publicKey w) = Ok pk
    /\ IdEnc.normalize (encryptionPublicKey w) = Ok epk
    /\ settles w BlindPeerReady = Ok tt
    /\ settles w BlindPeerListen = Ok tt
    /\ truthy (f_autodiscoveryRpcKey flags) = false
    /\ trace (snd (main libs flags w initial)) = successful_run libs flags w keys pk epk.
Proof.
  rewrite main_run, prelude_run. unfold successful_run, trusted_keys_events.
  destruct (trustedPubKeys (f_trustedPeer flags)) as [keys|e]; [|discriminate].
  destruct (construction w) as [[]|e]; [|discriminate].
  assert (H : forall tk,
    fst (match setup_repl flags
                 (after initial (engine_construction flags keys
                                 ++ listeners (truthy (f_debug flags))
                                 ++ [storage_log flags] ++ tk ++ [GoodbyeRegistered])) with
         | (Ok _, st2) =>
             match bring_up libs flags w st2 with
             | (Ok _, st3) => after_listening libs flags w st3
             | (Throw e, st3) => (Throw e, st3)
             end
         | (Throw e, st2) => (Throw e, st2)
         end) = Ok tt ->
    exists keys0 pk epk,
      Ok keys = Ok keys0
      /\ IdEnc.normalize (publicKey w) = Ok pk
      /\ IdEnc.normalize (encryptionPublicKey w) = Ok epk
      /\ settles w BlindPeerReady = Ok tt
      /\ settles w BlindPeerListen = Ok tt
      /\ truthy (f_autodiscoveryRpcKey flags) = false
      /\ trace (snd (match setup_repl flags
                       (after initial (engine_construction flags keys
                                       ++ listeners (truthy (f_debug flags))
                                       ++ [storage_log flags] ++ tk ++ [GoodbyeRegistered])) with
               | (Ok _, st2) =>
                   match bring_up libs flags w st2 with
                   | (Ok _, st3) => after_listening libs flags w st3
                   | (Throw e, st3) => (Throw e, st3)
                   end
               | (Throw e, st2) => (Throw e, st2)
               end))
         = (engine_construction flags keys
            ++ listeners (truthy (f_debug flags))
            ++ [storage_log flags] ++ tk ++ [GoodbyeRegistered]
            ++ console flags None
            ++ awaiting w BlindPeerReady ++ swarm_wiring flags
            ++ awaiting w BlindPeerListen ++ listening_logs libs w
            ++ exporter_events libs flags w
            ++ listening_at pk epk ++ auto_shutdown_events libs flags w)%list).
  { intros tk. rewrite setup_repl_run. unfold console, exporter_events.
    destruct (truthy (f_repl flags));
      [destruct (IdEnc.decode (f_repl flags)) as [seed|e]; [|discriminate]|];
      rewrite bring_up_run;
      (destruct (settles w BlindPeerReady) as [[]|e]; [|discriminate]);
      (destruct (settles w BlindPeerListen) as [[]|e]; [|discriminate]);
      rewrite after_listening_run, setup_instrumentation_run;
      (destruct (truthy (f_autodiscoveryRpcKey flags)); [discriminate|]);
      (destruct (truthy (f_scraperPublicKey flags));
       [ destruct (IdEnc.decode (f_scraperPublicKey flags)) as [pk0|e]; [|discriminate];
         destruct (IdEnc.decode (f_scraperSecret flags)) as [secret|e]; [|discriminate];
         destruct (resolve_alias libs (f_scraperAlias flags) w) as [alias|e]; [|discriminate];
         destruct (settles w InstrumentationReady) as [[]|e]; [|discriminate]
       | ]);
      (destruct (IdEnc.normalize (publicKey w)) as [pk|e]; [|discriminate]);
      (destruct (IdEnc.normalize (encryptionPublicKey w)) as [epk|e]; [|discriminate]);
      intros _; exists keys, pk, epk;
      repeat (split; [reflexivity|]);
      cbn [snd trace after initial instrumentation List.app];
      rewrite <- ?app_assoc; cbn [List.app]; rewrite <- ?app_assoc; reflexivity. }
  destruct (0 <? List.length keys)%nat eqn:Hlen.
  - destruct (normalize_all (engine_trustedPubKeys w)) as [texts|e]; [|discriminate].
    intros Hf. destruct (H [trusted_keys_log texts] Hf) as [keys0 [pk [epk [Ek [H1 [H2 [H3 [H4 [H5 H6]]]]]]]]].
    assert (keys0 = keys) by congruence. subst keys0.
    exists keys, pk, epk. rewrite Hlen. repeat (split; [assumption|]). exact H6.
  - intros Hf. destruct (H [] Hf) as [keys0 [pk [epk [Ek [H1 [H2 [H3 [H4 [H5 H6]]]]]]]]].
    assert (keys0 = keys) by congruence. subst keys0.
    exists keys, pk, epk. rewrite Hlen. repeat (split; [assumption|]). exact H6.
Qed.

Lemma logger_calls_app (a b : list event) :
  logger_calls (a ++ b) = (logger_calls a ++ logger_calls b)%list.
Proof. apply flat_map_app. Qed.

Lemma registrations_app (a b : list event) :
  registrations (a ++ b) = (registrations a ++ registrations b)%list.
Proof. apply flat_map_app. Qed.

Lemma intervals_app (a b : list event) :
  intervals (a ++ b) = (intervals a ++ intervals b)%list.
Proof. apply flat_map_app. Qed.

Lemma timeouts_app (a b : list event) :
  timeouts (a ++ b) = (timeouts a ++ timeouts b)%list.
Proof. apply flat_map_app. Qed.





Lemma plain_projections (t : list event) :
  Forall plain t -> registrations t = [] /\ intervals t = [] /\ timeouts t = [].
Proof.
  induction 1 as [|e t He _ [IH1 [IH2 IH3]]]; [repeat split|].
  unfold registrations, intervals, timeouts in *. cbn [List.flat_map].
  rewrite IH1, IH2, IH3. destruct e; try destruct He; repeat split.
Qed.

Lemma plain_awaiting (w : World) (op : operation) : Forall plain (awaiting w op).
Proof. apply awaiting_events; intros; exact I. Qed.

(** The blocks of a successful run that register nothing and set no
    timer. *)
Lemma plain_blocks (libs : Libs) (flags : Flags) (w : World) (keys : list (list byte))
    (pk epk : string) :
  Forall plain (engine_construction flags keys)
  /\ Forall plain ([storage_log flags] ++ trusted_keys_events w keys ++ [GoodbyeRegistered])
  /\ Forall plain (console flags None)
  /\ Forall plain (listening_logs libs w)
  /\ Forall plain (exporter_events libs flags w)
  /\ Forall plain (listening_at pk epk).
Proof.
  unfold engine_construction, storage_log, trusted_keys_events, trusted_keys_log, console,
    repl_events, listening_logs, exporter_events, exporter_setup, listening_at.
  repeat match goal with |- _ /\ _ => split end; all_events; apply plain_awaiting.
Qed.

(** The registrations and timers of a successful run are those of its
    listener blocks and of its auto-shutdown block. *)
Lemma successful_run_projections (libs : Libs) (flags : Flags) (w : World)
    (keys : list (list byte)) (pk epk : string) :
  registrations (successful_run libs flags w keys pk epk)
  = (registrations (listeners (truthy (f_debug flags)))
     ++ registrations (swarm_wiring flags))%list
  /\ intervals (successful_run libs flags w keys pk epk) = intervals (swarm_wiring flags)
  /\ timeouts (successful_run libs flags w keys pk epk)
     = timeouts (auto_shutdown_events libs flags w).
Proof.
  destruct (plain_blocks libs flags w keys pk epk) as [B1 [B2 [B3 [B4 [B5 B6]]]]].
  destruct (plain_projections _ B1) as [R1 [I1 T1]].
  destruct (plain_projections _ B2) as [R2 [I2 T2]].
  destruct (plain_projections _ B3) as [R3 [I3 T3]].
  destruct (plain_projections _ B4) as [R4 [I4 T4]].
  destruct (plain_projections _ B5) as [R5 [I5 T5]].
  destruct (plain_projections _ B6) as [R6 [I6 T6]].
  destruct (plain_projections _ (plain_awaiting w BlindPeerReady)) as [R7 [I7 T7]].
  destruct (plain_projections _ (plain_awaiting w BlindPeerListen)) as [R8 [I8 T8]].
  assert (E : successful_run libs flags w keys pk epk
              = (engine_construction flags keys
                 ++ listeners (truthy (f_debug flags))
                 ++ ([storage_log flags] ++ trusted_keys_events w keys ++ [GoodbyeRegistered])
                 ++ console flags None
                 ++ awaiting w BlindPeerReady ++ swarm_wiring flags
                 ++ awaiting w BlindPeerListen ++ listening_logs libs w
                 ++ exporter_events libs flags w
                 ++ listening_at pk epk ++ auto_shutdown_events libs flags w)%list).
  { unfold successful_run. rewrite <- !app_assoc. reflexivity. }
  rewrite E. clear E.
  repeat match goal with |- _ /\ _ => split end.
  - repeat (rewrite registrations_app; rewrite ?R1, ?R2, ?R3, ?R4, ?R5, ?R6, ?R7, ?R8).
    assert (Ha : registrations (auto_shutdown_events libs flags w) = [])
      by (unfold auto_shutdown_events; destruct (truthy (f_autoShutdownMinutes flags)); reflexivity).
    rewrite Ha. cbn [List.app]. rewrite !app_nil_r. reflexivity.
  - repeat (rewrite intervals_app; rewrite ?I1, ?I2, ?I3, ?I4, ?I5, ?I6, ?I7, ?I8).
    assert (Hl : intervals (listeners (truthy (f_debug flags))) = [])
      by (destruct (truthy (f_debug flags)); reflexivity).
    assert (Ha : intervals (auto_shutdown_events libs flags w) = [])
      by (unfold auto_shutdown_events; destruct (truthy (f_autoShutdownMinutes flags)); reflexivity).
    rewrite Hl, Ha. cbn [List.app]. rewrite !app_nil_r. reflexivity.
  - repeat (rewrite timeouts_app; rewrite ?T1, ?T2, ?T3, ?T4, ?T5, ?T6, ?T7, ?T8).
    assert (Hl : timeouts (listeners (truthy (f_debug flags))) = [])
      by (destruct (truthy (f_debug flags)); reflexivity).
    assert (Hs : timeouts (swarm_wiring flags) = [])
      by (unfold swarm_wiring; destruct (truthy (f_debug flags)), (truthy (f_logStreams flags));
          reflexivity).
    rewrite Hl, Hs. reflexivity.
Qed.

(** The listeners of a run in which the command returns: those on the
    engine first, in source order, then those on the swarm; the
    [core-activity] and [connection] listeners exist in debug mode only.
    Without debug mode neither is registered in any run. *)
Theorem registered_listeners (libs : Libs) (flags : Flags) (w : World) :
  (fst (main libs flags w initial) = Ok tt ->
   registrations (trace (snd (main libs flags w initial)))
   = (List.map (pair "blindPeer")
        (["flush-error"; "muxer-paired"; "muxer-error"; "add-cores-received";
          "add-cores-done"; "add-new-core"; "delete-blocked"; "delete-core";
          "delete-core-end"; "downgrade-announce"; "add-cores-downgrade-announce";
          "announce-core"; "announced-initial-cores"; "core-downloaded"; "core-append";
          "core-client-mode-changed"; "gc-start"; "gc-done"]
         ++ (if truthy (f_debug flags) then ["core-activity"] else [])
         ++ ["invalid-request"])
      ++ [("swarm", "ban")]
      ++ (if truthy (f_debug flags) then [("swarm", "connection")] else []))%list)
  /\ (truthy (f_debug flags) = false ->
      Forall (fun ev => ev <> On "blindPeer" "core-activity" /\ ev <> On "swarm" "connection")
             (trace (snd (main libs flags w initial)))).
Proof.
  split.
  - intros Hok.
    destruct (main_success_trace libs flags w Hok) as [keys [pk [epk [_ [_ [_ [_ [_ [_ ->]]]]]]]]].
    destruct (successful_run_projections libs flags w keys pk epk) as [-> _].
    unfold swarm_wiring.
    destruct (truthy (f_debug flags)), (truthy (f_logStreams flags)); reflexivity.
  - intros Hd. apply main_emits.
    + unfold prelude, register_listeners. rewrite Hd. cbn [when].
      effects; split; discriminate.
    + unfold setup_repl. effects; split; discriminate.
    + unfold bring_up. rewrite Hd. cbn [when]. effects; split; discriminate.
    + unfold after_listening, autodiscovery_guard, setup_instrumentation, setup_auto_shutdown.
      effects; split; discriminate.
Qed.

(** The run without flags. *)
Lemma registered_listeners_witness :
  Forall (fun ev => ev <> On "blindPeer" "core-activity" /\ ev <> On "swarm" "connection")
         (trace (snd (main demo_libs no_flags demo_world initial))).
Proof.
  apply (registered_listeners demo_libs no_flags demo_world). reflexivity.
Defined.


(** The timers of a run.  Without the log-streams flag no interval is set
    and without the auto-shutdown flag no timeout is, in any run.  When the
    command returns it has set the sampler's interval of 30,000 ms if the
    log-streams flag is on, and no other; it has set the shutdown timeout if
    the auto-shutdown flag is on, and no other; and setting that timeout is
    the last thing it did. *)
Theorem timers_of_a_run (libs : Libs) (flags : Flags) (w : World) :
  (truthy (f_logStreams flags) = false ->
   Forall (fun ev => forall ms, ev <> SetInterval ms)
          (trace (snd (main libs flags w initial))))
  /\ (truthy (f_autoShutdownMinutes flags) = false ->
      Forall (fun ev => forall ms, ev <> SetTimeout ms)
             (trace (snd (main libs flags w initial))))
  /\ (fst (main libs flags w initial) = Ok tt ->
      intervals (trace (snd (main libs flags w initial)))
      = (if truthy (f_logStreams flags) then [30000] else [])
      /\ timeouts (trace (snd (main libs flags w initial)))
         = (if truthy (f_autoShutdownMinutes flags)
            then [to_milliseconds (auto_shutdown_delay libs (f_autoShutdownMinutes flags) w)]
            else [])
      /\ (truthy (f_autoShutdownMinutes flags) = true ->
          exists t,
            trace (snd (main libs flags w initial))
            = (t ++ [SetTimeout (to_milliseconds
                                   (auto_shutdown_delay libs (f_autoShutdownMinutes flags) w))])%list)).
Proof.
  split; [|split].
  - intros Hf. apply main_emits.
    + unfold prelude, register_listeners. effects; discriminate.
    + unfold setup_repl. effects; discriminate.
    + unfold bring_up. rewrite Hf. cbn [when]. effects; discriminate.
    + unfold after_listening, autodiscovery_guard, setup_instrumentation, setup_auto_shutdown.
      effects; discriminate.
  - intros Hf. apply main_emits.
    + unfold prelude, register_listeners. effects; discriminate.
    + unfold setup_repl. effects; discriminate.
    + unfold bring_up. effects; discriminate.
    + unfold after_listening, autodiscovery_guard, setup_instrumentation, setup_auto_shutdown.
      rewrite Hf. cbn [when]. effects; discriminate.
  - intros Hok.
    destruct (main_success_trace libs flags w Hok) as [keys [pk [epk [_ [_ [_ [_ [_ [_ ->]]]]]]]]].
    destruct (successful_run_projections libs flags w keys pk epk) as [_ [-> ->]].
    split; [|split].
    + unfold swarm_wiring.
      destruct (truthy (f_debug flags)), (truthy (f_logStreams flags)); reflexivity.
    + unfold auto_shutdown_events.
      destruct (truthy (f_autoShutdownMinutes flags)); reflexivity.
    + intros Hf. unfold successful_run, auto_shutdown_events. rewrite Hf.
      eexists.
      change [?a; ?b] with ([a] ++ [b])%list.
      rewrite !app_assoc. reflexivity.
Qed.

(** The start-up output of the README: with no trusted peer and none of the
    optional features (console, sampler, exporter, auto-shutdown,
    autodiscovery), in a world where the engine starts and nothing else logs
    meanwhile, the command returns and has made exactly six logger calls,
    all at info level: the start, the storage path, the local address, the
    bytes allocated, the public key and the encryption public key. *)
Theorem default_startup_output (libs : Libs) (flags : Flags) (w : World) (pk epk : string) :
  trustedPubKeys (f_trustedPeer flags) = Ok [] ->
  truthy (f_repl flags) = false ->
  truthy (f_logStreams flags) = false ->
  truthy (f_autodiscoveryRpcKey flags) = false ->
  truthy (f_scraperPublicKey flags) = false ->
  truthy (f_autoShutdownMinutes flags) = false ->
  construction w = Ok tt ->
  settles w BlindPeerReady = Ok tt -> meanwhile w BlindPeerReady = [] ->
  settles w BlindPeerListen = Ok tt -> meanwhile w BlindPeerListen = [] ->
  IdEnc.normalize (publicKey w) = Ok pk ->
  IdEnc.normalize (encryptionPublicKey w) = Ok epk ->
  fst (main libs flags w initial) = Ok tt
  /\ logger_calls (trace (snd (main libs flags w initial)))
     = [(Info, Msg "Starting blind peer");
        (Info, Msg ("Using storage '" ++ toStr (storage flags) ++ "'"));
        (Info, Msg ("Blind peer listening, local address is " ++ toStr (localAddress_host w)
                    ++ ":" ++ toStr (localAddress_port w)));
        (Info, Msg ("Bytes allocated: " ++ byteSize libs (bytesAllocated w) ++ " of "
                    ++ byteSize libs (engine_maxBytes w)));
        (Info, Msg ("Listening at " ++ pk));
        (Info, Msg ("Encryption public key is " ++ epk))].
Proof.
  intros Hk Hrepl Hls Had Hsc Hau Hc Hr Hmr Hl Hml Hpk Hepk.
  rewrite main_run, prelude_run, Hk, Hc. cbn [List.length Nat.ltb Nat.leb].
  rewrite setup_repl_run, Hrepl, bring_up_run, Hr, Hl.
  rewrite after_listening_run, Had, setup_instrumentation_run, Hsc, Hpk, Hepk.
  split; [reflexivity|].
  cbn [snd]. rewrite !after_app, trace_after. cbn [trace initial List.app].
  unfold awaiting, swarm_wiring, auto_shutdown_events, engine_construction, storage_log,
    listening_logs, listening_at.
  rewrite Hmr, Hml, Hls, Hau, Hr, Hl.
  destruct (truthy (f_debug flags)); reflexivity.
Qed.

(** The run without flags. *)
Lemma default_startup_output_witness :
  logger_calls (trace (snd (main demo_libs no_flags demo_world initial)))
  = [(Info, Msg "Starting blind peer");
     (Info, Msg "Using storage 'blind-peer'");
     (Info, Msg "Blind peer listening, local address is 10.0.0.214:49741");
     (Info, Msg "Bytes allocated: 0B of 100000000000B");
     (Info, Msg "Listening at yyyoryarywdyqnyjbefoadeqbhebnrounoktcfaadrpbs8y7daxo");
     (Info, Msg "Encryption public key is yyyyyyyyyyyyyyyyyyyyyyyyyyyyyyyyyyyyyyyyyyyyyyyyyyyy")].
Proof.
  apply (default_startup_output demo_libs no_flags demo_world
           "yyyoryarywdyqnyjbefoadeqbhebnrounoktcfaadrpbs8y7daxo"
           "yyyyyyyyyyyyyyyyyyyyyyyyyyyyyyyyyyyyyyyyyyyyyyyyyyyy"); reflexivity.
Defined.

(* ===================================================================== *)
(** ** The listeners: failures *)
(* ===================================================================== *)

Lemma silent_lift_bind {A B} (r : result A) (k : A -> M B) :
  (forall a, silent_on_failure (k a)) -> silent_on_failure (mbind (lift r) k).
Proof.
  intros H st e. unfold mbind, lift. destruct r as [a|e']; [apply H | reflexivity].
Qed.

Lemma silent_log (l : level) (s : string) : silent_on_failure (log l s).
Proof. intros st e H. discriminate. Qed.

Lemma silent_ret {A} (a : A) : silent_on_failure (ret a).
Proof. intros st e H. discriminate. Qed.

Lemma silent_when (c : bool) (m : M unit) :
  silent_on_failure m -> silent_on_failure (when c m).
Proof. destruct c; [auto | intros _; apply silent_ret]. Qed.

(** A [try]/[catch] whose handler only logs does not throw. *)
Lemma silent_try_catch {A} (body : M A) (handler : error -> M A) :
  (forall e st, exists a, fst (handler e st) = Ok a) ->
  silent_on_failure (try_catch body handler).
Proof.
  intros H st e. unfold try_catch. destruct (body st) as [[a|e'] st'].
  - discriminate.
  - destruct (H e' st') as [a Ha]. rewrite Ha. discriminate.
Qed.

Ltac silent :=
  repeat first
    [ progress intros
    | apply silent_lift_bind | apply silent_log | apply silent_ret | apply silent_when
    | apply silent_try_catch; intros; eexists; reflexivity
    | match goal with
      | |- silent_on_failure (if ?c then _ else _) => destruct c
      | |- silent_on_failure (match ?x with _ => _ end) => destruct x
      end ].

(** A listener that throws has logged nothing: whatever event and payload
    it is given, when it throws the trace and [instrumentation] are as
    before.  The one exception is the [connection] listener, which logs
    the opened connection before it registers on the connection. *)
Theorem failing_listener_logs_nothing (libs : Libs) (debug : bool) (w : World)
    (e : emission) :
  (forall conn peerInfo, e <> Connection conn peerInfo) ->
  silent_on_failure (handle libs debug w e).
Proof.
  intros Hc. destruct e; cbn [handle];
    try (exfalso; eapply Hc; reflexivity);
    unfold on_flush_error, on_muxer_paired, on_muxer_error, on_add_cores_received,
      on_add_cores_done, on_add_new_core, on_delete_blocked, on_delete_core,
      on_delete_core_end, on_downgrade_announce, on_add_cores_downgrade_announce,
      on_announce_core, on_announced_initial_cores, on_core_downloaded, on_core_append,
      on_core_client_mode_changed, on_gc_start, on_gc_done, on_core_activity,
      on_invalid_request, on_ban;
    silent.
Qed.

(** A [muxer-paired] event without a stream. *)
Lemma failing_listener_witness :
  snd (handle demo_libs false demo_world (MuxerPaired VUndefined) initial) = initial.
Proof.
  apply (failing_listener_logs_nothing demo_libs false demo_world (MuxerPaired VUndefined))
    with (e := TypeError "Cannot read properties of undefined (reading 'remotePublicKey')").
  - discriminate.
  - reflexivity.
Defined.

(* ===================================================================== *)
(** ** The sampler: a stream that cannot be read *)
(* ===================================================================== *)

Lemma sample_loop_stops (libs : Libs) (before : list value) (bad : value)
    (rest : list value) (e : error) :
  Forall (readable libs) before ->
  unreadable libs bad e ->
  forall acc st,
    sample_loop libs (before ++ bad :: rest) acc st
    = (Throw e, after st (List.map warn (List.flat_map (warning_for libs) before))).
Proof.
  intros Hb Hbad. induction Hb as [|s more [n [En Hw]] _ IH]; intros acc st.
  - cbn [List.app sample_loop List.flat_map List.map]. rewrite after_nil.
    destruct Hbad as [Ep | [n [Ep [Hn Ew]]]].
    + rewrite Ep, mbind_lift_throw. reflexivity.
    + rewrite Ep, mbind_lift_ok, Hn, Ew, mbind_lift_throw. reflexivity.
  - cbn [List.app sample_loop List.flat_map].
    assert (Hf : warning_for libs s
                 = if at_least_100 n
                   then match stream_warning libs s n with
                        | Ok msg => [msg]
                        | Throw _ => []
                        end
                   else [])
      by (unfold warning_for; rewrite En; reflexivity).
    rewrite Hf, En, mbind_lift_ok. destruct (at_least_100 n).
    + destruct (Hw eq_refl) as [msg Em]. rewrite Em, mbind_lift_ok, mbind_log.
      fold (after st [Log Warn (Msg msg)]). rewrite IH, after_app. reflexivity.
    + apply IH.
Qed.

(** A tick stops at the first stream whose inspection throws: the streams
    before it are warned about as usual, the exception is reported by a
    warning, and neither the streams after it nor the rollup are logged,
    however many streams were counted and however the enumeration ends. *)
Theorem sampler_stops_at_unreadable_stream (libs : Libs) (before : list value)
    (bad : value) (rest : list value) (ending : option error) (e : error) (st : state) :
  Forall (readable libs) before ->
  unreadable libs bad e ->
  log_streams_tick libs (mkEnumeration (before ++ bad :: rest) ending) st
  = (Ok tt,
     after st (List.map warn (List.flat_map (warning_for libs) before)
               ++ [warn ("logStreams errored unexpectedly: " ++ stack libs e)])).
Proof.
  intros Hb Hbad. unfold log_streams_tick, try_catch, mbind. cbn [yielded failure].
  rewrite (sample_loop_stops libs before bad rest e Hb Hbad).
  rewrite log_after, after_app. reflexivity.
Qed.

(** A stream with 100 pending writes, an [undefined] entry, and a stream
    with 200 pending writes that is never looked at. *)
Lemma sampler_stops_witness :
  log_streams_tick demo_libs
    (mkEnumeration ([raw_stream 7 100 0] ++ VUndefined :: [raw_stream 9 200 0]) None) initial
  = (Ok tt,
     after initial
       (List.map warn (List.flat_map (warning_for demo_libs) [raw_stream 7 100 0])
        ++ [warn ("logStreams errored unexpectedly: "
                  ++ stack demo_libs
                       (TypeError "Cannot read properties of undefined (reading '_wreqs')"))])).
Proof.
  apply (sampler_stops_at_unreadable_stream demo_libs [raw_stream 7 100 0] VUndefined
           [raw_stream 9 200 0] None
           (TypeError "Cannot read properties of undefined (reading '_wreqs')") initial).
  - constructor; [|constructor].
    exists (Some (inject_Z 100 - inject_Z 0)%Q). split; [reflexivity|].
    intros _. eexists. reflexivity.
  - left. reflexivity.
Defined.

(* ===================================================================== *)
(** ** The graceful-exit hook: how it ends *)
(* ===================================================================== *)

Lemma goodbye_callback_outcome (w : World) (st : state) :
  fst (goodbye_callback w st)
  = match instrumentation st, settles w InstrumentationClose with
    | Some _, Throw e => Throw e
    | _, _ => settles w BlindPeerClose
    end.
Proof.
  unfold goodbye_callback, await, logged, read_instrumentation, when, mbind, log, emit,
    throw, lift, ret.
  destruct st as [t i]; cbn [trace instrumentation].
  destruct i as [i|];
    destruct (settles w InstrumentationClose) as [[]|e1];
    destruct (settles w BlindPeerClose) as [[]|e2]; reflexivity.
Qed.

(** The hook stops at the first [close()] that rejects and throws its
    rejection.  When closing the exporter fails, the engine's [close()] is
    never called; when closing the engine fails, the last event is that
    rejection; when both succeed the hook returns, its last call being the
    log of the completed shutdown. *)
Theorem exit_hook_stops_at_first_failure (w : World) (st : state) :
  (forall i e,
     instrumentation st = Some i ->
     settles w InstrumentationClose = Throw e ->
     goodbye_callback w st
     = (Throw e, after st (Log Info (Msg "Closing instrumentation")
                           :: awaiting w InstrumentationClose))
     /\ Forall (fun ev => ~ calls_engine ev)
               (Log Info (Msg "Closing instrumentation") :: awaiting w InstrumentationClose))
  /\ (forall e,
        instrumentation st = None \/ settles w InstrumentationClose = Ok tt ->
        settles w BlindPeerClose = Throw e ->
        exists evs,
          goodbye_callback w st = (Throw e, after st (evs ++ [Settled BlindPeerClose false])))
  /\ (instrumentation st = None \/ settles w InstrumentationClose = Ok tt ->
      settles w BlindPeerClose = Ok tt ->
      exists evs,
        goodbye_callback w st
        = (Ok tt, after st (evs ++ [Log Info (Msg "Shut down blind peer")]))).
Proof.
  pose proof (goodbye_callback_outcome w st) as Ho.
  pose proof (goodbye_callback_events w st) as He.
  destruct (goodbye_callback w st) as [r st1]. cbn [fst snd] in Ho, He. subst r st1.
  split; [|split].
  - intros i e Hi Hs. rewrite Hi. cbn [shutdown_events]. rewrite Hs. cbn [settled_ok].
    rewrite app_nil_r. split; [reflexivity|].
    constructor; [intros H; exact H|].
    apply awaiting_events; intros; intros H; exact H.
  - intros e Hc Hs. rewrite Hs.
    assert (Hr : match instrumentation st, settles w InstrumentationClose with
                 | Some _, Throw e0 => Throw e0
                 | _, _ => @Throw unit e
                 end = Throw e)
      by (destruct Hc as [-> | ->]; [reflexivity | destruct (instrumentation st); reflexivity]).
    rewrite Hr.
    assert (Hev : exists evs,
              shutdown_events w (instrumentation st)
              = (evs ++ [Settled BlindPeerClose false])%list).
    { unfold shutdown_events, engine_shutdown. unfold awaiting at 2 3. rewrite Hs.
      cbn [settled_ok]. rewrite !app_nil_r.
      destruct Hc as [-> | ->]; [|destruct (instrumentation st)]; cbn [settled_ok];
        eexists; rewrite ?app_comm_cons, ?app_assoc; reflexivity. }
    destruct Hev as [evs ->]. exists evs. reflexivity.
  - intros Hc Hs. rewrite Hs.
    assert (Hr : match instrumentation st, settles w InstrumentationClose with
                 | Some _, Throw e0 => Throw e0
                 | _, _ => Ok tt
                 end = Ok tt)
      by (destruct Hc as [-> | ->]; [reflexivity | destruct (instrumentation st); reflexivity]).
    rewrite Hr.
    assert (Hev : exists evs,
              shutdown_events w (instrumentation st)
              = (evs ++ [Log Info (Msg "Shut down blind peer")])%list).
    { unfold shutdown_events, engine_shutdown. rewrite Hs. cbn [settled_ok].
      destruct Hc as [-> | ->]; [|destruct (instrumentation st)]; cbn [settled_ok];
        eexists; rewrite ?app_comm_cons, ?app_assoc; reflexivity. }
    destruct Hev as [evs ->]. exists evs. reflexivity.
Qed.

(* ===================================================================== *)
(** ** Configuration: how the numeric flags are read *)
(* ===================================================================== *)












(* ===================================================================== *)
(** ** The keys handed to the collaborators *)
(* ===================================================================== *)

Lemma quintets_length (s : string) (qs : list N) :
  Z32.quintets s = Ok qs -> List.length qs = String.length s.
Proof.
  revert qs. induction s as [|c s IH]; intros qs H; cbn [Z32.quintets] in H.
  - injection H as <-. reflexivity.
  - destruct (index_of c Z32.ALPHABET); [|discriminate].
    destruct (Z32.quintets s) as [qs'|e]; [|discriminate].
    cbn [JS.bind] in H. injection H as <-. cbn [List.length String.length].
    f_equal. apply IH. reflexivity.
Qed.

Lemma decode_quintets_52 (qs : list N) :
  List.length qs = 52%nat -> List.length (Z32.decode_quintets qs) = 32%nat.
Proof.
  intros H.
  do 52 (destruct qs as [|? qs]; [discriminate H|]).
  destruct qs; [reflexivity | discriminate H].
Qed.

(** Whatever [idEnc.decode] accepts, it returns 32 bytes. *)
Lemma decode_length (id : value) (b : list byte) :
  IdEnc.decode id = Ok b -> List.length b = 32%nat.
Proof.
  unfold IdEnc.decode. destruct id; try discriminate.
  - destruct (String.length (IdEnc.strip_pear s) =? 52)%nat eqn:E52.
    + unfold Z32.decode. destruct (Z32.quintets (IdEnc.strip_pear s)) as [qs|e] eqn:Eq;
        [|discriminate].
      cbn [JS.bind]. intros H. injection H as <-.
      apply decode_quintets_52. rewrite (quintets_length _ _ Eq).
      apply Nat.eqb_eq. exact E52.
    + destruct (String.length (IdEnc.strip_pear s) =? 64)%nat; [|discriminate].
      destruct (List.length (B4a.from_hex (IdEnc.strip_pear s)) =? 32)%nat eqn:E32;
        [|discriminate].
      intros H. injection H as <-. apply Nat.eqb_eq. exact E32.
  - destruct (List.length b0 =? 32)%nat eqn:E32; [|discriminate].
    intros H. injection H as <-. apply Nat.eqb_eq. exact E32.
Qed.

Lemma decode_all_lengths (ids : list value) (keys : list (list byte)) :
  decode_all ids = Ok keys -> Forall (fun k => List.length k = 32%nat) keys.
Proof.
  revert keys. induction ids as [|id ids IH]; intros keys H; cbn [decode_all] in H.
  - injection H as <-. constructor.
  - destruct (IdEnc.decode id) as [b|e] eqn:Eb; [|discriminate].
    destruct (decode_all ids) as [bs|e]; [|discriminate].
    cbn [JS.bind] in H. injection H as <-.
    constructor; [exact (decode_length _ _ Eb) | apply IH; reflexivity].
Qed.

Lemma trustedPubKeys_lengths (v : value) (keys : list (list byte)) :
  trustedPubKeys v = Ok keys -> Forall (fun k => List.length k = 32%nat) keys.
Proof.
  unfold trustedPubKeys. destruct (or_else v (VArr [])); try discriminate.
  apply decode_all_lengths.
Qed.

(** In every run, every key that the command hands to a collaborator is 32
    bytes long: the trusted keys given to the engine, the seed given to the
    console, the scraper's public key and secret given to the exporter. *)
Theorem keys_handed_over_are_32_bytes (libs : Libs) (flags : Flags) (w : World) :
  Forall keys_of_32_bytes (trace (snd (main libs flags w initial))).
Proof.
  apply main_emits.
  - intros st. rewrite prelude_run.
    destruct (trustedPubKeys (f_trustedPeer flags)) as [keys|e] eqn:Ek.
    + pose proof (trustedPubKeys_lengths _ _ Ek) as Hk.
      assert (Hl : Forall keys_of_32_bytes (listeners (truthy (f_debug flags))))
        by (destruct (truthy (f_debug flags)); repeat constructor).
      destruct (construction w) as [[]|e];
        [destruct (0 <? List.length keys)%nat;
         [destruct (normalize_all (engine_trustedPubKeys w))|]|];
        eexists; (split; [cbn [snd]; apply trace_after|]);
        unfold engine_construction, storage_log, trusted_keys_log;
        repeat first [ exact Hl | exact Hk | exact I
                     | apply Forall_app; split
                     | apply Forall_cons | apply Forall_nil ].
    + eexists. split; [cbn [snd]; apply trace_after | repeat constructor].
  - intros st. rewrite setup_repl_run.
    destruct (truthy (f_repl flags)).
    + destruct (IdEnc.decode (f_repl flags)) as [seed|e] eqn:Es.
      * eexists. split; [cbn [snd]; apply trace_after|].
        unfold repl_events. repeat constructor. exact (decode_length _ _ Es).
      * exists []. split; [cbn [snd]; rewrite app_nil_r; reflexivity | constructor].
    + exists []. split; [cbn [snd]; rewrite app_nil_r; reflexivity | constructor].
  - unfold bring_up. effects.
  - intros st. rewrite after_listening_run, setup_instrumentation_run.
    assert (Hc : forall pk epk,
              Forall keys_of_32_bytes
                     (listening_at pk epk ++ auto_shutdown_events libs flags w))
      by (intros; unfold listening_at, auto_shutdown_events; all_events).
    assert (Hone : forall (l : level) (s : string), Forall keys_of_32_bytes [Log l (Msg s)])
      by (intros; repeat constructor).
    destruct (truthy (f_autodiscoveryRpcKey flags));
      [exists []; split; [cbn [snd]; rewrite app_nil_r; reflexivity | constructor]|].
    destruct (truthy (f_scraperPublicKey flags)).
    + destruct (IdEnc.decode (f_scraperPublicKey flags)) as [pk0|e] eqn:Epk;
        [|eexists; split; [cbn [snd]; apply trace_after | apply Hone]].
      destruct (IdEnc.decode (f_scraperSecret flags)) as [secret|e] eqn:Esec;
        [|eexists; split; [cbn [snd]; apply trace_after | apply Hone]].
      destruct (resolve_alias libs (f_scraperAlias flags) w) as [alias|e];
        [|eexists; split; [cbn [snd]; apply trace_after | apply Hone]].
      assert (Hx : Forall keys_of_32_bytes
                     (exporter_setup w (mkInstrumentation pk0 alias secret))).
      { unfold exporter_setup. apply Forall_app. split.
        - repeat constructor; cbn; [exact (decode_length _ _ Epk) | exact (decode_length _ _ Esec)].
        - apply awaiting_events; intros; exact I. }
      destruct (settles w InstrumentationReady) as [[]|e];
        [destruct (IdEnc.normalize (publicKey w));
         [destruct (IdEnc.normalize (encryptionPublicKey w))|]|];
        cbn [snd trace after]; rewrite <- ?app_assoc;
        eexists; (split; [reflexivity|]);
        repeat first [ exact Hx | apply Hc | apply Hone | apply Forall_app; split ].
    + destruct (IdEnc.normalize (publicKey w));
        [destruct (IdEnc.normalize (encryptionPublicKey w))|];
        first [ exists []; split; [cbn [snd]; rewrite app_nil_r; reflexivity | constructor]
              | eexists; split; [cbn [snd]; apply trace_after | first [apply Hc | apply Hone]] ].
Qed.

(* ===================================================================== *)
(** ** The trusted keys in the log *)
(* ===================================================================== *)

Lemma normalize_all_buffers (ks : list (list byte)) :
  Forall (fun k => List.length k = 32%nat) ks ->
  normalize_all (List.map VBuf ks) = Ok (List.map Z32.encode ks).
Proof.
  induction 1 as [|k ks Hk _ IH]; [reflexivity|].
  cbn [List.map normalize_all]. rewrite (normalize_key k Hk), IH. reflexivity.
Qed.

Lemma logger_calls_listeners (debug : bool) : logger_calls (listeners debug) = [].
Proof. destruct debug; reflexivity. Qed.

(** When the engine holds the trusted keys it was constructed with, the
    prelude returns, and its logger calls are: the start, the storage path,
    and, only if at least one trusted peer was given, one call that lists
    the trusted keys in z-base-32, each on a line of its own after a dash. *)
Theorem trusted_keys_are_listed (flags : Flags) (w : World) (keys : list (list byte)) :
  trustedPubKeys (f_trustedPeer flags) = Ok keys ->
  construction w = Ok tt ->
  engine_trustedPubKeys w = List.map VBuf keys ->
  fst (prelude flags w initial) = Ok tt
  /\ logger_calls (trace (snd (prelude flags w initial)))
     = ((Info, Msg "Starting blind peer")
        :: (Info, Msg ("Using storage '" ++ toStr (storage flags) ++ "'"))
        :: match keys with
           | [] => []
           | _ :: _ =>
               [(Info, Msg ("Trusted public keys:" ++ nl ++ "  -"
                            ++ join (nl ++ "  -") (List.map Z32.encode keys)))]
           end)%list.
Proof.
  intros Hk Hc He. rewrite prelude_run, Hk, Hc, He.
  rewrite (normalize_all_buffers keys (trustedPubKeys_lengths _ _ Hk)).
  destruct keys as [|k keys]; cbn [List.length Nat.ltb Nat.leb fst snd];
    (split; [reflexivity|]);
    rewrite trace_after; cbn [trace initial List.app];
    unfold engine_construction, storage_log, trusted_keys_log;
    rewrite !logger_calls_app, logger_calls_listeners; reflexivity.
Qed.

(** Two trusted peers. *)
Lemma trusted_keys_are_listed_witness :
  logger_calls
    (trace (snd (prelude
                   (with_config VUndefined VUndefined
                      (VArr [VStr (B4a.hex zero_key); VBuf key_0_31]) VUndefined VUndefined)
                   (mkWorld (Ok tt) (fun _ => Ok tt) (fun _ => []) (1 # 2)
                      [VBuf zero_key; VBuf key_0_31] VUndefined VUndefined VUndefined
                      VUndefined VUndefined VUndefined VUndefined)
                   initial)))
  = [(Info, Msg "Starting blind peer");
     (Info, Msg "Using storage 'blind-peer'");
     (Info, Msg ("Trusted public keys:" ++ nl
                 ++ "  -yyyyyyyyyyyyyyyyyyyyyyyyyyyyyyyyyyyyyyyyyyyyyyyyyyyy" ++ nl
                 ++ "  -yyyoryarywdyqnyjbefoadeqbhebnrounoktcfaadrpbs8y7daxo"))].
Proof.
  apply (trusted_keys_are_listed
           (with_config VUndefined VUndefined
              (VArr [VStr (B4a.hex zero_key); VBuf key_0_31]) VUndefined VUndefined)
           (mkWorld (Ok tt) (fun _ => Ok tt) (fun _ => []) (1 # 2)
              [VBuf zero_key; VBuf key_0_31] VUndefined VUndefined VUndefined
              VUndefined VUndefined VUndefined VUndefined)
           [zero_key; key_0_31]); reflexivity.
Defined.

(* ===================================================================== *)
(** ** The listeners of a connection *)
(* ===================================================================== *)

(** The test [err.code === 'ECONNRESET'] as a boolean. *)
Lemma econnreset_cases {A} (code : value) (a b : A) :
  match code with
  | VStr "ECONNRESET" => a
  | _ => b
  end
  = match code with
    | VStr s => if String.eqb s "ECONNRESET" then a else b
    | _ => b
    end.
Proof.
  destruct code as [| | | |s| | |]; try reflexivity.
  do 10 (destruct s as [|[[] [] [] [] [] [] [] []] s]; try reflexivity).
  destruct s; reflexivity.
Qed.

(** The listeners of a connection.  The [close] listener logs the closed
    connection at debug level.  The [error] listener never throws for an
    error object: it logs the error's stack once, at debug level when the
    error's code is [ECONNRESET] and at info level for every other error. *)
Theorem connection_error_level (key : string) (err : value) (st : state) :
  err <> VUndefined -> err <> VNull ->
  on_conn_close key st = (Ok tt, after st [Log Debug (Msg ("Closed connection to " ++ key))])
  /\ exists code stack_value l,
       get err "code" = Ok code
       /\ get err "stack" = Ok stack_value
       /\ on_conn_error key err st
          = (Ok tt, after st [Log l (Msg ("Connection error with " ++ key ++ ": "
                                          ++ toStr stack_value))])
       /\ (code = VStr "ECONNRESET" -> l = Debug)
       /\ (code <> VStr "ECONNRESET" -> l = Info).
Proof.
  intros Hu Hn. split; [reflexivity|].
  assert (Hg : forall k, exists v, get err k = Ok v)
    by (intros k; destruct err; try congruence; eexists; reflexivity).
  destruct (Hg "code") as [code Ec]. destruct (Hg "stack") as [sv Es].
  exists code, sv. unfold on_conn_error. rewrite Ec, mbind_lift_ok, econnreset_cases.
  destruct code as [| | | |s| | |];
    try (exists Info; rewrite Es, mbind_lift_ok, log_after;
         do 3 (split; [reflexivity|]); split; [discriminate | reflexivity]).
  destruct (String.eqb s "ECONNRESET") eqn:E.
  - apply String.eqb_eq in E. subst s.
    exists Debug. rewrite Es, mbind_lift_ok, log_after.
    do 3 (split; [reflexivity|]).
    split; [reflexivity | intros H; exfalso; apply H; reflexivity].
  - apply String.eqb_neq in E.
    exists Info. rewrite Es, mbind_lift_ok, log_after.
    do 3 (split; [reflexivity|]).
    split; [intros H; exfalso; apply E; congruence | reflexivity].
Qed.

(** A connection reset, and a timeout. *)
Lemma connection_error_level_witness :
  on_conn_error "peer" (VObj [("code", VStr "ECONNRESET"); ("stack", VStr "Error: reset")])
    initial
  = (Ok tt, after initial [Log Debug (Msg "Connection error with peer: Error: reset")])
  /\ on_conn_error "peer" (VObj [("code", VStr "ETIMEDOUT"); ("stack", VStr "Error: timeout")])
       initial
     = (Ok tt, after initial [Log Info (Msg "Connection error with peer: Error: timeout")]).
Proof.
  split.
  - destruct (connection_error_level "peer"
                (VObj [("code", VStr "ECONNRESET"); ("stack", VStr "Error: reset")]) initial)
      as [_ [code [sv [l [Ec [Es [E [Hd Hi]]]]]]]]; [discriminate | discriminate |].
    cbn in Ec, Es. injection Ec as <-. injection Es as <-.
    rewrite (Hd eq_refl) in E. exact E.
  - destruct (connection_error_level "peer"
                (VObj [("code", VStr "ETIMEDOUT"); ("stack", VStr "Error: timeout")]) initial)
      as [_ [code [sv [l [Ec [Es [E [Hd Hi]]]]]]]]; [discriminate | discriminate |].
    cbn in Ec, Es. injection Ec as <-. injection Es as <-.
    rewrite Hi in E by discriminate. exact E.
Defined.

(* ===================================================================== *)
(** ** Keys in hex and in z-base-32: decoding what was encoded *)
(* ===================================================================== *)

Lemma byte_bits_high (x : byte) (k : N) :
  (8 <= k)%N -> N.testbit (Byte.to_N x) k = false.
Proof.
  intros Hk. pose proof (Byte.to_N_bounded x) as Hx.
  destruct (N.eq_dec (Byte.to_N x) 0) as [->|Hz]; [apply N.bits_0|].
  apply N.bits_above_log2.
  apply N.lt_le_trans with (m := 8%N); [|exact Hk].
  apply N.log2_lt_pow2; [lia|]. change (2 ^ 8)%N with 256%N. lia.
Qed.

Lemma small_index (k : N) :
  (k < 8)%N ->
  k = 0%N \/ k = 1%N \/ k = 2%N \/ k = 3%N \/ k = 4%N \/ k = 5%N \/ k = 6%N \/ k = 7%N.
Proof. lia. Qed.

(** A number whose low eight bits are those of a byte is sent to that byte
    by a byte store. *)
Lemma byte_of_N_bits (n : N) (x : byte) :
  (forall k, (k < 8)%N -> N.testbit n k = N.testbit (Byte.to_N x) k) ->
  byte_of_N n = x.
Proof.
  intros H. unfold byte_of_N.
  assert (E : N.land n 255 = Byte.to_N x).
  { apply N.bits_inj. intros k. rewrite N.land_spec.
    destruct (N.lt_ge_cases k 8) as [Hk|Hk].
    - rewrite (H k Hk).
      destruct (small_index k Hk) as [->|[->|[->|[->|[->|[->|[->| ->]]]]]]];
        apply andb_true_r.
    - rewrite (byte_bits_high x k Hk).
      assert (H255 : N.testbit 255 k = false).
      { apply N.bits_above_log2. change (N.log2 255) with 7%N. lia. }
      rewrite H255. apply andb_false_r. }
  rewrite E, Byte.of_to_N. reflexivity.
Qed.

(** The bits of an expression built from the bytes of a key, at a given
    index. *)
Ltac bit_index :=
  repeat match goal with
         | |- context [(?a + ?b)%N] =>
             let v := eval vm_compute in (a + b)%N in change (a + b)%N with v
         | |- context [(?a - ?b)%N] =>
             let v := eval vm_compute in (a - b)%N in change (a - b)%N with v
         end.

Ltac bits :=
  repeat first
    [ rewrite N.lor_spec | rewrite N.land_spec | rewrite N.shiftr_spec'
    | rewrite N.shiftl_spec_low by lia
    | rewrite N.shiftl_spec_high' by lia
    | rewrite N.bits_0 ];
  bit_index;
  repeat match goal with
         | |- context [N.testbit (Byte.to_N ?x) ?k] =>
             rewrite (byte_bits_high x k) by lia
         | |- context [N.testbit 31 ?k] =>
             let v := eval vm_compute in (N.testbit 31 k) in
             change (N.testbit 31 k) with v
         end;
  rewrite ?andb_true_r, ?andb_false_r, ?orb_false_r, ?orb_false_l;
  try reflexivity.

Ltac byte_store :=
  apply byte_of_N_bits;
  let k := fresh "k" in
  let Hk := fresh "Hk" in
  intros k Hk;
  destruct (small_index k Hk) as [->|[->|[->|[->|[->|[->|[->| ->]]]]]]]; bits.

(** A number with no bit at index 5 or above is a quintet. *)
Lemma quintet_bound (q : N) :
  (forall k, (5 <= k)%N -> N.testbit q k = false) -> (q < 32)%N.
Proof.
  intros H.
  assert (E : N.land q (N.ones 5) = q).
  { apply N.bits_inj. intros k. rewrite N.land_spec.
    destruct (N.lt_ge_cases k 5) as [Hk|Hk].
    - assert (Hc : k = 0%N \/ k = 1%N \/ k = 2%N \/ k = 3%N \/ k = 4%N) by lia.
      destruct Hc as [->|[->|[->|[->| ->]]]]; apply andb_true_r.
    - rewrite (H k Hk). reflexivity. }
  rewrite <- E, N.land_ones. apply N.mod_lt. discriminate.
Qed.

Lemma index_of_char_at (q : N) :
  (q < 32)%N -> index_of (char_at Z32.ALPHABET q) Z32.ALPHABET = Some q.
Proof.
  intros H.
  assert (Hc : exists n, (n < 32)%nat /\ q = N.of_nat n)
    by (exists (N.to_nat q); split; lia).
  destruct Hc as [n [Hn ->]].
  do 32 (destruct n as [|n]; [reflexivity|]). lia.
Qed.

Lemma quintets_char (q : N) (rest : string) (qs : list N) :
  (q < 32)%N -> Z32.quintets rest = Ok qs ->
  Z32.quintets (String (char_at Z32.ALPHABET q) rest) = Ok (q :: qs).
Proof.
  intros Hq Hr. cbn [Z32.quintets]. rewrite (index_of_char_at q Hq), Hr. reflexivity.
Qed.

Ltac quintet :=
  apply quintet_bound;
  let k := fresh "k" in
  let Hk := fresh "Hk" in
  intros k Hk;
  repeat first
    [ rewrite N.lor_spec | rewrite N.land_spec | rewrite N.shiftr_spec'
    | rewrite N.bits_0 ];
  repeat match goal with
         | |- context [N.testbit (Byte.to_N ?x) ?i] =>
             rewrite (byte_bits_high x i) by lia
         end;
  assert (H31 : N.testbit 31 k = false)
    by (apply N.bits_above_log2; change (N.log2 31) with 4%N; lia);
  rewrite ?H31, ?andb_false_r; reflexivity.

(** Decoding the z-base-32 text of 32 bytes gives the bytes back. *)
Lemma z32_decode_encode (k : list byte) :
  List.length k = 32%nat -> Z32.decode (Z32.encode k) = Ok k.
Proof.
  intros H.
  do 32 (destruct k as [|? k]; [discriminate H|]).
  destruct k; [|discriminate H]. clear H.
  cbv -[N.land N.lor N.shiftr N.shiftl Byte.to_N char_at Z32.ALPHABET Z32.decode].
  unfold Z32.decode.
  match goal with
  | |- JS.bind (Z32.quintets ?s) _ = Ok ?bytes =>
      assert (Hq : exists qs, Z32.quintets s = Ok qs /\ Z32.decode_quintets qs = bytes)
  end.
  { eexists. split.
    - repeat (apply quintets_char; [quintet|]). reflexivity.
    - cbn [Z32.decode_quintets]. unfold Z32.b1, Z32.b2, Z32.b3, Z32.b4, Z32.b5.
      repeat match goal with |- _ :: _ = _ :: _ => f_equal end; byte_store. }
  destruct Hq as [qs [E1 E2]]. rewrite E1. cbn [JS.bind]. rewrite E2. reflexivity.
Qed.

Lemma hex_byte (b : byte) :
  B4a.hex_value (char_at B4a.hex_digits (N.shiftr (Byte.to_N b) 4))
  = Some (N.shiftr (Byte.to_N b) 4)
  /\ B4a.hex_value (char_at B4a.hex_digits (N.land (Byte.to_N b) 15))
     = Some (N.land (Byte.to_N b) 15)
  /\ byte_of_N (16 * N.shiftr (Byte.to_N b) 4 + N.land (Byte.to_N b) 15) = b.
Proof. destruct b; repeat split. Qed.

(** Reading the hex text of a buffer gives the buffer back. *)
Lemma from_hex_hex (k : list byte) : B4a.from_hex (B4a.hex k) = k.
Proof.
  induction k as [|b k IH]; [reflexivity|].
  cbn [B4a.hex B4a.from_hex].
  destruct (hex_byte b) as [-> [-> ->]]. rewrite IH. reflexivity.
Qed.

Lemma char_at_not_colon (q : N) : char_at Z32.ALPHABET q <> ":"%char.
Proof.
  unfold char_at. generalize (N.to_nat q). intros n.
  do 32 (destruct n as [|n]; [discriminate|]). discriminate.
Qed.

Lemma prefix_pear_get (s : string) :
  String.prefix "pear://" s = true -> String.get 4 s = Some ":"%char.
Proof.
  intros H.
  do 5 (destruct s as [|? s]; cbn [String.prefix] in H;
        [ repeat match type of H with
                 | (if ?d then _ else _) = true => destruct d; [|discriminate H]
                 end; discriminate H
        | ]).
  repeat match type of H with
         | (if ?d then _ else _) = true => destruct d as [<-|]; [|discriminate H]
         end.
  reflexivity.
Qed.

Lemma strip_pear_hex (k : list byte) : IdEnc.strip_pear (B4a.hex k) = B4a.hex k.
Proof.
  unfold IdEnc.strip_pear. destruct k as [|b k]; [reflexivity|].
  cbn [B4a.hex].
  assert (H : forall rest,
            String.prefix "pear://"
              (String (char_at B4a.hex_digits (N.shiftr (Byte.to_N b) 4)) rest) = false)
    by (intros rest; destruct b; reflexivity).
  rewrite H. reflexivity.
Qed.

Lemma strip_pear_z32 (k : list byte) :
  List.length k = 32%nat -> IdEnc.strip_pear (Z32.encode k) = Z32.encode k.
Proof.
  intros H. unfold IdEnc.strip_pear.
  destruct (String.prefix "pear://" (Z32.encode k)) eqn:E; [exfalso|reflexivity].
  apply prefix_pear_get in E.
  do 32 (destruct k as [|? k]; [discriminate H|]).
  destruct k; [|discriminate H]. clear H.
  cbv -[N.land N.lor N.shiftr N.shiftl Byte.to_N char_at Z32.ALPHABET] in E.
  injection E as E. exact (char_at_not_colon _ E).
Qed.

(** A key given in hex or in z-base-32 is read back as the same 32 bytes,
    and its z-base-32 text is what every rendering of it gives. *)
Lemma decode_hex (k : list byte) :
  List.length k = 32%nat -> IdEnc.decode (VStr (B4a.hex k)) = Ok k.
Proof.
  intros H. unfold IdEnc.decode. rewrite strip_pear_hex, length_hex, H.
  cbn [Nat.mul Nat.add Nat.eqb]. rewrite from_hex_hex, H. reflexivity.
Qed.

Lemma decode_z32 (k : list byte) :
  List.length k = 32%nat -> IdEnc.decode (VStr (Z32.encode k)) = Ok k.
Proof.
  intros H. unfold IdEnc.decode.
  rewrite (strip_pear_z32 k H), (length_normalized k H). cbn [Nat.eqb].
  apply z32_decode_encode. exact H.
Qed.

(** Key texts round-trip.  A 32-byte key given to [--trusted-peer] in hex
    or in z-base-32 is handed to the engine as the same 32 bytes.  And what
    [streamToStr] renders is the canonical text of a 32-byte key, 52
    characters long: given back as [--trusted-peer] it is read as the key
    that was rendered, and rendering it again gives the same text. *)
Theorem key_texts_round_trip :
  (forall k, List.length k = 32%nat ->
     trustedPubKeys (VArr [VStr (B4a.hex k)]) = Ok [k]
     /\ trustedPubKeys (VArr [VStr (Z32.encode k)]) = Ok [k]
     /\ streamToStr (stream_of k) = Ok (Z32.encode k))
  /\ (forall stream t,
        streamToStr stream = Ok t ->
        exists k,
          List.length k = 32%nat
          /\ t = Z32.encode k
          /\ String.length t = 52%nat
          /\ trustedPubKeys (VArr [VStr t]) = Ok [k]
          /\ streamToStr (VObj [("remotePublicKey", VStr t)]) = Ok t).
Proof.
  split.
  - intros k H. unfold trustedPubKeys. cbn [or_else truthy decode_all].
    rewrite (decode_hex k H), (decode_z32 k H). repeat split.
    apply streamToStr_key. exact H.
  - intros stream t H. unfold streamToStr in H.
    destruct (get stream "remotePublicKey") as [v|e]; [|discriminate].
    cbn [JS.bind] in H. unfold IdEnc.normalize in H.
    destruct (IdEnc.decode v) as [k|e] eqn:Ek; [|discriminate].
    pose proof (decode_length v k Ek) as Hk.
    cbn [JS.bind IdEnc.encode] in H. rewrite Hk in H. cbn [Nat.eqb JS.bind] in H.
    injection H as <-.
    exists k. split; [exact Hk|]. split; [reflexivity|].
    split; [apply length_normalized; exact Hk|].
    split.
    + unfold trustedPubKeys. cbn [or_else truthy decode_all].
      rewrite (decode_z32 k Hk). reflexivity.
    + unfold streamToStr. cbn [get lookup String.eqb Ascii.eqb Bool.eqb JS.bind].
      unfold IdEnc.normalize. rewrite (decode_z32 k Hk).
      cbn [JS.bind IdEnc.encode]. rewrite Hk. reflexivity.
Qed.

(** The key of bytes 0 to 31, in both notations. *)
Lemma key_texts_round_trip_witness :
  trustedPubKeys
    (VArr [VStr "000102030405060708090a0b0c0d0e0f101112131415161718191a1b1c1d1e1f"])
  = Ok [key_0_31]
  /\ trustedPubKeys (VArr [VStr "yyyoryarywdyqnyjbefoadeqbhebnrounoktcfaadrpbs8y7daxo"])
     = Ok [key_0_31].
Proof.
  destruct key_texts_round_trip as [H _].
  destruct (H key_0_31 eq_refl) as [H1 [H2 _]].
  split; [exact H1 | exact H2].
Defined.

(* ===================================================================== *)
(** ** The auto-shutdown flag is not validated *)
(* ===================================================================== *)

Lemma negative_delay (m r : Q) :
  (m < 0)%Q -> (0 <= r)%Q -> (m * (1 + r / 5) <= m)%Q.
Proof.
  intros Hm Hr.
  assert (Ht : (0 <= r / 5)%Q) by (apply Qle_shift_div_l; lra).
  assert (Hp : (0 <= (- m) * (r / 5))%Q) by (apply Qmult_le_0_compat; lra).
  setoid_replace (m * (1 + r / 5))%Q with (m - (- m) * (r / 5))%Q by ring.
  lra.
Qed.

(** A truthy [--auto-shutdown-minutes] always sets the timer: a value that
    is no number gives a [NaN] delay, in the warning and in the timer, and
    a negative number of minutes gives a negative delay, at most the value
    given. *)
Theorem auto_shutdown_is_not_validated (libs : Libs) (flags : Flags) (w : World)
    (st : state) :
  truthy (f_autoShutdownMinutes flags) = true ->
  (to_number libs (f_autoShutdownMinutes flags) = None ->
   setup_auto_shutdown libs flags w st
   = (Ok tt,
      after st [Log Warn (Msg ("Automatically shutting down the process in "
                               ++ number_text libs None ++ " minutes"));
                SetTimeout None]))
  /\ (forall m,
        to_number libs (f_autoShutdownMinutes flags) = Some m ->
        (m < 0)%Q -> (0 <= random w)%Q ->
        exists d,
          (d <= m)%Q /\ (d < 0)%Q
          /\ setup_auto_shutdown libs flags w st
             = (Ok tt,
                after st [Log Warn (Msg ("Automatically shutting down the process in "
                                         ++ number_text libs (Some d) ++ " minutes"));
                          SetTimeout (Some (d * 60 * 1000)%Q)])).
Proof.
  intros Ht. rewrite setup_auto_shutdown_run. unfold auto_shutdown_events, auto_shutdown_delay.
  rewrite Ht. split.
  - intros ->. reflexivity.
  - intros m -> Hm Hr. exists (m * (1 + random w / 5))%Q.
    pose proof (negative_delay m (random w) Hm Hr) as Hd.
    split; [exact Hd|]. split; [lra | reflexivity].
Qed.

(** [--auto-shutdown-minutes abc] and [--auto-shutdown-minutes -10]. *)
Lemma auto_shutdown_not_validated_witness :
  setup_auto_shutdown demo_libs
    (with_scraper VUndefined VUndefined VUndefined VUndefined (VStr "abc")) demo_world initial
  = (Ok tt,
     after initial [Log Warn (Msg "Automatically shutting down the process in NaN minutes");
                    SetTimeout None]).
Proof.
  destruct (auto_shutdown_is_not_validated demo_libs
              (with_scraper VUndefined VUndefined VUndefined VUndefined (VStr "abc"))
              demo_world initial) as [H _]; [reflexivity|].
  exact (H eq_refl).
Defined.


(* ===================================================================== *)
(** ** The listeners of the core events *)
(* ===================================================================== *)

(** [coreToInfo] and the listeners that use it, on a core whose key and
    discovery key are 32 bytes long.  The summary names the discovery key,
    the two lengths and the number of peers; with [includePublicKey] the
    public key follows.  The [announce-core], [core-downloaded],
    [core-append] and [core-client-mode-changed] listeners log the summary
    with the public key at info level; [core-activity] logs it without the
    public key at debug level, and has no listener outside debug mode.  A
    core without [peers] makes [coreToInfo] throw. *)
Theorem core_info_rendering (libs : Libs) (debug : bool) (w : World) (c d : list byte)
    (cl len isClient : value) (peers : list value) (st : state) (short long : string) :
  List.length c = 32%nat ->
  discoveryKey libs (VBuf c) = Ok (VBuf d) ->
  List.length d = 32%nat ->
  short = "Discovery key " ++ Z32.encode d ++ " (" ++ toStr cl ++ " / " ++ toStr len ++ ", "
          ++ decimal (Z.of_nat (List.length peers)) ++ " peers)" ->
  long = short ++ ". Public key: " ++ Z32.encode c ->
  coreToInfo libs (core_of c cl len peers) false = Ok short
  /\ coreToInfo libs (core_of c cl len peers) true = Ok long
  /\ handle libs debug w (AnnounceCore (core_of c cl len peers)) st
     = (Ok tt, after st [Log Info (Msg ("Started announcing core " ++ long))])
  /\ handle libs debug w (CoreDownloaded (core_of c cl len peers)) st
     = (Ok tt, after st [Log Info (Msg ("Announced core fully downloaded: " ++ long))])
  /\ handle libs debug w (CoreAppend (core_of c cl len peers)) st
     = (Ok tt, after st [Log Info (Msg ("Detected announced-core length update: " ++ long))])
  /\ handle libs debug w (CoreClientModeChanged (core_of c cl len peers) isClient) st
     = (Ok tt,
        after st [Log Info (Msg ((if truthy isClient
                                  then "Announced-core enabled client mode: "
                                  else "Announced-core disabled client mode: ") ++ long))])
  /\ handle libs true w (CoreActivity (core_of c cl len peers)) st
     = (Ok tt, after st [Log Debug (Msg ("Core activity for " ++ short))])
  /\ handle libs false w (CoreActivity (core_of c cl len peers)) st = (Ok tt, st)
  /\ (forall includePublicKey,
        coreToInfo libs (keyed c [("contiguousLength", cl); ("length", len)]) includePublicKey
        = Throw (TypeError "Cannot read properties of undefined (reading 'length')")).
Proof.
  intros Hc Hd Hdl -> ->.
  assert (Hs : coreToInfo libs (core_of c cl len peers) false
               = Ok ("Discovery key " ++ Z32.encode d ++ " (" ++ toStr cl ++ " / " ++ toStr len
                     ++ ", " ++ decimal (Z.of_nat (List.length peers)) ++ " peers)")).
  { unfold coreToInfo, core_of, keyed.
    cbn [get lookup String.eqb Ascii.eqb Bool.eqb JS.bind].
    rewrite Hd. cbn [JS.bind]. rewrite (normalize_key d Hdl). reflexivity. }
  assert (Hl : coreToInfo libs (core_of c cl len peers) true
               = Ok (("Discovery key " ++ Z32.encode d ++ " (" ++ toStr cl ++ " / " ++ toStr len
                      ++ ", " ++ decimal (Z.of_nat (List.length peers)) ++ " peers)")
                     ++ ". Public key: " ++ Z32.encode c)).
  { unfold coreToInfo, core_of, keyed.
    cbn [get lookup String.eqb Ascii.eqb Bool.eqb JS.bind].
    rewrite Hd. cbn [JS.bind]. rewrite (normalize_key d Hdl), (normalize_key c Hc).
    reflexivity. }
  repeat match goal with |- _ /\ _ => split end;
    try exact Hs; try exact Hl;
    cbn [handle when];
    unfold on_announce_core, on_core_downloaded, on_core_append,
      on_core_client_mode_changed, on_core_activity;
    rewrite ?Hs, ?Hl.
  - rewrite mbind_lift_ok. apply log_after.
  - rewrite mbind_lift_ok. apply log_after.
  - rewrite mbind_lift_ok. apply log_after.
  - destruct (truthy isClient); rewrite mbind_lift_ok; apply log_after.
  - rewrite mbind_lift_ok. apply log_after.
  - reflexivity.
  - intros b. unfold coreToInfo, keyed.
    cbn [get lookup String.eqb Ascii.eqb Bool.eqb JS.bind].
    rewrite Hd. cbn [JS.bind]. rewrite (normalize_key d Hdl). reflexivity.
Qed.

(** A core of five blocks, three of them contiguous, with two peers. *)
Lemma core_info_rendering_witness :
  coreToInfo demo_libs
    (core_of key_0_31 (VNum (Int 3)) (VNum (Int 5)) [VObj []; VObj []]) true
  = Ok ("Discovery key yyyyyyyyyyyyyyyyyyyyyyyyyyyyyyyyyyyyyyyyyyyyyyyyyyyy (3 / 5, 2 peers)"
        ++ ". Public key: yyyoryarywdyqnyjbefoadeqbhebnrounoktcfaadrpbs8y7daxo").
Proof.
  destruct (core_info_rendering demo_libs false demo_world key_0_31 zero_key
              (VNum (Int 3)) (VNum (Int 5)) VUndefined [VObj []; VObj []] initial
              "Discovery key yyyyyyyyyyyyyyyyyyyyyyyyyyyyyyyyyyyyyyyyyyyyyyyyyyyy (3 / 5, 2 peers)"
              ("Discovery key yyyyyyyyyyyyyyyyyyyyyyyyyyyyyyyyyyyyyyyyyyyyyyyyyyyy (3 / 5, 2 peers)"
               ++ ". Public key: yyyoryarywdyqnyjbefoadeqbhebnrounoktcfaadrpbs8y7daxo"))
    as [_ [H _]];
    [reflexivity | reflexivity | reflexivity | reflexivity | reflexivity | exact H].
Defined.

(* ===================================================================== *)
(** ** The listeners of errors and of garbage collection *)
(* ===================================================================== *)

Lemma get_defined (v : value) (k : string) :
  v <> VUndefined -> v <> VNull -> exists x, get v k = Ok x.
Proof. intros Hu Hn. destruct v; try congruence; eexists; reflexivity. Qed.

(** The [flush-error], [muxer-error], [gc-start] and [gc-done] listeners
    read one property of their payload.  Given anything but [undefined] and
    [null] they do not throw and make one logger call: the error's stack at
    warn level for a flush error and at info level for a muxer error; for
    the garbage collector, at info level, the bytes of the payload and the
    engine's allocation and budget, each through [byteSize]. *)
Theorem error_and_gc_listeners (libs : Libs) (debug : bool) (w : World) (payload : value)
    (st : state) :
  payload <> VUndefined -> payload <> VNull ->
  exists stack_value bytesToClear bytesCleared,
    get payload "stack" = Ok stack_value
    /\ get payload "bytesToClear" = Ok bytesToClear
    /\ get payload "bytesCleared" = Ok bytesCleared
    /\ handle libs debug w (FlushError payload) st
       = (Ok tt, after st [Log Warn (Msg ("Error while flushing the db: "
                                          ++ toStr stack_value))])
    /\ handle libs debug w (MuxerError payload) st
       = (Ok tt, after st [Log Info (Msg ("Error while running the muxer protocol: "
                                          ++ toStr stack_value))])
    /\ handle libs debug w (GcStart payload) st
       = (Ok tt,
          after st [Log Info (Msg ("Starting GC, trying to clear " ++ byteSize libs bytesToClear
                                   ++ " (bytes allocated: " ++ byteSize libs (bytesAllocated w)
                                   ++ " of " ++ byteSize libs (engine_maxBytes w) ++ ")"))])
    /\ handle libs debug w (GcDone payload) st
       = (Ok tt,
          after st [Log Info (Msg ("Completed GC, cleared " ++ byteSize libs bytesCleared
                                   ++ " bytes (bytes allocated: "
                                   ++ byteSize libs (bytesAllocated w)
                                   ++ " of " ++ byteSize libs (engine_maxBytes w) ++ ")"))]).
Proof.
  intros Hu Hn.
  destruct (get_defined payload "stack" Hu Hn) as [sv Es].
  destruct (get_defined payload "bytesToClear" Hu Hn) as [b1 E1].
  destruct (get_defined payload "bytesCleared" Hu Hn) as [b2 E2].
  exists sv, b1, b2. do 3 (split; [assumption|]).
  cbn [handle]. unfold on_flush_error, on_muxer_error, on_gc_start, on_gc_done.
  rewrite Es, E1, E2, !mbind_lift_ok, !log_after. repeat split.
Qed.

(** A garbage collection that starts with 2048 bytes to clear. *)
Lemma error_and_gc_listeners_witness :
  handle demo_libs false demo_world (GcStart (VObj [("bytesToClear", VNum (Int 2048))])) initial
  = (Ok tt,
     after initial
       [Log Info (Msg "Starting GC, trying to clear 2048B (bytes allocated: 0B of 100000000000B)")]).
Proof.
  destruct (error_and_gc_listeners demo_libs false demo_world
              (VObj [("bytesToClear", VNum (Int 2048))]) initial)
    as [sv [b1 [b2 [_ [E1 [_ [_ [_ [H _]]]]]]]]]; [discriminate | discriminate |].
  cbn in E1. injection E1 as <-. exact H.
Defined.


(* ===================================================================== *)
(** ** Runs of the properties above on the example inputs *)
(* ===================================================================== *)

(** A run with [--log-streams] and [--auto-shutdown-minutes 10]: one
    interval, one timeout of 660,000 ms. *)
Lemma timers_of_a_run_witness :
  intervals
    (trace (snd (main demo_libs
                   (mkFlags VUndefined VUndefined VUndefined VUndefined VUndefined VUndefined
                      VUndefined VUndefined VUndefined VUndefined VUndefined (VBool true)
                      VUndefined (VStr "10"))
                   demo_world initial)))
  = [30000]
  /\ timeouts
       (trace (snd (main demo_libs
                      (mkFlags VUndefined VUndefined VUndefined VUndefined VUndefined VUndefined
                         VUndefined VUndefined VUndefined VUndefined VUndefined (VBool true)
                         VUndefined (VStr "10"))
                      demo_world initial)))
     = [Some (10 * (1 + (1 # 2) / 5) * 60 * 1000)%Q].
Proof.
  destruct (timers_of_a_run demo_libs
              (mkFlags VUndefined VUndefined VUndefined VUndefined VUndefined VUndefined
                 VUndefined VUndefined VUndefined VUndefined VUndefined (VBool true)
                 VUndefined (VStr "10"))
              demo_world) as [_ [_ H]].
  destruct H as [H1 [H2 _]]; [vm_compute; reflexivity|].
  split; [exact H1 | exact H2].
Defined.

(** An exporter whose [close()] rejects: the hook throws and the engine is
    not closed. *)
Lemma exit_hook_witness :
  goodbye_callback
    (mkWorld (Ok tt)
       (fun op => match op with
                  | InstrumentationClose => Throw (Error "scraper unreachable")
                  | _ => Ok tt
                  end)
       (fun _ => []) (1 # 2) [] VUndefined VUndefined VUndefined VUndefined
       VUndefined VUndefined VUndefined)
    (mkState [GoodbyeRegistered] (Some (mkInstrumentation zero_key (VStr "node7") zero_key)))
  = (Throw (Error "scraper unreachable"),
     mkState [GoodbyeRegistered; Log Info (Msg "Closing instrumentation");
              Called InstrumentationClose; Settled InstrumentationClose false]
             (Some (mkInstrumentation zero_key (VStr "node7") zero_key))).
Proof.
  destruct (exit_hook_stops_at_first_failure
              (mkWorld (Ok tt)
                 (fun op => match op with
                            | InstrumentationClose => Throw (Error "scraper unreachable")
                            | _ => Ok tt
                            end)
                 (fun _ => []) (1 # 2) [] VUndefined VUndefined VUndefined VUndefined
                 VUndefined VUndefined VUndefined)
              (mkState [GoodbyeRegistered]
                 (Some (mkInstrumentation zero_key (VStr "node7") zero_key))))
    as [H _].
  destruct (H (mkInstrumentation zero_key (VStr "node7") zero_key)
              (Error "scraper unreachable") eq_refl eq_refl) as [E _].
  exact E.
Defined.

(** The run with scraper credentials: the keys handed over are 32 bytes
    long. *)
Lemma keys_handed_over_witness :
  Forall keys_of_32_bytes (trace (snd (main demo_libs console_flags demo_world initial))).
Proof. exact (keys_handed_over_are_32_bytes demo_libs console_flags demo_world). Defined.
